(** * blocktime-calculator: the sampling and robust-statistics engine

    A shallow embedding of [internal/client/client.go],
    [internal/calculator/calculator.go], [internal/calculator/predictor.go]
    and the data types of [pkg/types], with the properties of the
    specification stated over it.

    Conventions.
    - [int], [int64] and [time.Duration] are [Z]; where the source can wrap
      ([int64] subtraction, addition) the wrap-around is written with
      [wrap64].  A [time.Time] is an instant in nanoseconds, as a [Z].
    - [float64] is an interface, [Float64], with two instances: [IEEE], the
      kernel's binary64 numbers, evaluates the code bit for bit on concrete
      inputs; [Exact] computes in the rationals, and is the model in which
      the arithmetic laws of the specification are proved.
    - A slice is a header (backing array, offset, length, capacity) over a
      heap of backing arrays; [make], [copy], [append] and [sort.Float64s]
      act on that heap, so aliasing and in-place sorting are visible.
    - A Go function that returns [(value, error)] returns an [Outcome] in
      the monad [M]; a run-time panic is the outcome [Panic].
    - The tasks of a range fetch run under a scheduler that the chain node
      carries as an oracle: it picks, step by step, which running task
      finishes next, so every interleaving the semaphore allows is a value
      of the oracle. *)

From Stdlib Require Import ZArith QArith Qround Qabs Lqa Lia List Bool String.
From Stdlib Require Import Sorted Permutation.
From Stdlib Require Import PrimFloat FloatOps SpecFloat FloatAxioms.
From stdpp Require Import base list sorting strings gmap.

Local Open Scope Z_scope.

(** ** Machine integers *)

Definition min_int64 : Z := - 2 ^ 63.
Definition max_int64 : Z := 2 ^ 63 - 1.

Definition in_int64 (z : Z) : bool := (min_int64 <=? z) && (z <=? max_int64).

(** Two's-complement wrap-around of a 64-bit signed result. *)
Definition wrap64 (z : Z) : Z := (z + 2 ^ 63) mod 2 ^ 64 - 2 ^ 63.

(** ** The float64 interface *)

Class Float64 (T : Type) : Type := {
  f_lit : Q -> T;            (* a Go constant, converted to float64 *)
  f_ofInt : Z -> T;          (* float64(n) *)
  f_add : T -> T -> T;
  f_sub : T -> T -> T;
  f_mul : T -> T -> T;
  f_div : T -> T -> T;
  f_abs : T -> T;            (* math.Abs *)
  f_sqrt : T -> T;           (* math.Sqrt *)
  f_max : T -> T -> T;       (* math.Max *)
  f_min : T -> T -> T;       (* math.Min *)
  f_floor : T -> T;          (* math.Floor *)
  f_ceil : T -> T;           (* math.Ceil *)
  f_ltb : T -> T -> bool;    (* x < y *)
  f_leb : T -> T -> bool;    (* x <= y *)
  f_eqb : T -> T -> bool;    (* x == y *)
  f_isNaN : T -> bool;       (* math.IsNaN *)
  f_toInt : T -> Z           (* int(x), int64(x): truncation toward zero *)
}.

(** *** IEEE 754 binary64 *)

Module IEEE754.

Local Open Scope float_scope.

(** [float64(n)]: the integer rounded to the nearest binary64 number. *)
Definition ofInt (z : Z) : float := SF2Prim (binary_normalize prec emax z 0 false).

(** A Go constant is exact until it is converted; numerator and
    denominator of the constants of this program are below [2^53], so one
    correctly rounded division gives the nearest binary64 number. *)
Definition lit (q : Q) : float := ofInt (Qnum q) / ofInt (Z.pos (Qden q)).

(** The integer part of a finite number, rounded toward minus infinity,
    and whether the number is an integer. *)
Definition floorZ (x : float) : option (Z * bool) :=
  match Prim2SF x with
  | S754_zero _ => Some (0%Z, true)
  | S754_finite s m e =>
      let n := if s then Z.neg m else Z.pos m in
      if (0 <=? e)%Z then Some ((n * 2 ^ e)%Z, true)
      else Some ((n / 2 ^ (- e))%Z, (n mod 2 ^ (- e) =? 0)%Z)
  | _ => None
  end.

Definition floor (x : float) : float :=
  match floorZ x with
  | Some (n, integral) => if integral then x else ofInt n
  | None => x
  end.

Definition ceil (x : float) : float := - floor (- x).

(** [int64(x)]: truncation toward zero; NaN, the infinities and values
    out of range give the amd64 result, the least [int64]. *)
Definition toInt (x : float) : Z :=
  match floorZ x with
  | Some (n, integral) =>
      let t := if integral || (0 <=? n)%Z then n else (n + 1)%Z in
      if in_int64 t then t else min_int64
  | None => min_int64
  end.

Definition pos_inf (x : float) : bool := is_infinity x && negb (get_sign x).
Definition neg_inf (x : float) : bool := is_infinity x && get_sign x.

(** [math.Max] and [math.Min] with their special cases. *)
Definition max (x y : float) : float :=
  if pos_inf x || pos_inf y then infinity
  else if is_nan x || is_nan y then nan
  else if (x =? 0) && (x =? y) then (if get_sign x then y else x)
  else if y <? x then x else y.

Definition min (x y : float) : float :=
  if neg_inf x || neg_inf y then neg_infinity
  else if is_nan x || is_nan y then nan
  else if (x =? 0) && (x =? y) then (if get_sign x then x else y)
  else if x <? y then x else y.

End IEEE754.

#[export] Instance IEEE : Float64 float := {
  f_lit := IEEE754.lit;
  f_ofInt := IEEE754.ofInt;
  f_add := PrimFloat.add;
  f_sub := PrimFloat.sub;
  f_mul := PrimFloat.mul;
  f_div := PrimFloat.div;
  f_abs := PrimFloat.abs;
  f_sqrt := PrimFloat.sqrt;
  f_max := IEEE754.max;
  f_min := IEEE754.min;
  f_floor := IEEE754.floor;
  f_ceil := IEEE754.ceil;
  f_ltb := PrimFloat.ltb;
  f_leb := PrimFloat.leb;
  f_eqb := PrimFloat.eqb;
  f_isNaN := PrimFloat.is_nan;
  f_toInt := IEEE754.toInt
}.

(** *** Exact rational arithmetic

    The idealised reading of the same program: no rounding, no NaN, no
    infinities.  The rationals have no square root, so [math.Sqrt] is a
    parameter [rt] of the instance; nothing proved below depends on it. *)

Module ExactQ.

Local Open Scope Q_scope.

Definition ltb (x y : Q) : bool := negb (Qle_bool y x).
Definition max (x y : Q) : Q := if ltb y x then x else y.
Definition min (x y : Q) : Q := if ltb x y then x else y.
Definition floor (x : Q) : Q := inject_Z (Qfloor x).
Definition ceil (x : Q) : Q := inject_Z (Qceiling x).
Definition toInt (x : Q) : Z :=
  let t := if Qle_bool 0 x then Qfloor x else Qceiling x in
  if in_int64 t then t else min_int64.

End ExactQ.

Definition Exact (rt : Q -> Q) : Float64 Q := {|
  f_lit := fun q => q;
  f_ofInt := inject_Z;
  f_add := Qplus;
  f_sub := Qminus;
  f_mul := Qmult;
  f_div := Qdiv;
  f_abs := Qabs;
  f_sqrt := rt;
  f_max := ExactQ.max;
  f_min := ExactQ.min;
  f_floor := ExactQ.floor;
  f_ceil := ExactQ.ceil;
  f_ltb := ExactQ.ltb;
  f_leb := Qle_bool;
  f_eqb := Qeq_bool;
  f_isNaN := fun _ => false;
  f_toInt := ExactQ.toInt
|}.

(** ** Pure parts of the calculator: sorting order and percentiles *)

Section Numeric.

Context {T : Type} `{F : Float64 T}.

(** The order of [sort.Float64s]: ascending, NaN first. *)
Definition lessFloat64 (x y : T) : bool :=
  f_ltb x y || (f_isNaN x && negb (f_isNaN y)).

Fixpoint insertFloat64 (x : T) (l : list T) : list T :=
  match l with
  | [] => [x]
  | y :: l' => if lessFloat64 x y then x :: l else y :: insertFloat64 x l'
  end.

(** What [sort.Float64s] leaves in the slice it is given. *)
Definition sortedFloat64s (l : list T) : list T := foldr insertFloat64 [] l.

(** [sorted[i]] for an index the source keeps in range. *)
Definition at_index (sorted : list T) (i : Z) : T :=
  nth (Z.to_nat i) sorted (f_lit 0).

Definition percentile (sorted : list T) (p : T) : T :=
  if (length sorted =? 0)%nat then f_lit 0
  else if f_leb p (f_lit 0) then at_index sorted 0
  else if f_leb (f_lit 1) p then at_index sorted (Z.of_nat (length sorted) - 1)
  else
    let index := f_mul p (f_ofInt (Z.of_nat (length sorted) - 1)) in
    let lower := f_toInt (f_floor index) in
    let upper := f_toInt (f_ceil index) in
    if lower =? upper then at_index sorted lower
    else
      let weight := f_sub index (f_ofInt lower) in
      f_add (f_mul (at_index sorted lower) (f_sub (f_lit 1) weight))
            (f_mul (at_index sorted upper) weight).

End Numeric.

(** ** Outcomes, the heap of backing arrays, and the monad *)

Inductive Error : Type :=
| InvalidRange (startHeight endHeight : Z)      (* "invalid range: start %d > end %d" *)
| InsufficientSampleSize (n minimum : Z)        (* "insufficient sample size: %d < minimum %d" *)
| InsufficientValidTimes (n minimum : Z)        (* "insufficient valid block times: %d < minimum %d" *)
| InvalidArgument (msg : string)                (* "count must be positive" *)
| Cancelled                                     (* ctx.Err() *)
| Upstream (msg : string)                       (* an error of the chain-query service *)
| NilBlock (height : Z)                         (* "nil block result at height %d" *)
| BlockFailed (height : Z) (cause : Error)      (* "failed to get block %d: %w" *)
| Wrapped (msg : string) (cause : Error).       (* fmt.Errorf("msg: %w", err) *)

Inductive Outcome (A : Type) : Type :=
| Ok (a : A)
| Err (e : Error)
| Panic (msg : string).
Arguments Ok {A} a.
Arguments Err {A} e.
Arguments Panic {A} msg.

(** A slice header: backing array, offset in it, length and capacity. *)
Record Slice : Type := { s_ptr : nat; s_off : nat; s_len : nat; s_cap : nat }.

(** The nil slice: no element can be read or written through it. *)
Definition nilSlice : Slice := {| s_ptr := 0; s_off := 0; s_len := 0; s_cap := 0 |}.

Definition len (s : Slice) : Z := Z.of_nat (s_len s).

(** The world a call runs in: the state [E] of its collaborators (the chain
    node, the clock) and the heap of float64 backing arrays. *)
Record World (E T : Type) : Type := { env : E; heap : list (list T) }.
Arguments env {E T} w.
Arguments heap {E T} w.

Definition M (E T A : Type) : Type := World E T -> Outcome A * World E T.

#[export] Instance M_ret {E T} : MRet (M E T) := fun A a w => (Ok a, w).
#[export] Instance M_bind {E T} : MBind (M E T) := fun A B f m w =>
  match m w with
  | (Ok a, w') => f a w'
  | (Err e, w') => (Err e, w')
  | (Panic msg, w') => (Panic msg, w')
  end.

Section Heap.

Context {E T : Type} `{F : Float64 T}.

Definition raise {A} (e : Error) : M E T A := fun w => (Err e, w).
Definition panic {A} (msg : string) : M E T A := fun w => (Panic msg, w).

(** [if err != nil { return nil, fmt.Errorf("msg: %w", err) }] *)
Definition wrapErr {A} (msg : string) (m : M E T A) : M E T A := fun w =>
  match m w with
  | (Err e, w') => (Err (Wrapped msg e), w')
  | r => r
  end.

Definition array_of (h : list (list T)) (s : Slice) : list T :=
  default [] (h !! s_ptr s).

(** The elements [s[0], ..., s[len(s)-1]]. *)
Definition slice_elems (h : list (list T)) (s : Slice) : list T :=
  take (s_len s) (drop (s_off s) (array_of h s)).

(** Overwrite [s[i], s[i+1], ...] with [xs]. *)
Definition store_at (h : list (list T)) (s : Slice) (i : nat) (xs : list T)
  : list (list T) :=
  let a := array_of h s in
  <[s_ptr s := take (s_off s + i) a ++ xs ++ drop (s_off s + i + length xs) a]> h.

Definition set_heap (h : list (list T)) : M E T () := fun w =>
  (Ok (), {| env := env w; heap := h |}).

Definition elems (s : Slice) : M E T (list T) := fun w =>
  (Ok (slice_elems (heap w) s), w).

(** [make([]float64, n, c)] *)
Definition make (n c : Z) : M E T Slice := fun w =>
  if (n <? 0) || (c <? n) then (Panic "makeslice: len or cap out of range", w)
  else (Ok {| s_ptr := length (heap w); s_off := 0;
              s_len := Z.to_nat n; s_cap := Z.to_nat c |},
        {| env := env w; heap := heap w ++ [replicate (Z.to_nat c) (f_lit 0)] |}).

(** [copy(dst, src)] *)
Definition copy (dst src : Slice) : M E T () := fun w =>
  let n := Nat.min (s_len dst) (s_len src) in
  set_heap (store_at (heap w) dst 0 (take n (slice_elems (heap w) src))) w.

(** [sort.Float64s(s)]: in place. *)
Definition sortFloat64s (s : Slice) : M E T () := fun w =>
  set_heap (store_at (heap w) s 0 (sortedFloat64s (slice_elems (heap w) s))) w.

(** [s[i]] *)
Definition index (s : Slice) (i : nat) : M E T T := fun w =>
  match slice_elems (heap w) s !! i with
  | Some v => (Ok v, w)
  | None => (Panic "index out of range", w)
  end.

(** [s[i] = v] *)
Definition setIndex (s : Slice) (i : nat) (v : T) : M E T () := fun w =>
  if (i <? s_len s)%nat then set_heap (store_at (heap w) s i [v]) w
  else (Panic "index out of range", w).

(** The capacity [append] asks for when the array is full; the runtime's
    policy is its own, doubling stands for it. *)
Definition grow (c : nat) : nat := if (c =? 0)%nat then 1%nat else (2 * c)%nat.

(** [append(s, v)]: in place while the capacity lasts, else into a new
    array. *)
Definition append (s : Slice) (v : T) : M E T Slice := fun w =>
  if (s_len s <? s_cap s)%nat then
    (Ok {| s_ptr := s_ptr s; s_off := s_off s;
           s_len := S (s_len s); s_cap := s_cap s |},
     {| env := env w; heap := store_at (heap w) s (s_len s) [v] |})
  else
    let c := grow (s_cap s) in
    (Ok {| s_ptr := length (heap w); s_off := 0; s_len := S (s_len s); s_cap := c |},
     {| env := env w;
        heap := heap w ++ [slice_elems (heap w) s ++ v :: replicate (c - S (s_len s)) (f_lit 0)] |}).

(** [s[lo:hi]] *)
Definition reslice (s : Slice) (lo hi : Z) : M E T Slice :=
  if (lo <? 0) || (hi <? lo) || (Z.of_nat (s_cap s) <? hi)
  then panic "slice bounds out of range"
  else mret {| s_ptr := s_ptr s; s_off := s_off s + Z.to_nat lo;
               s_len := Z.to_nat (hi - lo); s_cap := s_cap s - Z.to_nat lo |}.

(** [for i, v := range s { acc = body(i, v, acc) }]: the length is read
    once, each element when its turn comes. *)
Fixpoint forRangeFrom {A} (s : Slice) (body : nat -> T -> A -> M E T A)
    (i n : nat) (acc : A) : M E T A :=
  match n with
  | O => mret acc
  | S n' =>
      v ← index s i;
      acc' ← body i v acc;
      forRangeFrom s body (S i) n' acc'
  end.

Definition forRange {A} (s : Slice) (body : nat -> T -> A -> M E T A) (acc : A)
  : M E T A :=
  forRangeFrom s body 0 (s_len s) acc.

End Heap.

(** ** Data types of [pkg/types] *)

Module Range.
Record t (T : Type) : Type := mk { Lower : T; Upper : T; Typical : T }.
Arguments mk {T} _ _ _.
Arguments Lower {T} _.
Arguments Upper {T} _.
Arguments Typical {T} _.
End Range.

Module BlockTimeStats.
Record t (T : Type) : Type := mk {
  SampleSize : Z;
  StartHeight : Z;
  EndHeight : Z;
  StartTime : Z;
  EndTime : Z;
  Mean : T;
  Median : T;
  StdDev : T;
  Min : T;
  Max : T;
  P25 : T;
  P75 : T;
  P95 : T;
  P99 : T;
  OutlierCount : Z;
  EstimatedRange : Range.t T;
  ConfidenceLevel : T
}.
Arguments mk {T}.
Arguments SampleSize {T} _.
Arguments StartHeight {T} _.
Arguments EndHeight {T} _.
Arguments StartTime {T} _.
Arguments EndTime {T} _.
Arguments Mean {T} _.
Arguments Median {T} _.
Arguments StdDev {T} _.
Arguments Min {T} _.
Arguments Max {T} _.
Arguments P25 {T} _.
Arguments P75 {T} _.
Arguments P95 {T} _.
Arguments P99 {T} _.
Arguments OutlierCount {T} _.
Arguments EstimatedRange {T} _.
Arguments ConfidenceLevel {T} _.
End BlockTimeStats.

Module CalculatorConfig.
Record t (T : Type) : Type := mk {
  SampleSize : Z;
  OutlierThreshold : T;
  ConfidenceLevel : T;
  MinSampleSize : Z;
  TrimPercent : T;
  UseMedianAbsolute : bool
}.
Arguments mk {T}.
Arguments SampleSize {T} _.
Arguments OutlierThreshold {T} _.
Arguments ConfidenceLevel {T} _.
Arguments MinSampleSize {T} _.
Arguments TrimPercent {T} _.
Arguments UseMedianAbsolute {T} _.
End CalculatorConfig.

Module BlockInfo.
Record t (T : Type) : Type := mk {
  Height : Z;
  Time : Z;
  Hash : string;
  Proposer : string;
  TxCount : Z;
  BlockTime : T
}.
Arguments mk {T}.
Arguments Height {T} _.
Arguments Time {T} _.
Arguments Hash {T} _.
Arguments Proposer {T} _.
Arguments TxCount {T} _.
Arguments BlockTime {T} _.
End BlockInfo.

(** ** [internal/calculator/calculator.go]: outlier removal and statistics *)

Section Statistics.

Context {E T : Type} `{F : Float64 T}.

Definition DefaultConfig : CalculatorConfig.t T :=
  CalculatorConfig.mk 100 (f_lit 1.5) (f_lit 0.95) 30 (f_lit 0.05) true.

(** The zero value [types.Range{}] and [&types.BlockTimeStats{}]. *)
Definition zeroRange : Range.t T := Range.mk (f_lit 0) (f_lit 0) (f_lit 0).

Definition zeroStats : BlockTimeStats.t T :=
  BlockTimeStats.mk 0 0 0 0 0 (f_lit 0) (f_lit 0) (f_lit 0) (f_lit 0) (f_lit 0)
    (f_lit 0) (f_lit 0) (f_lit 0) (f_lit 0) 0 zeroRange (f_lit 0).

Definition removeOutliersIQR (c : CalculatorConfig.t T) (sorted : Slice)
  : M E T (Slice * Z) :=
  sv ← elems sorted;
  let q1 := percentile sv (f_lit 0.25) in
  let q3 := percentile sv (f_lit 0.75) in
  let iqr := f_sub q3 q1 in
  let lowerBound := f_sub q1 (f_mul (CalculatorConfig.OutlierThreshold c) iqr) in
  let upperBound := f_add q3 (f_mul (CalculatorConfig.OutlierThreshold c) iqr) in
  cleaned ← make 0 (len sorted);
  forRange sorted (fun _ v '(cleaned, outlierCount) =>
    if f_leb lowerBound v && f_leb v upperBound then
      cleaned' ← append cleaned v;
      mret (cleaned', outlierCount)
    else mret (cleaned, outlierCount + 1)) (cleaned, 0).

(** The modified z-score of the MAD branch. *)
Definition modifiedZScore (v median mad : T) : T :=
  f_div (f_mul (f_lit 0.6745) (f_sub v median)) mad.

Definition removeOutliers (c : CalculatorConfig.t T) (times : Slice)
  : M E T (Slice * Z) :=
  if len times <=? 3 then mret (times, 0)
  else
    sorted ← make (len times) (len times);
    _ ← copy sorted times;
    _ ← sortFloat64s sorted;
    if CalculatorConfig.UseMedianAbsolute c then
      sv ← elems sorted;
      let median := percentile sv (f_lit 0.5) in
      deviations ← make (len sorted) (len sorted);
      _ ← forRange sorted (fun i v _ =>
             setIndex deviations i (f_abs (f_sub v median))) ();
      _ ← sortFloat64s deviations;
      dv ← elems deviations;
      let mad := percentile dv (f_lit 0.5) in
      let threshold := f_lit 3.5 in
      if f_eqb mad (f_lit 0) then removeOutliersIQR c sorted
      else
        '(cleaned, outlierCount) ← forRange times (fun _ v '(cleaned, outlierCount) =>
            if f_leb (f_abs (modifiedZScore v median mad)) threshold then
              cleaned' ← append cleaned v;
              mret (cleaned', outlierCount)
            else mret (cleaned, outlierCount + 1)) (nilSlice, 0);
        if f_ltb (f_lit 0) (CalculatorConfig.TrimPercent c) && (10 <? len cleaned) then
          let trimCount :=
            f_toInt (f_mul (f_ofInt (len cleaned)) (CalculatorConfig.TrimPercent c)) in
          if 0 <? trimCount then
            _ ← sortFloat64s cleaned;
            cleaned' ← reslice cleaned trimCount (len cleaned - trimCount);
            mret (cleaned', outlierCount + trimCount * 2)
          else mret (cleaned, outlierCount)
        else mret (cleaned, outlierCount)
    else removeOutliersIQR c sorted.

Definition calculateStatistics (times : Slice) : M E T (BlockTimeStats.t T) :=
  if len times =? 0 then mret zeroStats
  else
    sorted ← make (len times) (len times);
    _ ← copy sorted times;
    _ ← sortFloat64s sorted;
    sv ← elems sorted;
    sum ← forRange times (fun _ v sum => mret (f_add sum v)) (f_lit 0);
    let mean := f_div sum (f_ofInt (len times)) in
    sumSquaredDiff ← forRange times (fun _ v acc =>
        let diff := f_sub v mean in
        mret (f_add acc (f_mul diff diff))) (f_lit 0);
    mret (BlockTimeStats.mk 0 0 0 0 0
            mean
            (percentile sv (f_lit 0.5))
            (f_sqrt (f_div sumSquaredDiff (f_ofInt (len times))))
            (at_index sv 0)
            (at_index sv (len sorted - 1))
            (percentile sv (f_lit 0.25))
            (percentile sv (f_lit 0.75))
            (percentile sv (f_lit 0.95))
            (percentile sv (f_lit 0.99))
            0 zeroRange (f_lit 0)).

Definition calculateRange (c : CalculatorConfig.t T) (times : Slice)
    (stats : BlockTimeStats.t T) : Range.t T :=
  if len times =? 0 then zeroRange
  else
    let iqr := f_sub (BlockTimeStats.P75 stats) (BlockTimeStats.P25 stats) in
    let lower := f_max (f_sub (BlockTimeStats.P25 stats) (f_mul (f_lit 0.5) iqr))
                       (BlockTimeStats.Min stats) in
    let upper := f_min (f_add (BlockTimeStats.P75 stats) (f_mul (f_lit 0.5) iqr))
                       (BlockTimeStats.P95 stats) in
    let typical := BlockTimeStats.Median stats in
    let '(lower, upper) :=
      if f_ltb (CalculatorConfig.ConfidenceLevel c) (f_lit 0.95) then
        let factor := f_div (CalculatorConfig.ConfidenceLevel c) (f_lit 0.95) in
        let rangeWidth := f_sub upper lower in
        let adjustment :=
          f_div (f_mul rangeWidth (f_sub (f_lit 1) factor)) (f_lit 2) in
        (f_add lower adjustment, f_sub upper adjustment)
      else (lower, upper) in
    Range.mk (f_max lower (f_lit 0)) upper typical.

End Statistics.

(** ** [internal/client/client.go] *)

(** A call to a collaborator acts on the environment alone: the float64
    arrays of the calculator are out of its reach. *)
Definition Call (E A : Type) : Type := E -> Outcome A * E.

Definition liftCall {E T A} (c : Call E A) : M E T A := fun w =>
  let '(r, e) := c (env w) in (r, {| env := e; heap := heap w |}).

(** The interface [BlockchainClient]; [Close] plays no part here. *)
Record BlockchainClient (E T : Type) : Type := {
  GetLatestBlockHeight : Call E Z;
  GetBlockByHeight : Z -> Call E (BlockInfo.t T);
  GetBlockRange : Z -> Z -> Call E (list (BlockInfo.t T))
}.
Arguments GetLatestBlockHeight {E T} _.
Arguments GetBlockByHeight {E T} _.
Arguments GetBlockRange {E T} _.

(** [tmtypes.Block], as far as the client reads it. *)
Module Block.
Record t : Type := mk {
  Height : Z;
  Time : Z;
  LastBlockIDHash : string;     (* LastBlockID.Hash.String() *)
  ProposerAddress : string;     (* ProposerAddress.String() *)
  Txs : list string
}.
End Block.

(** What [c.client.Block(ctx, &h)] gives back: an error, or no error and
    either a block or none ([blockResult == nil || blockResult.Block == nil]). *)
Inductive BlockResult : Type :=
| RpcError (msg : string)
| RpcNoBlock
| RpcBlock (b : Block.t).

(** The chain node as the client sees it, with the two things the program
    does not decide: which running task finishes next ([sched], read at
    successive [tick]s) and whether the context is done when the launch loop
    reaches a height ([ctxDone]).  [calls] logs the heights for which a
    [Block] request was issued. *)
Record Node : Type := {
  status : string + Z;
  block : Z -> BlockResult;
  ctxDone : Z -> bool;
  sched : nat -> nat;
  tick : nat;
  calls : list Z
}.

Definition with_tick (n : Node) (t : nat) : Node :=
  {| status := status n; block := block n; ctxDone := ctxDone n;
     sched := sched n; tick := t; calls := calls n |}.

Definition with_call (n : Node) (h : Z) : Node :=
  {| status := status n; block := block n; ctxDone := ctxDone n;
     sched := sched n; tick := tick n; calls := calls n ++ [h] |}.

(** [t.Sub(u)]: a [Duration], saturating at the ends of [int64]. *)
Definition timeSub (t u : Z) : Z :=
  let d := t - u in
  if d <? min_int64 then min_int64 else if max_int64 <? d then max_int64 else d.

Definition maxConcurrent : nat := 10.

(** The state of one range fetch: the tasks holding a slot of the
    semaphore, the buffered channel of blocks in the order they were sent,
    and the one-place error channel. *)
Record Fetch : Type := {
  inflight : list Z;
  blockChan : list Block.t;
  errChan : option Error
}.

Section Client.

Context {T : Type} `{F : Float64 T}.

(** [d.Seconds()] *)
Definition durationSeconds (d : Z) : T :=
  f_add (f_ofInt (Z.quot d 1000000000))
        (f_div (f_ofInt (Z.rem d 1000000000)) (f_lit 1e9)).

Definition GetLatestBlockHeight_cosmos : Call Node Z := fun n =>
  match status n with
  | inl msg => (Err (Wrapped "failed to get status" (Upstream msg)), n)
  | inr h => (Ok h, n)
  end.

Definition GetBlockByHeight_cosmos (height : Z) : Call Node (BlockInfo.t T) := fun n =>
  match block n height with
  | RpcError msg => (Err (BlockFailed height (Upstream msg)), with_call n height)
  | RpcNoBlock => (Err (NilBlock height), with_call n height)
  | RpcBlock b =>
      (Ok (BlockInfo.mk (Block.Height b) (Block.Time b) (Block.LastBlockIDHash b)
             (Block.ProposerAddress b) (Z.of_nat (length (Block.Txs b))) (f_lit 0)),
       with_call n height)
  end.

(** The body of the task at position [k] of the running ones, run to its
    end: the request, then one send, then the slot is given back. *)
Definition finish (n : Node) (k : nat) (st : Fetch) : Fetch :=
  match inflight st !! k with
  | None => st
  | Some h =>
      let running := delete k (inflight st) in
      match block n h with
      | RpcError msg =>
          {| inflight := running; blockChan := blockChan st;
             errChan := match errChan st with
                        | None => Some (BlockFailed h (Upstream msg))
                        | Some e => Some e
                        end |}
      | RpcNoBlock =>
          {| inflight := running; blockChan := blockChan st; errChan := errChan st |}
      | RpcBlock b =>
          {| inflight := running; blockChan := blockChan st ++ [b];
             errChan := errChan st |}
      end
  end.

(** [semaphore <- struct{}{}] in the launch loop: tasks finish, as the
    scheduler has it, until a slot is free and the scheduler lets the loop
    go on. *)
Fixpoint acquire (fuel : nat) (n : Node) (st : Fetch) (t : nat) : Fetch * nat :=
  match fuel with
  | O => (st, t)
  | S fuel' =>
      match inflight st with
      | [] => (st, t)
      | _ :: _ =>
          let c := sched n t in
          if (length (inflight st) <? maxConcurrent)%nat && (c =? 0)%nat
          then (st, S t)
          else acquire fuel' n (finish n (c mod length (inflight st)) st) (S t)
      end
  end.

(** The launch loop over the heights still to be requested. *)
Fixpoint launchAll (hs : list Z) (n : Node) (st : Fetch) : option Fetch * Node :=
  match hs with
  | [] => (Some st, n)
  | h :: hs' =>
      if ctxDone n h then (None, n)
      else
        let '(st1, t1) := acquire (S (length (inflight st))) n st (tick n) in
        launchAll hs' (with_call (with_tick n t1) h)
          {| inflight := inflight st1 ++ [h]; blockChan := blockChan st1;
             errChan := errChan st1 |}
  end.

(** The ten sends that fill the semaphore: every running task finishes. *)
Fixpoint drain (fuel : nat) (n : Node) (st : Fetch) (t : nat) : Fetch * nat :=
  match fuel with
  | O => (st, t)
  | S fuel' =>
      match inflight st with
      | [] => (st, t)
      | _ :: _ => drain fuel' n (finish n (sched n t mod length (inflight st)) st) (S t)
      end
  end.

(** The sort of the source: for each [i], every later [j] is compared
    with position [i] and exchanged when out of order. *)
Definition exchange (i j : nat) (a : list Block.t) : list Block.t :=
  match a !! i, a !! j with
  | Some x, Some y =>
      if Block.Height y <? Block.Height x then <[j := x]> (<[i := y]> a) else a
  | _, _ => a
  end.

Fixpoint innerLoop (i j count : nat) (a : list Block.t) : list Block.t :=
  match count with
  | O => a
  | S count' => innerLoop i (S j) count' (exchange i j a)
  end.

Fixpoint outerLoop (i count : nat) (a : list Block.t) : list Block.t :=
  match count with
  | O => a
  | S count' => outerLoop (S i) count' (innerLoop i (S i) (length a - S i) a)
  end.

Definition sortByHeight (a : list Block.t) : list Block.t :=
  outerLoop 0 (length a - 1) a.

(** The conversion loop: [prev] is [tmBlocks[i-1]] when [i > 0]. *)
Fixpoint toBlockInfos (prev : option Block.t) (bs : list Block.t)
  : list (BlockInfo.t T) :=
  match bs with
  | [] => []
  | b :: bs' =>
      BlockInfo.mk (Block.Height b) (Block.Time b) (Block.LastBlockIDHash b)
        (Block.ProposerAddress b) (Z.of_nat (length (Block.Txs b)))
        (match prev with
         | Some p => durationSeconds (timeSub (Block.Time b) (Block.Time p))
         | None => f_lit 0
         end)
      :: toBlockInfos (Some b) bs'
  end.

(** The heights [startHeight, ..., endHeight] of the launch loop.  The
    range is one whose result slice and channel the runtime can allocate,
    with [endHeight] below the largest [int64], so that the loop counter
    does not wrap. *)
Definition heights (startHeight endHeight : Z) : list Z :=
  map (fun i => startHeight + Z.of_nat i) (seq 0 (Z.to_nat (endHeight - startHeight + 1))).

Definition GetBlockRange_cosmos (startHeight endHeight : Z)
  : Call Node (list (BlockInfo.t T)) := fun n =>
  if endHeight <? startHeight then (Err (InvalidRange startHeight endHeight), n)
  else
    match launchAll (heights startHeight endHeight) n
            {| inflight := []; blockChan := []; errChan := None |} with
    | (None, n1) => (Err Cancelled, n1)
    | (Some st, n1) =>
        let '(st', t') := drain (length (inflight st)) n1 st (tick n1) in
        match errChan st' with
        | Some e => (Err e, with_tick n1 t')
        | None => (Ok (toBlockInfos None (sortByHeight (blockChan st'))), with_tick n1 t')
        end
    end.

Definition CosmosSDKClient : BlockchainClient Node T := {|
  GetLatestBlockHeight := GetLatestBlockHeight_cosmos;
  GetBlockByHeight := GetBlockByHeight_cosmos;
  GetBlockRange := GetBlockRange_cosmos
|}.

End Client.

(** ** [internal/calculator/calculator.go]: the calculator *)

Record BlockTimeCalculator (E T : Type) : Type := {
  calc_client : BlockchainClient E T;
  calc_config : CalculatorConfig.t T
}.
Arguments calc_client {E T} _.
Arguments calc_config {E T} _.

Section Calculator.

Context {E T : Type} `{F : Float64 T}.

Definition NewBlockTimeCalculator (client : BlockchainClient E T)
    (config : option (CalculatorConfig.t T)) : BlockTimeCalculator E T :=
  let config := default DefaultConfig config in
  let sampleSize :=
    if CalculatorConfig.SampleSize config <=? 0 then 100
    else CalculatorConfig.SampleSize config in
  let minSampleSize :=
    if CalculatorConfig.MinSampleSize config <=? 0 then 30
    else CalculatorConfig.MinSampleSize config in
  let outlierThreshold :=
    if f_leb (CalculatorConfig.OutlierThreshold config) (f_lit 0) then f_lit 1.5
    else CalculatorConfig.OutlierThreshold config in
  let confidenceLevel :=
    if f_leb (CalculatorConfig.ConfidenceLevel config) (f_lit 0)
       || f_leb (f_lit 1) (CalculatorConfig.ConfidenceLevel config)
    then f_lit 0.95 else CalculatorConfig.ConfidenceLevel config in
  let trimPercent :=
    if f_ltb (CalculatorConfig.TrimPercent config) (f_lit 0)
       || f_leb (f_lit 0.5) (CalculatorConfig.TrimPercent config)
    then f_lit 0.05 else CalculatorConfig.TrimPercent config in
  {| calc_client := client;
     calc_config := CalculatorConfig.mk sampleSize outlierThreshold confidenceLevel
                      minSampleSize trimPercent
                      (CalculatorConfig.UseMedianAbsolute config) |}.

(** The loop [for i := 1; i < len(blocks); i++] that collects the positive
    time differences; [prev] is [blocks[i-1]]. *)
Fixpoint collectBlockTimes (prev : BlockInfo.t T) (rest : list (BlockInfo.t T))
    (blockTimes : Slice) : M E T Slice :=
  match rest with
  | [] => mret blockTimes
  | b :: rest' =>
      let timeDiff := durationSeconds (timeSub (BlockInfo.Time b) (BlockInfo.Time prev)) in
      blockTimes' ← (if f_ltb (f_lit 0) timeDiff then append blockTimes timeDiff
                     else mret blockTimes);
      collectBlockTimes b rest' blockTimes'
  end.

(** [blocks[i]] *)
Definition blockAt (blocks : list (BlockInfo.t T)) (i : Z) : M E T (BlockInfo.t T) :=
  if i <? 0 then panic "index out of range"
  else match blocks !! Z.to_nat i with
       | Some b => mret b
       | None => panic "index out of range"
       end.

Definition CalculateStatsForRange (c : BlockTimeCalculator E T)
    (startHeight endHeight : Z) : M E T (BlockTimeStats.t T) :=
  let config := calc_config c in
  if endHeight <? startHeight then raise (InvalidRange startHeight endHeight)
  else
    let sampleSize := wrap64 (endHeight - startHeight + 1) in
    if sampleSize <? CalculatorConfig.MinSampleSize config then
      raise (InsufficientSampleSize sampleSize (CalculatorConfig.MinSampleSize config))
    else
      blocks ← wrapErr "failed to get block range"
                 (liftCall (GetBlockRange (calc_client c) startHeight endHeight));
      blockTimes ← make 0 (Z.of_nat (length blocks) - 1);
      blockTimes ← match blocks with
                   | [] => mret blockTimes
                   | b :: rest => collectBlockTimes b rest blockTimes
                   end;
      if len blockTimes <? CalculatorConfig.MinSampleSize config then
        raise (InsufficientValidTimes (len blockTimes)
                 (CalculatorConfig.MinSampleSize config))
      else
        '(cleanedTimes, outlierCount) ← removeOutliers config blockTimes;
        stats ← calculateStatistics cleanedTimes;
        first ← blockAt blocks 0;
        last ← blockAt blocks (Z.of_nat (length blocks) - 1);
        let stats :=
          BlockTimeStats.mk (len blockTimes) startHeight endHeight
            (BlockInfo.Time first) (BlockInfo.Time last)
            (BlockTimeStats.Mean stats) (BlockTimeStats.Median stats)
            (BlockTimeStats.StdDev stats) (BlockTimeStats.Min stats)
            (BlockTimeStats.Max stats) (BlockTimeStats.P25 stats)
            (BlockTimeStats.P75 stats) (BlockTimeStats.P95 stats)
            (BlockTimeStats.P99 stats) outlierCount
            (BlockTimeStats.EstimatedRange stats)
            (CalculatorConfig.ConfidenceLevel config) in
        mret (BlockTimeStats.mk
                (BlockTimeStats.SampleSize stats) (BlockTimeStats.StartHeight stats)
                (BlockTimeStats.EndHeight stats) (BlockTimeStats.StartTime stats)
                (BlockTimeStats.EndTime stats) (BlockTimeStats.Mean stats)
                (BlockTimeStats.Median stats) (BlockTimeStats.StdDev stats)
                (BlockTimeStats.Min stats) (BlockTimeStats.Max stats)
                (BlockTimeStats.P25 stats) (BlockTimeStats.P75 stats)
                (BlockTimeStats.P95 stats) (BlockTimeStats.P99 stats)
                (BlockTimeStats.OutlierCount stats)
                (calculateRange config cleanedTimes stats)
                (BlockTimeStats.ConfidenceLevel stats)).

Definition CalculateStats (c : BlockTimeCalculator E T) : M E T (BlockTimeStats.t T) :=
  latestHeight ← wrapErr "failed to get latest height"
                   (liftCall (GetLatestBlockHeight (calc_client c)));
  let startHeight :=
    wrap64 (latestHeight - CalculatorConfig.SampleSize (calc_config c) + 1) in
  let startHeight := if startHeight <? 1 then 1 else startHeight in
  CalculateStatsForRange c startHeight latestHeight.

End Calculator.

(** ** [internal/calculator/predictor.go] *)

Module BlockMilestone.
Record t : Type := mk {
  Height : Z;
  BlocksFromNow : Z;
  EstimatedTime : Z;
  Duration : Z
}.
End BlockMilestone.

Module MultiBlockPrediction.
Record t (T : Type) : Type := mk {
  CurrentHeight : Z;
  CurrentTime : Z;
  CurrentBlockAge : Z;
  Predictions : list BlockMilestone.t;
  Stats : BlockTimeStats.t T           (* the field BlockTimeStats *)
}.
Arguments mk {T}.
Arguments CurrentHeight {T} _.
Arguments CurrentTime {T} _.
Arguments CurrentBlockAge {T} _.
Arguments Predictions {T} _.
Arguments Stats {T} _.
End MultiBlockPrediction.

Record BlockPredictor (E T : Type) : Type := {
  pred_client : BlockchainClient E T;
  pred_calculator : BlockTimeCalculator E T;
  timeNow : E -> Z * E                    (* time.Now() *)
}.
Arguments pred_client {E T} _.
Arguments pred_calculator {E T} _.
Arguments timeNow {E T} _.

Section Predictor.

Context {E T : Type} `{F : Float64 T}.

(** [time.Duration(seconds * float64(time.Second))] *)
Definition durationOf (seconds : T) : Z :=
  f_toInt (f_mul seconds (f_ofInt 1000000000)).

(** The body of the loop of [PredictNextBlocks] at index [i]. *)
Definition milestone (currentHeight now : Z) (typical : T) (i : Z) : BlockMilestone.t :=
  let blocksAhead := wrap64 (i + 1) in
  let height := wrap64 (currentHeight + blocksAhead) in
  let typicalSeconds := f_mul (f_ofInt blocksAhead) typical in
  let estimatedTime := now + durationOf typicalSeconds in
  BlockMilestone.mk height blocksAhead estimatedTime (durationOf typicalSeconds).

Definition PredictNextBlocks (p : BlockPredictor E T) (count : Z)
  : M E T (MultiBlockPrediction.t T) :=
  if count <=? 0 then raise (InvalidArgument "count must be positive")
  else
    currentHeight ← wrapErr "failed to get current height"
                      (liftCall (GetLatestBlockHeight (pred_client p)));
    stats ← wrapErr "failed to calculate stats" (CalculateStats (pred_calculator p));
    currentBlock ← wrapErr "failed to get current block"
                     (liftCall (GetBlockByHeight (pred_client p) currentHeight));
    now ← liftCall (fun e => let '(t, e') := timeNow p e in (Ok t, e'));
    let blockAge := timeSub now (BlockInfo.Time currentBlock) in
    let predictions :=
      map (fun i => milestone currentHeight now
                      (Range.Typical (BlockTimeStats.EstimatedRange stats)) (Z.of_nat i))
          (seq 0 (Z.to_nat count)) in
    mret (MultiBlockPrediction.mk currentHeight now blockAge predictions stats).

End Predictor.

(** *** [PredictBlockTime] *)

Module DurationEstimate.
Record t : Type := mk {
  Typical : Z;
  Min : Z;
  Max : Z
}.
End DurationEstimate.

Module BlockPrediction.
Record t (T : Type) : Type := mk {
  TargetHeight : Z;
  CurrentHeight : Z;
  BlocksLeft : Z;
  CurrentTime : Z;
  CurrentBlockAge : Z;
  EstimatedTime : Z;
  OptimisticTime : Z;
  PessimisticTime : Z;
  Duration : DurationEstimate.t;
  Stats : option (BlockTimeStats.t T);   (* the field BlockTimeStats, nil or not *)
  ConfidenceLevel : T;
  IsComplete : bool;
  ActualTime : option Z
}.
Arguments mk {T}.
Arguments TargetHeight {T} _.
Arguments CurrentHeight {T} _.
Arguments BlocksLeft {T} _.
Arguments CurrentTime {T} _.
Arguments CurrentBlockAge {T} _.
Arguments EstimatedTime {T} _.
Arguments OptimisticTime {T} _.
Arguments PessimisticTime {T} _.
Arguments Duration {T} _.
Arguments Stats {T} _.
Arguments ConfidenceLevel {T} _.
Arguments IsComplete {T} _.
Arguments ActualTime {T} _.
End BlockPrediction.

(** The zero value [time.Time{}], January 1 of year 1, on the timeline of
    nanoseconds since the Unix epoch. *)
Definition zeroTime : Z := - 62135596800 * 1000000000.

Section TargetPredictor.

Context {E T : Type} `{F : Float64 T}.

(** [if err != nil { return nil, fmt.Errorf("failed to get block %d: %w", height, err) }] *)
Definition wrapBlockErr {A} (height : Z) (m : M E T A) : M E T A := fun w =>
  match m w with
  | (Err e, w') => (Err (BlockFailed height e), w')
  | r => r
  end.

Definition PredictBlockTime (p : BlockPredictor E T) (targetHeight : Z)
  : M E T (BlockPrediction.t T) :=
  currentHeight ← wrapErr "failed to get current height"
                    (liftCall (GetLatestBlockHeight (pred_client p)));
  if targetHeight <=? currentHeight then
    block ← wrapBlockErr targetHeight
              (liftCall (GetBlockByHeight (pred_client p) targetHeight));
    mret (BlockPrediction.mk targetHeight currentHeight 0 zeroTime 0
            zeroTime zeroTime zeroTime (DurationEstimate.mk 0 0 0)
            None (f_lit 0) true (Some (BlockInfo.Time block)))
  else
    stats ← wrapErr "failed to calculate block time stats"
              (CalculateStats (pred_calculator p));
    let blocksLeft := wrap64 (targetHeight - currentHeight) in
    currentBlock ← wrapErr "failed to get current block"
                     (liftCall (GetBlockByHeight (pred_client p) currentHeight));
    now ← liftCall (fun e => let '(t, e') := timeNow p e in (Ok t, e'));
    let blockAge := timeSub now (BlockInfo.Time currentBlock) in
    let range := BlockTimeStats.EstimatedRange stats in
    let typicalSeconds := f_mul (f_ofInt blocksLeft) (Range.Typical range) in
    let typicalTime := now + durationOf typicalSeconds in
    let optimisticSeconds := f_mul (f_ofInt blocksLeft) (Range.Lower range) in
    let optimisticTime := now + durationOf optimisticSeconds in
    let pessimisticSeconds := f_mul (f_ofInt blocksLeft) (Range.Upper range) in
    let pessimisticTime := now + durationOf pessimisticSeconds in
    let typicalDuration := durationOf typicalSeconds in
    let minDuration := durationOf optimisticSeconds in
    let maxDuration := durationOf pessimisticSeconds in
    mret (BlockPrediction.mk targetHeight currentHeight blocksLeft now blockAge
            typicalTime optimisticTime pessimisticTime
            (DurationEstimate.mk typicalDuration minDuration maxDuration)
            (Some stats) (BlockTimeStats.ConfidenceLevel stats) false None).

End TargetPredictor.

(** ** [pkg/types] and [internal/config/config.go]: the configuration *)

Module ChainConfig.
Record t : Type := mk {
  RPCEndpoint : string;
  GRPCEndpoint : string;
  ChainID : string;
  Timeout : Z;                 (* a [time.Duration], in nanoseconds *)
  MaxRetries : Z;
  RetryDelay : Z
}.
End ChainConfig.

Module OutputConfig.
Record t : Type := mk {
  Format : string;
  Verbose : bool;
  PrettyPrint : bool;
  SaveToFile : string
}.
End OutputConfig.

Module Config.
Record t (T : Type) : Type := mk {
  Chain : ChainConfig.t;
  Calculator : CalculatorConfig.t T;
  Output : OutputConfig.t
}.
Arguments mk {T}.
Arguments Chain {T} _.
Arguments Calculator {T} _.
Arguments Output {T} _.
End Config.

(** [time.Second] *)
Definition Second : Z := 1000000000.

Module config.

Section Configuration.

Context {T : Type} `{F : Float64 T}.

Definition DefaultConfig : Config.t T :=
  Config.mk
    (ChainConfig.mk "http://localhost:26657" "localhost:9090" "cosmoshub-4"
       (30 * Second) 3 Second)
    (CalculatorConfig.mk 100 (f_lit 1.5) (f_lit 0.95) 30 (f_lit 0.05) true)
    (OutputConfig.mk "text" false true "").

Definition validFormats : gmap string bool :=
  {[ "json" := true; "text" := true; "table" := true ]}.

(** [ValidateConfig]: [None] is a nil error. *)
Definition ValidateConfig (cfg : Config.t T) : option Error :=
  let chain := Config.Chain cfg in
  let calc := Config.Calculator cfg in
  if ChainConfig.Timeout chain <=? 0 then
    Some (InvalidArgument "timeout must be positive")
  else if ChainConfig.MaxRetries chain <? 0 then
    Some (InvalidArgument "max retries must be non-negative")
  else if ChainConfig.RetryDelay chain <? 0 then
    Some (InvalidArgument "retry delay must be non-negative")
  else if CalculatorConfig.SampleSize calc <=? 0 then
    Some (InvalidArgument "sample size must be positive")
  else if CalculatorConfig.MinSampleSize calc <=? 0 then
    Some (InvalidArgument "min sample size must be positive")
  else if CalculatorConfig.SampleSize calc <? CalculatorConfig.MinSampleSize calc then
    Some (InvalidArgument "min sample size cannot be greater than sample size")
  else if f_leb (CalculatorConfig.OutlierThreshold calc) (f_lit 0) then
    Some (InvalidArgument "outlier threshold must be positive")
  else if f_leb (CalculatorConfig.ConfidenceLevel calc) (f_lit 0)
          || f_leb (f_lit 1) (CalculatorConfig.ConfidenceLevel calc) then
    Some (InvalidArgument "confidence level must be between 0 and 1")
  else if f_ltb (CalculatorConfig.TrimPercent calc) (f_lit 0)
          || f_leb (f_lit 0.5) (CalculatorConfig.TrimPercent calc) then
    Some (InvalidArgument "trim percent must be between 0 and 0.5")
  else if negb (default false (validFormats !! OutputConfig.Format (Config.Output cfg))) then
    Some (InvalidArgument
            ("invalid output format: " ++ OutputConfig.Format (Config.Output cfg)
             ++ " (must be json, text, or table)"))
  else None.

End Configuration.

End config.

(** ** Notions used to state the properties *)

(** The median as the specification words it: the middle element of a
    sequence of odd length, the mean of the two middle elements of one of
    even length. *)
Definition standardMedian (s : list Q) : Q :=
  let n := length s in
  if Nat.odd n then nth (n / 2) s 0%Q
  else ((nth (n / 2 - 1) s 0 + nth (n / 2) s 0) / 2)%Q.

Definition ascending (s : list Q) : Prop :=
  forall i j, (i <= j < length s)%nat -> (nth i s 0 <= nth j s 0)%Q.

(** Linear interpolation between the order statistics [l] and [l+1]. *)
Definition lerp (s : list Q) (l : nat) (w : Q) : Q :=
  (nth l s 0 * (1 - w) + nth (S l) s 0 * w)%Q.

(** The value at the continuous rank [x]: interpolation between the
    order statistics around it. *)
Definition rank_value (s : list Q) (x : Q) : Q :=
  lerp s (Z.to_nat (Qfloor x)) (x - inject_Z (Qfloor x)).

(** Every element before position [i] is at most every element after it. *)
Definition settled (i : nat) (a : list Block.t) : Prop :=
  forall p q x y, (p < i)%nat -> (p < q)%nat ->
    a !! p = Some x -> a !! q = Some y -> Block.Height x <= Block.Height y.

(** Position [i] holds at most what the positions from [i+1] to [j-1] hold. *)
Definition least_upto (i j : nat) (a : list Block.t) : Prop :=
  forall k x y, (i < k < j)%nat ->
    a !! i = Some x -> a !! k = Some y -> Block.Height x <= Block.Height y.

(** Of the heights [hs] launched so far, each whose request fails is still
    running or has left an error in the error channel. *)
Definition reported (n : Node) (hs : list Z) (st : Fetch) : Prop :=
  forall h msg, h ∈ hs -> block n h = RpcError msg ->
    h ∈ inflight st \/ errChan st <> None.

(** The node a state of the launch loop runs on answers as [n] does. *)
Definition same_node (n n' : Node) : Prop :=
  block n' = block n /\ ctxDone n' = ctxDone n /\ sched n' = sched n
  /\ status n' = status n.

(** The block a request for height [h] delivers, if it delivers one. *)
Definition blockOf (n : Node) (h : Z) : option Block.t :=
  match block n h with
  | RpcBlock b => Some b
  | _ => None
  end.

(** Every running task is that of a launched height. *)
Definition running_launched (launched : list Z) (st : Fetch) : Prop :=
  forall h, h ∈ inflight st -> h ∈ launched.

(** The error in the error channel, if there is one, is that of a launched
    height whose request failed. *)
Definition error_named (n : Node) (launched : list Z) (st : Fetch) : Prop :=
  forall e, errChan st = Some e ->
    exists h msg, h ∈ launched /\ block n h = RpcError msg
                  /\ e = BlockFailed h (Upstream msg).

(** The blocks sent so far and those the running tasks will send are the
    blocks of the launched heights. *)
Definition delivering (n : Node) (launched : list Z) (st : Fetch) : Prop :=
  Permutation (blockChan st ++ omap (blockOf n) (inflight st))
              (omap (blockOf n) launched).

Section FrameNotions.

Context {E T : Type} `{F : Float64 T}.

(** [safe h0 P m]: run from any heap that extends [h0], [m] leaves [h0]
    and the environment as they were, whatever its outcome, and a value
    it returns satisfies [P]. *)
Definition safe {A} (h0 : list (list T)) (P : A -> Prop) (m : M E T A) : Prop :=
  forall w, h0 `prefix_of` heap w ->
    h0 `prefix_of` heap (snd (m w)) /\ env (snd (m w)) = env w
    /\ forall a, fst (m w) = Ok a -> P a.

(** A slice whose backing array was allocated after [h0]. *)
Definition fresh (h0 : list (list T)) (s : Slice) : Prop := (length h0 <= s_ptr s)%nat.

(** A slice that may be appended to: fresh, or with no capacity. *)
Definition owned (h0 : list (list T)) (s : Slice) : Prop :=
  fresh h0 s \/ (s_len s = 0%nat /\ s_cap s = 0%nat).

(** The statistics as a function of the elements of the slice. *)
Definition summaryOf (xs : list T) : BlockTimeStats.t T :=
  let sv := sortedFloat64s xs in
  let n := Z.of_nat (length xs) in
  let mean := f_div (fold_left f_add xs (f_lit 0)) (f_ofInt n) in
  let ssd := fold_left (fun acc v => f_add acc (f_mul (f_sub v mean) (f_sub v mean)))
               xs (f_lit 0) in
  BlockTimeStats.mk 0 0 0 0 0 mean (percentile sv (f_lit 0.5))
    (f_sqrt (f_div ssd (f_ofInt n))) (at_index sv 0) (at_index sv (n - 1))
    (percentile sv (f_lit 0.25)) (percentile sv (f_lit 0.75))
    (percentile sv (f_lit 0.95)) (percentile sv (f_lit 0.99)) 0 zeroRange (f_lit 0).

(** The fences of the IQR method for a sorted series. *)
Definition iqrFences (c : CalculatorConfig.t T) (sv : list T) : T * T :=
  let q1 := percentile sv (f_lit 0.25) in
  let q3 := percentile sv (f_lit 0.75) in
  let iqr := f_sub q3 q1 in
  (f_sub q1 (f_mul (CalculatorConfig.OutlierThreshold c) iqr),
   f_add q3 (f_mul (CalculatorConfig.OutlierThreshold c) iqr)).

Definition withinFences (c : CalculatorConfig.t T) (sv : list T) (v : T) : bool :=
  f_leb (fst (iqrFences c sv)) v && f_leb v (snd (iqrFences c sv)).

(** The median of a sorted series and the median of the sorted absolute
    deviations from it. *)
Definition medianOf (sv : list T) : T := percentile sv (f_lit 0.5).

Definition madOf (sv : list T) : T :=
  percentile (sortedFloat64s (map (fun v => f_abs (f_sub v (medianOf sv))) sv)) (f_lit 0.5).

Definition withinScore (sv : list T) (v : T) : bool :=
  f_leb (f_abs (modifiedZScore v (medianOf sv) (madOf sv))) (f_lit 3.5).

(** What outlier removal returns, as a function of the elements of its
    input: the elements of the cleaned slice and the outlier count, or
    nothing when the slice expression of the trimming is out of bounds. *)
Definition cleanedOf (c : CalculatorConfig.t T) (xs : list T) : option (list T * Z) :=
  let n := Z.of_nat (length xs) in
  let sv := sortedFloat64s xs in
  let byIQR := List.filter (withinFences c sv) sv in
  if n <=? 3 then Some (xs, 0)
  else if negb (CalculatorConfig.UseMedianAbsolute c) then
    Some (byIQR, n - Z.of_nat (length byIQR))
  else if f_eqb (madOf sv) (f_lit 0) then
    Some (byIQR, n - Z.of_nat (length byIQR))
  else
    let kept := List.filter (withinScore sv) xs in
    let k := Z.of_nat (length kept) in
    let trimCount := f_toInt (f_mul (f_ofInt k) (CalculatorConfig.TrimPercent c)) in
    if f_ltb (f_lit 0) (CalculatorConfig.TrimPercent c) && (10 <? k) && (0 <? trimCount) then
      if k - trimCount <? trimCount then None
      else Some (take (Z.to_nat (k - trimCount - trimCount))
                   (drop (Z.to_nat trimCount) (sortedFloat64s kept)),
                 n - k + trimCount * 2)
    else Some (kept, n - k).

(** A slice the calculator appends to: it starts at the head of its
    array and holds the elements [l]; when it has any capacity, its array
    was allocated after [h0]. *)
Definition holding (h0 : list (list T)) (w : World E T) (s : Slice) (l : list T) : Prop :=
  s_off s = 0%nat /\ slice_elems (heap w) s = l /\ length l = s_len s
  /\ (s_len s <= s_cap s)%nat
  /\ ((0 < s_cap s)%nat -> fresh h0 s /\ (s_ptr s < length (heap w))%nat).

(** The positive time differences between consecutive blocks: the valid
    deltas of a fetched range, [prev] being the block before [rest]. *)
Fixpoint positiveDeltas (prev : BlockInfo.t T) (rest : list (BlockInfo.t T)) : nat :=
  match rest with
  | [] => 0
  | b :: rest' =>
      (if f_ltb (f_lit 0) (durationSeconds (timeSub (BlockInfo.Time b) (BlockInfo.Time prev)))
       then 1 else 0) + positiveDeltas b rest'
  end%nat.

(** The positive time differences themselves, in the order of the blocks. *)
Fixpoint timeDeltas (prev : BlockInfo.t T) (rest : list (BlockInfo.t T)) : list T :=
  match rest with
  | [] => []
  | b :: rest' =>
      let timeDiff := durationSeconds (timeSub (BlockInfo.Time b) (BlockInfo.Time prev)) in
      (if f_ltb (f_lit 0) timeDiff then [timeDiff] else []) ++ timeDeltas b rest'
  end.

Definition validDeltas (blocks : list (BlockInfo.t T)) : Z :=
  match blocks with
  | [] => 0
  | b :: rest => Z.of_nat (positiveDeltas b rest)
  end.

End FrameNotions.

(** The number of steps of a sequence of timestamps, read after [prev], to
    a strictly later timestamp. *)
Fixpoint laterSteps (prev : Z) (times : list Z) : nat :=
  match times with
  | [] => 0%nat
  | t :: times' => ((if (prev <? t)%Z then 1 else 0) + laterSteps t times')%nat
  end.

(** ** Scenarios: concrete inputs used by the properties below *)

(** Scenario A: the deltas [5,5,6,6,6,7,7,100] in a slice of their own, the
    only array of the heap. *)
Definition scenarioA_deltas : list Z := [5; 5; 6; 6; 6; 7; 7; 100].

Definition scenarioA_times : Slice := {| s_ptr := 0; s_off := 0; s_len := 8; s_cap := 8 |}.

Definition scenarioA_world {T} `{Float64 T} : World () T :=
  {| env := (); heap := [map f_ofInt scenarioA_deltas] |}.

Definition scenarioA_clean {T} `{Float64 T} : Outcome (Slice * Z) * World () T :=
  removeOutliers DefaultConfig scenarioA_times scenarioA_world.

(** The backing arrays the run allocates, in order: [sorted] is the first
    after the input, [deviations] the second. *)
Definition scenarioA_sorted {T} `{Float64 T} : list T :=
  default [] (heap (snd scenarioA_clean) !! 1%nat).

Definition scenarioA_deviations {T} `{Float64 T} : list T :=
  default [] (heap (snd scenarioA_clean) !! 2%nat).

Definition scenarioA_median {T} `{Float64 T} : T := percentile scenarioA_sorted (f_lit 0.5).
Definition scenarioA_mad {T} `{Float64 T} : T := percentile scenarioA_deviations (f_lit 0.5).

(** The cleaned series and the outlier count. *)
Definition scenarioA_cleaned {T} `{Float64 T} : option (list T * Z) :=
  match scenarioA_clean with
  | (Ok (cleaned, outlierCount), w) => Some (slice_elems (heap w) cleaned, outlierCount)
  | _ => None
  end.

(** The summary of the cleaned series. *)
Definition scenarioA_summary {T} `{Float64 T} : option (BlockTimeStats.t T) :=
  match scenarioA_clean with
  | (Ok (cleaned, _), w) =>
      match calculateStatistics cleaned w with
      | (Ok stats, _) => Some stats
      | _ => None
      end
  | _ => None
  end.

(** A chain node: the blocks [1 .. n+1] follow each other by [deltas]
    seconds, requests for other heights fail as a node's do, the context is
    never done, and running tasks finish in an order of the scheduler's
    own, not the order of launch. *)
Fixpoint chainTimes (t : Z) (deltas : list Z) : list Z :=
  t :: match deltas with
       | [] => []
       | d :: deltas' => chainTimes (t + d * 1000000000) deltas'
       end.

Definition chainNode (deltas : list Z) : Node :=
  let times := chainTimes 0 deltas in
  {| status := inr (Z.of_nat (length times));
     block := fun h =>
       if h <? 1 then RpcError "height must be greater than 0"
       else match times !! Z.to_nat (h - 1) with
            | Some t => RpcBlock (Block.mk h t "" "" [])
            | None => RpcError "height must be less than or equal to the current blockchain height"
            end;
     ctxDone := fun _ => false;
     sched := fun t => ((3 * t + 1) mod 4)%nat;
     tick := 0%nat;
     calls := [] |}.

(** The same chain, with the block at height [hole] gone from the node's
    store: the request for it gives no error and no block. *)
Definition holedNode (deltas : list Z) (hole : Z) : Node :=
  let n := chainNode deltas in
  {| status := status n;
     block := fun h => if h =? hole then RpcNoBlock else block n h;
     ctxDone := ctxDone n; sched := sched n; tick := tick n; calls := calls n |}.

Definition chainWorld {T} (deltas : list Z) : World Node T :=
  {| env := chainNode deltas; heap := [] |}.

(** The default configuration with its sample sizes and confidence level
    replaced. *)
Definition configWith {T} `{Float64 T} (sampleSize minSampleSize : Z) (confidenceLevel : Q)
  : CalculatorConfig.t T :=
  CalculatorConfig.mk sampleSize (f_lit 1.5) (f_lit confidenceLevel) minSampleSize
    (f_lit 0.05) true.

Definition cosmosCalculator {T} `{Float64 T} (sampleSize minSampleSize : Z)
    (confidenceLevel : Q) : BlockTimeCalculator Node T :=
  NewBlockTimeCalculator CosmosSDKClient
    (Some (configWith sampleSize minSampleSize confidenceLevel)).

(** A skewed series: six deltas of 5 seconds, then 6, 7, 8 and 9, summarized
    at confidence level 0.5 with a minimum of ten samples. *)
Definition skewed_deltas : list Z := [5; 5; 5; 5; 5; 5; 6; 7; 8; 9].


(** A burst: three deltas of one second and one of a hundred, with a minimum
    of four samples. *)
Definition burst_deltas : list Z := [1; 1; 1; 100].

Definition burst_stats {T} `{Float64 T} : Outcome (BlockTimeStats.t T) :=
  fst (CalculateStatsForRange (cosmosCalculator 5 4 0.95) 1 5 (chainWorld burst_deltas)).

(** Scenario C: a chain of a hundred blocks six seconds apart, a predictor
    that samples the last ten, and a clock that reads [steady_now]. *)
Definition steady_now : Z := 1700000000000000000.

Definition steadyPredictor {T} `{Float64 T} : BlockPredictor Node T :=
  {| pred_client := CosmosSDKClient;
     pred_calculator := cosmosCalculator 10 5 0.95;
     timeNow := fun e => (steady_now, e) |}.

(** The deltas of the burst in a slice of their own, cleaned as the
    calculator cleans them. *)
Definition burst_cleaned {T} `{Float64 T} : option (list T * Z) :=
  match removeOutliers (configWith 5 4 0.95)
          {| s_ptr := 0; s_off := 0; s_len := 4; s_cap := 4 |}
          {| env := (); heap := [map f_ofInt burst_deltas] |} with
  | (Ok (cleaned, outlierCount), w) => Some (slice_elems (heap w) cleaned, outlierCount)
  | _ => None
  end.

(** A chain with duplicate timestamps: of its five deltas two are positive. *)
Definition stalled_deltas : list Z := [1; 0; 0; 0; 1].

(** Exact arithmetic for concrete runs; the square root, which no property
    reads, is left as the identity. *)
Definition exactly : Float64 Q := Exact (fun q => q).

(** Four deltas in a slice of their own, in exact arithmetic. *)
Definition quartet_times : Slice := {| s_ptr := 0; s_off := 0; s_len := 4; s_cap := 4 |}.

Definition quartet_world : World () Q := {| env := (); heap := [[5; 6; 7; 9]%Q] |}.


(** The four deltas again, in a second array of another world. *)
Definition shifted_times : Slice := {| s_ptr := 1; s_off := 0; s_len := 4; s_cap := 4 |}.

Definition shifted_world : World () Q := {| env := (); heap := [[0]; [5; 6; 7; 9]]%Q |}.

(** A series of five equal deltas, and the default settings with the IQR
    method selected. *)
Definition constant_times : Slice := {| s_ptr := 0; s_off := 0; s_len := 5; s_cap := 5 |}.

Definition constant_world : World () Q := {| env := (); heap := [[6; 6; 6; 6; 6]%Q] |}.

Definition iqrConfig : CalculatorConfig.t Q :=
  CalculatorConfig.mk 100 1.5%Q 0.95%Q 30 0.05%Q false.

(** * Properties *)

(** Closed goals are settled by running the code. *)
Ltac by_evaluation := vm_compute; reflexivity.

(** ** Scenario A *)

(** C4, as the specification states it, fails: on the deltas
    [5,5,6,6,6,7,7,100] the MAD the code computes is not 0.5, the modified
    z-score of 100 is not 0.6745*94/0.5, and the mean of the cleaned series
    is not 40/7, in binary64 as in exact arithmetic. *)
Lemma scenarioA_stated_values_fail :
  (f_eqb (scenarioA_mad (T:=float)) (f_lit 0.5) = false
   /\ f_eqb (modifiedZScore (f_ofInt 100) scenarioA_median (scenarioA_mad (T:=float)))
            (f_div (f_mul (f_lit 0.6745) (f_ofInt 94)) (f_lit 0.5)) = false
   /\ exists stats, scenarioA_summary (T:=float) = Some stats
        /\ f_eqb (BlockTimeStats.Mean stats) (f_lit (40 # 7)) = false)
  /\ forall rt,
     (~ @scenarioA_mad Q (Exact rt) == 0.5
      /\ ~ @modifiedZScore Q (Exact rt) 100 (@scenarioA_median Q (Exact rt))
             (@scenarioA_mad Q (Exact rt)) == 0.6745 * 94 / 0.5
      /\ exists stats, @scenarioA_summary Q (Exact rt) = Some stats
           /\ ~ BlockTimeStats.Mean stats == 40 # 7)%Q.
Proof.
  split.
  - do 2 (split; [by_evaluation|]). eexists. split; by_evaluation.
  - intros rt.
    do 2 (split; [intros Heq; vm_compute in Heq; discriminate|]).
    eexists. split; [by_evaluation|]. intros Heq. vm_compute in Heq. discriminate.
Qed.

(** C4, amended: on the deltas [5,5,6,6,6,7,7,100] with the default (MAD)
    configuration the median is 6 and the MAD is 1, the modified z-score
    of 100 is 0.6745*94/1 (about 63.4, above 3.5), the cleaned series is
    [5,5,6,6,6,7,7] with one outlier, and its summary has median 6 and
    mean 6; in binary64 and in exact arithmetic alike. *)
Theorem scenarioA_outlier_removal :
  (scenarioA_median (T:=float) = 6%float
   /\ scenarioA_mad (T:=float) = 1%float
   /\ modifiedZScore (f_ofInt 100) scenarioA_median scenarioA_mad
      = f_div (f_mul (f_lit 0.6745) (f_ofInt 94)) (f_ofInt 1)
   /\ f_ltb (f_lit 63.4) (modifiedZScore (f_ofInt 100) scenarioA_median scenarioA_mad) = true
   /\ f_ltb (modifiedZScore (f_ofInt 100) scenarioA_median scenarioA_mad) (f_lit 63.41) = true
   /\ scenarioA_cleaned (T:=float) = Some (map f_ofInt [5; 5; 6; 6; 6; 7; 7], 1)
   /\ exists stats, scenarioA_summary (T:=float) = Some stats
        /\ BlockTimeStats.Median stats = 6%float
        /\ BlockTimeStats.Mean stats = 6%float)
  /\ forall rt,
     (@scenarioA_median Q (Exact rt) == 6
      /\ @scenarioA_mad Q (Exact rt) == 1
      /\ @modifiedZScore Q (Exact rt) 100 6 1 == 0.6745 * 94 / 1
      /\ @scenarioA_cleaned Q (Exact rt) = Some (map inject_Z [5; 5; 6; 6; 6; 7; 7]%Z, 1%Z)
      /\ exists stats, @scenarioA_summary Q (Exact rt) = Some stats
           /\ BlockTimeStats.Median stats == 6
           /\ BlockTimeStats.Mean stats == 6)%Q.
Proof.
  split.
  - do 6 (split; [by_evaluation|]).
    eexists. split; [by_evaluation|]. split; by_evaluation.
  - intros rt. do 4 (split; [by_evaluation|]).
    eexists. split; [by_evaluation|]. split; by_evaluation.
Qed.

(** ** The heap: what a call may touch, and what a run computes *)

Section Frame.

Context {E T : Type} `{F : Float64 T}.

Lemma bind_run {A B} (m : M E T A) (f : A -> M E T B) (w : World E T) :
  (m ≫= f) w = match m w with
               | (Ok a, w') => f a w'
               | (Err e, w') => (Err e, w')
               | (Panic msg, w') => (Panic msg, w')
               end.
Proof. reflexivity. Qed.

Lemma safe_ret {A} h0 (P : A -> Prop) (a : A) : P a -> safe (E:=E) (T:=T) h0 P (mret a).
Proof. intros Ha w Hw. cbn. repeat split; [exact Hw|]. intros a' [= <-]. exact Ha. Qed.

Lemma safe_bind {A B} h0 (P : A -> Prop) (Q : B -> Prop) (m : M E T A) (f : A -> M E T B) :
  safe (E:=E) (T:=T) h0 P m -> (forall a, P a -> safe (E:=E) (T:=T) h0 Q (f a)) -> safe (E:=E) (T:=T) h0 Q (m ≫= f).
Proof.
  intros Hm Hf w Hw. rewrite bind_run.
  destruct (Hm w Hw) as (H1 & H2 & H3).
  destruct (m w) as [[a|e|msg] w']; cbn in *.
  - destruct (Hf a (H3 a eq_refl) w' H1) as (H4 & H5 & H6).
    repeat split; [exact H4|congruence|exact H6].
  - repeat split; [exact H1|exact H2|discriminate].
  - repeat split; [exact H1|exact H2|discriminate].
Qed.

Lemma safe_weaken {A} h0 (P Q : A -> Prop) (m : M E T A) :
  safe (E:=E) (T:=T) h0 P m -> (forall a, P a -> Q a) -> safe (E:=E) (T:=T) h0 Q m.
Proof.
  intros Hm HPQ w Hw. destruct (Hm w Hw) as (H1 & H2 & H3).
  repeat split; [exact H1|exact H2|]. intros a Ha. apply HPQ, H3, Ha.
Qed.

Lemma safe_panic {A} h0 (P : A -> Prop) msg : safe (E:=E) (T:=T) h0 P (panic msg).
Proof. intros w Hw. cbn. repeat split; [exact Hw|discriminate]. Qed.

Lemma prefix_store h0 (h : list (list T)) (s : Slice) (i : nat) (xs : list T) :
  fresh h0 s -> h0 `prefix_of` h -> h0 `prefix_of` store_at h s i xs.
Proof.
  intros Hs [k ->]. unfold store_at, fresh in *.
  rewrite insert_app_r_alt by lia. eexists. reflexivity.
Qed.

Lemma safe_elems h0 (s : Slice) : safe (E:=E) (T:=T) h0 (fun _ => True) (elems s).
Proof. intros w Hw. cbn. repeat split. exact Hw. Qed.

Lemma safe_index h0 (s : Slice) (i : nat) : safe (E:=E) (T:=T) h0 (fun _ => True) (index s i).
Proof.
  intros w Hw. unfold index. destruct (slice_elems (heap w) s !! i); cbn; repeat split; exact Hw.
Qed.

Lemma safe_make h0 (n c : Z) :
  safe (E:=E) (T:=T) h0 (fun s => fresh h0 s /\ s_len s = Z.to_nat n) (make n c).
Proof.
  intros w Hw. unfold make. destruct ((n <? 0) || (c <? n)); cbn.
  - repeat split; [exact Hw|discriminate|discriminate].
  - split; [apply prefix_app_r; exact Hw|]. split; [reflexivity|].
    intros a [= <-]. cbn. split; [|reflexivity].
    unfold fresh. cbn. apply prefix_length. exact Hw.
Qed.

Lemma safe_copy h0 (dst src : Slice) :
  fresh h0 dst -> safe (E:=E) (T:=T) h0 (fun _ => True) (copy dst src).
Proof.
  intros Hd w Hw. cbn. repeat split. apply prefix_store; assumption.
Qed.

Lemma safe_sort h0 (s : Slice) : fresh h0 s -> safe (E:=E) (T:=T) h0 (fun _ => True) (sortFloat64s s).
Proof.
  intros Hs w Hw. cbn. repeat split. apply prefix_store; assumption.
Qed.

Lemma safe_setIndex h0 (s : Slice) (i : nat) (v : T) :
  fresh h0 s -> safe (E:=E) (T:=T) h0 (fun _ => True) (setIndex s i v).
Proof.
  intros Hs w Hw. unfold setIndex. destruct (i <? s_len s)%nat; cbn.
  - repeat split. apply prefix_store; assumption.
  - repeat split. exact Hw.
Qed.

Lemma safe_append h0 (s : Slice) (v : T) :
  owned h0 s -> safe (E:=E) (T:=T) h0 (fun s' => fresh h0 s' /\ s_len s' = S (s_len s)) (append s v).
Proof.
  intros Hs w Hw. unfold append.
  destruct (s_len s <? s_cap s)%nat eqn:Hroom; cbn.
  - apply Nat.ltb_lt in Hroom.
    assert (Hf : fresh h0 s) by (destruct Hs as [Hf|[_ Hc]]; [exact Hf|lia]).
    split; [apply prefix_store; assumption|]. split; [reflexivity|].
    intros a [= <-]. split; [exact Hf|reflexivity].
  - split; [apply prefix_app_r; exact Hw|]. split; [reflexivity|].
    intros a [= <-]. split; [|reflexivity].
    unfold fresh. cbn. apply prefix_length. exact Hw.
Qed.

Lemma safe_reslice h0 (s : Slice) (lo hi : Z) :
  fresh h0 s -> safe (E:=E) (T:=T) h0 (fresh h0) (reslice s lo hi).
Proof.
  intros Hs. unfold reslice.
  destruct ((lo <? 0) || (hi <? lo) || (Z.of_nat (s_cap s) <? hi)).
  - apply safe_panic.
  - apply safe_ret. exact Hs.
Qed.

Lemma safe_forRangeFrom {A} h0 (I : A -> Prop) (s : Slice)
    (body : nat -> T -> A -> M E T A) (n : nat) :
  (forall i v acc, I acc -> safe (E:=E) (T:=T) h0 I (body i v acc)) ->
  forall i acc, I acc -> safe (E:=E) (T:=T) h0 I (forRangeFrom s body i n acc).
Proof.
  intros Hbody. induction n as [|n IH]; intros i acc Hacc; cbn [forRangeFrom].
  - apply safe_ret. exact Hacc.
  - eapply safe_bind; [apply safe_index|]. intros v _.
    eapply safe_bind; [apply Hbody; exact Hacc|]. intros acc' Hacc'.
    apply IH. exact Hacc'.
Qed.

Lemma safe_forRange {A} h0 (I : A -> Prop) (s : Slice)
    (body : nat -> T -> A -> M E T A) (acc : A) :
  (forall i v acc, I acc -> safe (E:=E) (T:=T) h0 I (body i v acc)) -> I acc ->
  safe (E:=E) (T:=T) h0 I (forRange s body acc).
Proof. intros Hbody Hacc. apply safe_forRangeFrom; assumption. Qed.

Lemma safe_removeOutliersIQR h0 (c : CalculatorConfig.t T) (sorted : Slice) :
  safe (E:=E) (T:=T) h0 (fun r => owned h0 (fst r)) (removeOutliersIQR c sorted).
Proof.
  unfold removeOutliersIQR.
  eapply safe_bind; [apply safe_elems|]. intros sv _.
  eapply safe_bind; [apply safe_make|]. intros cleaned [Hc _].
  apply safe_forRange; [|left; exact Hc].
  intros i v [cl oc] Hcl. cbn [fst] in *.
  destruct (_ && _).
  - eapply safe_bind; [apply safe_append; exact Hcl|]. intros cl' [Hcl' _].
    apply safe_ret. left. exact Hcl'.
  - apply safe_ret. exact Hcl.
Qed.

Lemma safe_removeOutliers h0 (c : CalculatorConfig.t T) (times : Slice) :
  safe (E:=E) (T:=T) h0 (fun _ => True) (removeOutliers c times).
Proof.
  unfold removeOutliers.
  destruct (len times <=? 3); [apply safe_ret; exact I|].
  eapply safe_bind; [apply safe_make|]. intros sorted [Hsorted _].
  eapply safe_bind; [apply safe_copy; exact Hsorted|]. intros _ _.
  eapply safe_bind; [apply safe_sort; exact Hsorted|]. intros _ _.
  destruct (CalculatorConfig.UseMedianAbsolute c);
    [|eapply safe_weaken; [apply safe_removeOutliersIQR|auto]].
  eapply safe_bind; [apply safe_elems|]. intros sv _.
  eapply safe_bind; [apply safe_make|]. intros deviations [Hdev _].
  eapply safe_bind.
  { apply (safe_forRange h0 (fun _ => True)); [|exact I].
    intros i v acc _. apply safe_setIndex. exact Hdev. }
  intros _ _.
  eapply safe_bind; [apply safe_sort; exact Hdev|]. intros _ _.
  eapply safe_bind; [apply safe_elems|]. intros dv _.
  destruct (f_eqb _ _); [eapply safe_weaken; [apply safe_removeOutliersIQR|auto]|].
  eapply safe_bind.
  { apply (safe_forRange h0 (fun r : Slice * Z => owned h0 (fst r)));
      [|right; split; reflexivity].
    intros i v [cl oc] Hcl. cbn [fst] in *.
    destruct (f_leb _ _).
    - eapply safe_bind; [apply safe_append; exact Hcl|]. intros cl' [Hcl' _].
      apply safe_ret. left. exact Hcl'.
    - apply safe_ret. exact Hcl. }
  intros [cleaned outlierCount] Hcl. cbn [fst] in Hcl.
  destruct (f_ltb _ _); cbn [andb]; [|apply safe_ret; exact I].
  destruct (10 <? len cleaned) eqn:Hlen; [|apply safe_ret; exact I].
  destruct (0 <? _); [|apply safe_ret; exact I].
  assert (Hfresh : fresh h0 cleaned).
  { destruct Hcl as [Hf|[Hl _]]; [exact Hf|].
    apply Z.ltb_lt in Hlen. unfold len in Hlen. lia. }
  eapply safe_bind; [apply safe_sort; exact Hfresh|]. intros _ _.
  eapply safe_bind; [apply safe_reslice; exact Hfresh|]. intros cleaned' _.
  apply safe_ret. exact I.
Qed.

Lemma safe_calculateStatistics h0 (times : Slice) :
  safe (E:=E) (T:=T) h0 (fun _ => True) (calculateStatistics times).
Proof.
  unfold calculateStatistics.
  destruct (len times =? 0); [apply safe_ret; exact I|].
  eapply safe_bind; [apply safe_make|]. intros sorted [Hsorted _].
  eapply safe_bind; [apply safe_copy; exact Hsorted|]. intros _ _.
  eapply safe_bind; [apply safe_sort; exact Hsorted|]. intros _ _.
  eapply safe_bind; [apply safe_elems|]. intros sv _.
  eapply safe_bind.
  { apply (safe_forRange h0 (fun _ => True)); [|exact I].
    intros i v acc _. apply safe_ret. exact I. }
  intros sum _.
  eapply safe_bind.
  { apply (safe_forRange h0 (fun _ => True)); [|exact I].
    intros i v acc _. apply safe_ret. exact I. }
  intros ssd _. apply safe_ret. exact I.
Qed.

Lemma slice_elems_prefix (h h' : list (list T)) (s : Slice) :
  h `prefix_of` h' -> (s_ptr s < length h)%nat -> slice_elems h' s = slice_elems h s.
Proof.
  intros [k ->] Hs. unfold slice_elems, array_of.
  rewrite lookup_app_l by exact Hs. reflexivity.
Qed.

Theorem input_slice_unchanged (c : CalculatorConfig.t T) (times : Slice) (w : World E T) :
  (s_ptr times < length (heap w))%nat ->
  let w1 := snd (removeOutliers c times w) in
  let w2 := snd (calculateStatistics times w) in
  (heap w `prefix_of` heap w1
   /\ slice_elems (heap w1) times = slice_elems (heap w) times)
  /\ (heap w `prefix_of` heap w2
      /\ slice_elems (heap w2) times = slice_elems (heap w) times).
Proof.
  intros Hvalid w1 w2.
  destruct (safe_removeOutliers (heap w) c times w (reflexivity _)) as (H1 & _ & _).
  destruct (safe_calculateStatistics (heap w) times w (reflexivity _)) as (H2 & _ & _).
  split; (split; [assumption|apply slice_elems_prefix; assumption]).
Qed.

End Frame.

(** ** Runs of [calculateStatistics] *)

Section Runs.

Context {E T : Type} `{F : Float64 T}.

Lemma insertFloat64_perm (x : T) (l : list T) : Permutation (insertFloat64 x l) (x :: l).
Proof.
  induction l as [|y l IH]; cbn; [reflexivity|].
  destruct (lessFloat64 x y); [reflexivity|].
  rewrite IH. apply perm_swap.
Qed.

Lemma sortedFloat64s_perm (l : list T) : Permutation (sortedFloat64s l) l.
Proof.
  induction l as [|x l IH]; cbn; [reflexivity|].
  rewrite insertFloat64_perm. constructor. exact IH.
Qed.

Lemma sortedFloat64s_length (l : list T) : length (sortedFloat64s l) = length l.
Proof. apply Permutation_length, sortedFloat64s_perm. Qed.

Lemma forRangeFrom_pure {A} (s : Slice) (g : A -> T -> A) (w : World E T) (n i : nat) (acc : A) :
  (i + n = length (slice_elems (heap w) s))%nat ->
  forRangeFrom s (fun _ v acc => mret (g acc v)) i n acc w
  = (Ok (fold_left g (drop i (slice_elems (heap w) s)) acc), w).
Proof.
  revert i acc. induction n as [|n IH]; intros i acc Hn; cbn [forRangeFrom].
  - rewrite drop_ge by lia. reflexivity.
  - rewrite bind_run. unfold index.
    destruct (slice_elems (heap w) s !! i) as [v|] eqn:Hv.
    + rewrite bind_run. cbn. rewrite IH by lia.
      rewrite (drop_S _ _ _ Hv). reflexivity.
    + apply lookup_ge_None in Hv. lia.
Qed.

Lemma forRange_pure {A} (s : Slice) (g : A -> T -> A) (w : World E T) (acc : A) :
  length (slice_elems (heap w) s) = s_len s ->
  forRange s (fun _ v acc => mret (g acc v)) acc w
  = (Ok (fold_left g (slice_elems (heap w) s) acc), w).
Proof.
  intros Hlen. unfold forRange. rewrite forRangeFrom_pure by (rewrite Hlen; lia).
  reflexivity.
Qed.

Lemma slice_elems_app (h : list (list T)) (a : list T) (s : Slice) :
  (s_ptr s < length h)%nat -> slice_elems (h ++ [a]) s = slice_elems h s.
Proof.
  intros Hs. unfold slice_elems, array_of. rewrite lookup_app_l by exact Hs. reflexivity.
Qed.

Lemma slice_valid (h : list (list T)) (s : Slice) :
  length (slice_elems h s) = s_len s -> (0 < s_len s)%nat -> (s_ptr s < length h)%nat.
Proof.
  intros Hlen Hpos. destruct (Nat.lt_ge_cases (s_ptr s) (length h)) as [Hlt|Hge]; [exact Hlt|].
  unfold slice_elems, array_of in Hlen. rewrite lookup_ge_None_2 in Hlen by exact Hge.
  cbn in Hlen. rewrite drop_nil, take_nil in Hlen. cbn in Hlen. lia.
Qed.

(** A full overwrite of a freshly made slice. *)
Lemma store_fresh (h : list (list T)) (a xs : list T) (n c : nat) :
  length a = n -> length xs = n ->
  store_at (h ++ [a]) {| s_ptr := length h; s_off := 0; s_len := n; s_cap := c |} 0 xs
  = h ++ [xs].
Proof.
  intros Ha Hxs. unfold store_at, array_of. cbn.
  rewrite lookup_app_r by lia. rewrite Nat.sub_diag. cbn.
  rewrite drop_ge by lia. rewrite app_nil_r.
  rewrite insert_app_r_alt by lia. rewrite Nat.sub_diag. reflexivity.
Qed.

Lemma slice_elems_fresh (h : list (list T)) (xs : list T) (n c : nat) :
  length xs = n ->
  slice_elems (h ++ [xs]) {| s_ptr := length h; s_off := 0; s_len := n; s_cap := c |} = xs.
Proof.
  intros Hxs. unfold slice_elems, array_of. cbn.
  rewrite lookup_app_r by lia. rewrite Nat.sub_diag. cbn.
  apply take_ge. lia.
Qed.

Lemma calculateStatistics_run (times : Slice) (w : World E T) :
  length (slice_elems (heap w) times) = s_len times -> (0 < s_len times)%nat ->
  calculateStatistics times w
  = (Ok (summaryOf (slice_elems (heap w) times)),
     {| env := env w; heap := heap w ++ [sortedFloat64s (slice_elems (heap w) times)] |}).
Proof.
  intros Hlen Hpos.
  pose proof (slice_valid _ _ Hlen Hpos) as Hptr.
  set (xs := slice_elems (heap w) times) in *.
  unfold calculateStatistics, len.
  replace (Z.of_nat (s_len times) =? 0) with false by (symmetry; apply Z.eqb_neq; lia).
  rewrite bind_run. unfold make.
  replace ((Z.of_nat (s_len times) <? 0) || (Z.of_nat (s_len times) <? Z.of_nat (s_len times)))
    with false by (symmetry; apply orb_false_iff; split; apply Z.ltb_ge; lia).
  rewrite Nat2Z.id.
  rewrite bind_run. unfold copy, set_heap. cbn [heap env s_len].
  rewrite Nat.min_id, slice_elems_app by exact Hptr. fold xs.
  rewrite take_ge by lia.
  rewrite store_fresh by (rewrite ?length_replicate; lia).
  rewrite bind_run. unfold sortFloat64s, set_heap. cbn [heap env].
  rewrite slice_elems_fresh by lia.
  rewrite store_fresh by (rewrite ?sortedFloat64s_length; lia).
  rewrite bind_run. unfold elems. cbn [heap env].
  rewrite slice_elems_fresh by (rewrite sortedFloat64s_length; lia).
  rewrite bind_run.
  rewrite (forRange_pure times (fun sum v => f_add sum v))
    by (cbn [heap]; rewrite slice_elems_app by exact Hptr; exact Hlen).
  rewrite bind_run.
  rewrite (forRange_pure times
             (fun acc v => f_add acc (f_mul (f_sub v _) (f_sub v _))))
    by (cbn [heap]; rewrite slice_elems_app by exact Hptr; exact Hlen).
  cbn [heap]. rewrite slice_elems_app by exact Hptr. fold xs.
  unfold summaryOf, len. cbn [s_len]. rewrite Hlen. reflexivity.
Qed.

End Runs.

(** ** Exact arithmetic: medians, percentiles, the estimated range *)

Section ExactArithmetic.

Context {E : Type}.
Variable rt : Q -> Q.
#[local] Instance exact_arith : Float64 Q := Exact rt.

Lemma Qfloor_half (m : Z) : Qfloor (0.5 * inject_Z m) = m / 2.
Proof.
  unfold Qfloor, Qmult, inject_Z; simpl Qnum; simpl Qden.
  change (Z.pos (10 * 1)) with 10. Z.div_mod_to_equations. lia.
Qed.

Lemma Qceiling_half (m : Z) : Qceiling (0.5 * inject_Z m) = (m + 1) / 2.
Proof.
  unfold Qceiling, Qfloor, Qopp, Qmult, inject_Z; simpl Qnum; simpl Qden.
  change (Z.pos (10 * 1)) with 10. Z.div_mod_to_equations. lia.
Qed.

Lemma toInt_inject (z : Z) :
  min_int64 <= z <= max_int64 -> ExactQ.toInt (inject_Z z) = z.
Proof.
  intros Hz. unfold ExactQ.toInt.
  rewrite Qfloor_Z, Qceiling_Z.
  destruct (Qle_bool 0 (inject_Z z)); unfold in_int64;
    (destruct (Z.leb_spec min_int64 z); [|lia]);
    (destruct (Z.leb_spec z max_int64); [|lia]); reflexivity.
Qed.

Theorem percentile_half_is_median (s : list Q) :
  s <> [] -> Z.of_nat (length s) <= max_int64 ->
  (percentile s (f_lit 0.5) == standardMedian s)%Q.
Proof.
  intros Hne Hlen.
  destruct s as [|x0 s']; [congruence|]. clear Hne.
  set (s := x0 :: s') in *.
  assert (Hn : (1 <= length s)%nat) by (simpl; lia).
  unfold percentile, standardMedian.
  replace (length s =? 0)%nat with false by (symmetry; apply Nat.eqb_neq; lia).
  cbn [f_leb f_lit f_mul f_ofInt f_toInt f_floor f_ceil f_sub f_add exact_arith Exact].
  change (Qle_bool 0.5 0) with false. change (Qle_bool 1 0.5)%Q with false.
  cbv iota.
  unfold ExactQ.floor, ExactQ.ceil.
  rewrite Qfloor_half, Qceiling_half.
  assert (Hmin : min_int64 <= 0) by (vm_compute; discriminate).
  unfold at_index. cbn [f_lit exact_arith Exact].
  destruct (Nat.odd (length s)) eqn:Hodd.
  - apply Nat.odd_spec in Hodd. destruct Hodd as [k Hk].
    replace ((Z.of_nat (length s) - 1) / 2) with (Z.of_nat k)
      by (Z.div_mod_to_equations; lia).
    replace ((Z.of_nat (length s) - 1 + 1) / 2) with (Z.of_nat k)
      by (Z.div_mod_to_equations; lia).
    rewrite !toInt_inject by lia.
    rewrite Z.eqb_refl, Nat2Z.id.
    replace (length s / 2)%nat with k; [reflexivity|].
    rewrite Hk. apply Nat.div_unique with (r := 1%nat); lia.
  - assert (Heven : Nat.even (length s) = true)
      by (rewrite <- Nat.negb_odd, Hodd; reflexivity).
    apply Nat.even_spec in Heven. destruct Heven as [k Hk].
    assert (Hk1 : (1 <= k)%nat) by lia.
    replace ((Z.of_nat (length s) - 1) / 2) with (Z.of_nat (k - 1))
      by (Z.div_mod_to_equations; lia).
    replace ((Z.of_nat (length s) - 1 + 1) / 2) with (Z.of_nat k)
      by (Z.div_mod_to_equations; lia).
    rewrite !toInt_inject by lia.
    replace (Z.of_nat (k - 1) =? Z.of_nat k) with false
      by (symmetry; apply Z.eqb_neq; lia).
    rewrite !Nat2Z.id.
    replace (length s / 2)%nat with k
      by (rewrite Hk; apply Nat.div_unique with (r := 0%nat); lia).
    set (a := nth (k - 1) s 0%Q). set (b := nth k s 0%Q).
    assert (Hw : (0.5 * inject_Z (Z.of_nat (length s) - 1) - inject_Z (Z.of_nat (k - 1)) == 1 # 2)%Q).
    { replace (Z.of_nat (length s) - 1) with (2 * Z.of_nat (k - 1) + 1) by lia.
      rewrite inject_Z_plus, inject_Z_mult. field. }
    rewrite Hw. field.
Qed.

(** *** Percentiles of an ascending sequence *)

Lemma Qle_bool_false (x y : Q) : Qle_bool x y = false <-> (y < x)%Q.
Proof.
  split; intros H.
  - apply Qnot_le_lt. intros Hle. apply Qle_bool_iff in Hle. congruence.
  - destruct (Qle_bool x y) eqn:Hle; [|reflexivity].
    apply Qle_bool_iff in Hle. exfalso. apply (Qlt_not_le _ _ H Hle).
Qed.

Lemma Qceiling_cases (x : Q) :
  (inject_Z (Qfloor x) == x /\ Qceiling x = Qfloor x)%Q
  \/ ((inject_Z (Qfloor x) < x)%Q /\ Qceiling x = Qfloor x + 1).
Proof.
  pose proof (Qfloor_le x) as Hf. pose proof (Qlt_floor x) as Hf'.
  pose proof (Qle_ceiling x) as Hc. pose proof (Qceiling_lt x) as Hc'.
  destruct (Qlt_le_dec (inject_Z (Qfloor x)) x) as [Hlt|Hge].
  - right. split; [exact Hlt|].
    assert (H1 : (inject_Z (Qfloor x) < inject_Z (Qceiling x))%Q) by lra.
    assert (H2 : (inject_Z (Qceiling x - 1) < inject_Z (Qfloor x + 1))%Q) by lra.
    rewrite <- Zlt_Qlt in H1, H2. lia.
  - left. assert (He : (inject_Z (Qfloor x) == x)%Q) by lra. split; [exact He|].
    rewrite <- He at 1. apply Qceiling_Z.
Qed.

Lemma percentile_rank (s : list Q) (p : Q) :
  s <> [] -> Z.of_nat (length s) <= max_int64 -> (0 < p)%Q -> (p < 1)%Q ->
  (percentile s p == rank_value s (p * inject_Z (Z.of_nat (length s) - 1)))%Q.
Proof.
  intros Hne Hlen Hp0 Hp1.
  assert (Hn : (1 <= length s)%nat) by (destruct s; [congruence|simpl; lia]).
  unfold percentile, rank_value, lerp.
  replace (length s =? 0)%nat with false by (symmetry; apply Nat.eqb_neq; lia).
  cbn [f_leb f_lit f_mul f_ofInt f_toInt f_floor f_ceil f_sub f_add exact_arith Exact].
  replace (Qle_bool p 0) with false by (symmetry; apply Qle_bool_false; exact Hp0).
  replace (Qle_bool 1 p) with false by (symmetry; apply Qle_bool_false; exact Hp1).
  set (x := (p * inject_Z (Z.of_nat (length s) - 1))%Q).
  assert (Hx0 : (0 <= x)%Q).
  { unfold x. apply Qmult_le_0_compat; [lra|].
    change 0%Q with (inject_Z 0). rewrite <- Zle_Qle. lia. }
  assert (Hx1 : (x <= inject_Z (Z.of_nat (length s) - 1))%Q).
  { unfold x. rewrite <- (Qmult_1_l (inject_Z (Z.of_nat (length s) - 1))) at 2.
    apply Qmult_le_compat_r; [lra|].
    change 0%Q with (inject_Z 0). rewrite <- Zle_Qle. lia. }
  assert (Hf0 : 0 <= Qfloor x).
  { change 0 with (Qfloor 0). apply Qfloor_resp_le. exact Hx0. }
  assert (Hf1 : Qfloor x <= Z.of_nat (length s) - 1).
  { rewrite <- (Qfloor_Z (Z.of_nat (length s) - 1)). apply Qfloor_resp_le. exact Hx1. }
  assert (Hmin : min_int64 <= 0) by (vm_compute; discriminate).
  unfold ExactQ.floor, ExactQ.ceil, at_index.
  cbn [f_lit exact_arith Exact].
  destruct (Qceiling_cases x) as [[He Hc]|[Hlt Hc]]; rewrite Hc.
  - rewrite !toInt_inject by lia. rewrite Z.eqb_refl.
    assert (Hz : (x - inject_Z (Qfloor x) == 0)%Q) by lra; rewrite Hz; clear Hz. ring.
  - assert (Hf2 : Qfloor x + 1 <= Z.of_nat (length s) - 1).
    { assert (H3 : (inject_Z (Qfloor x) < inject_Z (Z.of_nat (length s) - 1))%Q) by lra.
      rewrite <- Zlt_Qlt in H3. lia. }
    rewrite !toInt_inject by lia.
    replace (Qfloor x =? Qfloor x + 1) with false by (symmetry; apply Z.eqb_neq; lia).
    replace (Z.to_nat (Qfloor x + 1)) with (S (Z.to_nat (Qfloor x))) by lia.
    reflexivity.
Qed.

Lemma rank_value_bounds (s : list Q) (x : Q) :
  ascending s -> (0 <= x)%Q -> (x <= inject_Z (Z.of_nat (length s) - 1))%Q ->
  (nth (Z.to_nat (Qfloor x)) s 0 <= rank_value s x)%Q
  /\ (rank_value s x <= nth (Z.to_nat (Qceiling x)) s 0)%Q.
Proof.
  intros Hasc Hx0 Hx1.
  assert (Hf0 : 0 <= Qfloor x).
  { change 0 with (Qfloor 0). apply Qfloor_resp_le. exact Hx0. }
  assert (Hf1 : Qfloor x <= Z.of_nat (length s) - 1).
  { rewrite <- (Qfloor_Z (Z.of_nat (length s) - 1)). apply Qfloor_resp_le. exact Hx1. }
  pose proof (Qlt_floor x) as Hw1.
  unfold rank_value, lerp.
  destruct (Qceiling_cases x) as [[He Hc]|[Hlt Hc]]; rewrite Hc.
  - assert (Hz : (x - inject_Z (Qfloor x) == 0)%Q) by lra; rewrite Hz; clear Hz.
    split; ring_simplify; apply Qle_refl.
  - assert (Hf2 : Qfloor x + 1 <= Z.of_nat (length s) - 1).
    { assert (H3 : (inject_Z (Qfloor x) < inject_Z (Z.of_nat (length s) - 1))%Q) by lra.
      rewrite <- Zlt_Qlt in H3. lia. }
    replace (Z.to_nat (Qfloor x + 1)) with (S (Z.to_nat (Qfloor x))) by lia.
    assert (Hab : (nth (Z.to_nat (Qfloor x)) s 0 <= nth (S (Z.to_nat (Qfloor x))) s 0)%Q)
      by (apply Hasc; lia).
    rewrite inject_Z_plus in Hw1. change (inject_Z 1) with 1%Q in Hw1.
    set (w := (x - inject_Z (Qfloor x))%Q).
    assert (Hw0 : (0 <= w)%Q) by (unfold w; lra).
    assert (Hw1' : (w <= 1)%Q) by (unfold w; lra).
    clearbody w.
    set (a := nth (Z.to_nat (Qfloor x)) s 0%Q) in *.
    set (b := nth (S (Z.to_nat (Qfloor x))) s 0%Q) in *.
    clearbody a b. split; nra.
Qed.

Lemma rank_value_mono (s : list Q) (x y : Q) :
  ascending s -> (0 <= x)%Q -> (x <= y)%Q ->
  (y <= inject_Z (Z.of_nat (length s) - 1))%Q ->
  (rank_value s x <= rank_value s y)%Q.
Proof.
  intros Hasc Hx0 Hxy Hy1.
  assert (Hfx0 : 0 <= Qfloor x).
  { change 0 with (Qfloor 0). apply Qfloor_resp_le. exact Hx0. }
  assert (Hfxy : Qfloor x <= Qfloor y) by (apply Qfloor_resp_le; exact Hxy).
  assert (Hfy1 : Qfloor y <= Z.of_nat (length s) - 1).
  { rewrite <- (Qfloor_Z (Z.of_nat (length s) - 1)). apply Qfloor_resp_le. exact Hy1. }
  destruct (Z.eq_dec (Qfloor x) (Qfloor y)) as [Heq|Hneq].
  - unfold rank_value, lerp. rewrite <- Heq.
    pose proof (Qfloor_le x) as Hlx. pose proof (Qfloor_le y) as Hly.
    rewrite <- Heq in Hly.
    destruct (Qceiling_cases y) as [[He Hc]|[Hlt Hc]].
    + rewrite <- Heq in He.
      assert (Hz : (x - inject_Z (Qfloor x) == 0)%Q) by lra; rewrite Hz; clear Hz.
      assert (Hz : (y - inject_Z (Qfloor x) == 0)%Q) by lra; rewrite Hz; clear Hz.
      apply Qle_refl.
    + rewrite <- Heq in Hlt.
      assert (Hf2 : Qfloor x + 1 <= Z.of_nat (length s) - 1).
      { assert (H3 : (inject_Z (Qfloor x) < inject_Z (Z.of_nat (length s) - 1))%Q) by lra.
        rewrite <- Zlt_Qlt in H3. lia. }
      assert (Hab : (nth (Z.to_nat (Qfloor x)) s 0 <= nth (S (Z.to_nat (Qfloor x))) s 0)%Q)
        by (apply Hasc; lia).
      set (a := nth (Z.to_nat (Qfloor x)) s 0%Q) in *.
      set (b := nth (S (Z.to_nat (Qfloor x))) s 0%Q) in *.
      set (l := inject_Z (Qfloor x)) in *.
      clearbody a b l. nra.
  - pose proof (rank_value_bounds s x Hasc Hx0 (Qle_trans _ _ _ Hxy Hy1)) as [_ Hux].
    pose proof (rank_value_bounds s y Hasc (Qle_trans _ _ _ Hx0 Hxy) Hy1) as [Hly _].
    apply Qle_trans with (nth (Z.to_nat (Qceiling x)) s 0%Q); [exact Hux|].
    apply Qle_trans with (nth (Z.to_nat (Qfloor y)) s 0%Q); [|exact Hly].
    apply Hasc.
    destruct (Qceiling_cases x) as [[_ Hc]|[_ Hc]]; rewrite Hc; lia.
Qed.

(** *** [sort.Float64s] in exact arithmetic *)

Lemma lessFloat64_exact (x y : Q) : lessFloat64 x y = negb (Qle_bool y x).
Proof. unfold lessFloat64. cbn. unfold ExactQ.ltb. apply orb_false_r. Qed.

Lemma insertFloat64_sorted (x : Q) (l : list Q) :
  StronglySorted Qle l -> StronglySorted Qle (insertFloat64 x l).
Proof.
  induction 1 as [|y l Hl IH Hy]; cbn [insertFloat64].
  - constructor; constructor.
  - rewrite lessFloat64_exact.
    destruct (Qle_bool y x) eqn:Hyx; cbn [negb].
    + apply Qle_bool_iff in Hyx. constructor; [exact IH|].
      rewrite List.Forall_forall. intros z Hz.
      apply (Permutation_in _ (insertFloat64_perm x l)) in Hz.
      destruct Hz as [<-|Hz]; [exact Hyx|].
      rewrite List.Forall_forall in Hy. apply Hy, Hz.
    + apply Qle_bool_false in Hyx.
      constructor; [constructor; assumption|].
      constructor; [apply Qlt_le_weak; exact Hyx|].
      rewrite List.Forall_forall in *. intros z Hz.
      apply Qle_trans with y; [apply Qlt_le_weak; exact Hyx|apply Hy, Hz].
Qed.

Lemma sortedFloat64s_sorted (l : list Q) : StronglySorted Qle (sortedFloat64s l).
Proof.
  induction l as [|x l IH]; cbn; [constructor|].
  apply insertFloat64_sorted, IH.
Qed.

Lemma sorted_ascending (l : list Q) : StronglySorted Qle l -> ascending l.
Proof.
  induction 1 as [|y l Hl IH Hy]; intros i j Hij; cbn in Hij; [lia|].
  destruct i as [|i], j as [|j]; cbn [nth]; try lia.
  - apply Qle_refl.
  - rewrite List.Forall_forall in Hy. apply Hy, nth_In. lia.
  - apply IH. lia.
Qed.

(** *** The estimated range *)

Lemma max_lub (x y z : Q) : (x <= z -> y <= z -> ExactQ.max x y <= z)%Q.
Proof. intros Hx Hy. unfold ExactQ.max. destruct (ExactQ.ltb y x); assumption. Qed.

Lemma min_glb (x y z : Q) : (z <= x -> z <= y -> z <= ExactQ.min x y)%Q.
Proof. intros Hx Hy. unfold ExactQ.min. destruct (ExactQ.ltb x y); assumption. Qed.

Lemma max_ge_r (x y : Q) : (y <= ExactQ.max x y)%Q.
Proof.
  unfold ExactQ.max, ExactQ.ltb. destruct (Qle_bool x y) eqn:Hxy; cbn [negb].
  - apply Qle_refl.
  - apply Qle_bool_false in Hxy. apply Qlt_le_weak. exact Hxy.
Qed.


Lemma exact_lower_nonnegative (c : CalculatorConfig.t Q) (times : Slice)
    (stats : BlockTimeStats.t Q) :
  (0 <= Range.Lower (calculateRange c times stats))%Q.
Proof.
  unfold calculateRange.
  destruct (len times =? 0); [apply Qle_refl|].
  destruct (f_ltb _ _); cbn [Range.Lower]; apply max_ge_r.
Qed.


(** *** Durations *)

(** In exact arithmetic [time.Duration(x * float64(time.Second))] is [x]
    seconds cut to whole nanoseconds. *)
Lemma durationOf_exact (x : Q) :
  (0 <= x)%Q -> (x * 1000000000 <= inject_Z max_int64)%Q ->
  (inject_Z (durationOf x) <= x * 1000000000
   /\ x * 1000000000 < inject_Z (durationOf x) + 1)%Q.
Proof.
  intros Hx Hmax. unfold durationOf.
  cbn [f_toInt f_mul f_ofInt exact_arith Exact].
  change (inject_Z 1000000000) with 1000000000%Q.
  set (y := (x * 1000000000)%Q) in *.
  assert (Hy : (0 <= y)%Q) by (unfold y; lra).
  unfold ExactQ.toInt.
  replace (Qle_bool 0 y) with true by (symmetry; apply Qle_bool_iff; exact Hy).
  assert (H0 : 0 <= Qfloor y) by (change 0 with (Qfloor 0); apply Qfloor_resp_le; exact Hy).
  assert (H1 : Qfloor y <= max_int64).
  { rewrite <- (Qfloor_Z max_int64). apply Qfloor_resp_le. exact Hmax. }
  assert (Hmin : min_int64 <= 0) by (vm_compute; discriminate).
  unfold in_int64.
  destruct (Z.leb_spec min_int64 (Qfloor y)); [|lia].
  destruct (Z.leb_spec (Qfloor y) max_int64); [|lia].
  cbn [andb]. split; [apply Qfloor_le|].
  pose proof (Qlt_floor y) as Hlt. rewrite inject_Z_plus in Hlt. exact Hlt.
Qed.

End ExactArithmetic.

(** ** Binary64: the clamp of the lower bound *)

Lemma Prim2SF_zero : Prim2SF 0%float = S754_zero false.
Proof. reflexivity. Qed.

(** In binary64 [math.Max(x, 0)] is NaN or not below zero. *)
Lemma ieee_max_zero (x : float) :
  is_nan (IEEE754.max x 0) = true \/ (0 <=? IEEE754.max x 0)%float = true.
Proof.
  unfold IEEE754.max.
  destruct (IEEE754.pos_inf x || IEEE754.pos_inf 0); [right; reflexivity|].
  destruct (is_nan x || is_nan 0); [left; reflexivity|].
  destruct ((x =? 0)%float && (x =? 0)%float) eqn:Hz.
  - apply andb_true_iff in Hz as [Hz _].
    destruct (get_sign x); [right; reflexivity|]. right.
    rewrite FloatAxioms.eqb_spec in Hz. rewrite FloatAxioms.leb_spec. rewrite Prim2SF_zero in *.
    destruct (Prim2SF x) as [s|s| |s m e]; cbn in *; try reflexivity; try discriminate;
      destruct s; discriminate.
  - destruct (0 <? x)%float eqn:Hlt; [|right; reflexivity]. right.
    rewrite FloatAxioms.ltb_spec in Hlt. rewrite FloatAxioms.leb_spec. rewrite Prim2SF_zero in *.
    destruct (Prim2SF x) as [s|s| |s m e]; cbn in *; try reflexivity; try discriminate;
      destruct s; (discriminate || reflexivity).
Qed.

(** C8: the lower bound of the estimated range is never negative, for any
    series, summary and configuration: in exact arithmetic it is at least
    zero, and in binary64 it is at least zero or, when the bound it clamps
    is not a number, NaN. *)
Theorem estimated_lower_nonnegative :
  (forall (rt : Q -> Q) (c : CalculatorConfig.t Q) (times : Slice)
          (stats : BlockTimeStats.t Q),
     (0 <= Range.Lower (@calculateRange Q (Exact rt) c times stats))%Q)
  /\ (forall (c : CalculatorConfig.t float) (times : Slice)
             (stats : BlockTimeStats.t float),
        f_isNaN (Range.Lower (calculateRange c times stats)) = true
        \/ f_leb (f_lit 0) (Range.Lower (calculateRange c times stats)) = true).
Proof.
  split; [intros rt c times stats; apply exact_lower_nonnegative|].
  intros c times stats. unfold calculateRange.
  destruct (len times =? 0); [right; reflexivity|].
  destruct (f_ltb _ _); cbn [Range.Lower f_isNaN f_leb f_max IEEE];
    change (f_lit 0) with 0%float; apply ieee_max_zero.
Qed.

(** ** The range fetch: ordering *)

Section Ordering.

Implicit Types (a : list Block.t) (x y : Block.t).

Lemma exchange_length i j a : length (exchange i j a) = length a.
Proof.
  unfold exchange. destruct (a !! i), (a !! j); try reflexivity.
  destruct (_ <? _); [|reflexivity]. rewrite !length_insert. reflexivity.
Qed.

Lemma exchange_perm i j a : Permutation (exchange i j a) a.
Proof.
  unfold exchange. destruct (a !! i) as [x|] eqn:Hi, (a !! j) as [y|] eqn:Hj;
    try reflexivity.
  destruct (_ <? _); [|reflexivity]. apply Permutation_insert_swap; assumption.
Qed.

Lemma exchange_take i j a : (i < j)%nat -> take i (exchange i j a) = take i a.
Proof.
  intros Hij. unfold exchange. destruct (a !! i), (a !! j); try reflexivity.
  destruct (_ <? _); [|reflexivity]. rewrite !take_insert_ge by lia. reflexivity.
Qed.

Lemma exchange_drop i j a :
  (i < j)%nat -> Permutation (drop i (exchange i j a)) (drop i a).
Proof.
  intros Hij. unfold exchange.
  destruct (a !! i) as [x|] eqn:Hi, (a !! j) as [y|] eqn:Hj; try reflexivity.
  destruct (_ <? _); [|reflexivity].
  rewrite !drop_insert_ge by lia.
  apply Permutation_insert_swap; rewrite lookup_drop.
  - rewrite <- Hi. f_equal. lia.
  - rewrite <- Hj. f_equal. lia.
Qed.

Lemma exchange_least i j a :
  (i < j)%nat -> least_upto i j a -> least_upto i (S j) (exchange i j a).
Proof.
  intros Hij Hleast k x' y' Hk Hx' Hy'. unfold exchange in *.
  destruct (a !! i) as [x|] eqn:Hi; [|rewrite Hi in Hx'; discriminate].
  destruct (a !! j) as [y|] eqn:Hj.
  - destruct (Z.ltb_spec (Block.Height y) (Block.Height x)) as [Hlt|Hge].
    + assert (Hli : (i < length a)%nat) by (eapply lookup_lt_Some; eassumption).
      assert (Hlj : (j < length a)%nat) by (eapply lookup_lt_Some; eassumption).
      rewrite list_lookup_insert_ne in Hx' by lia.
      rewrite list_lookup_insert_eq in Hx' by lia.
      injection Hx' as <-.
      destruct (Nat.eq_dec k j) as [->|Hkj].
      * rewrite list_lookup_insert_eq in Hy' by (rewrite length_insert; lia).
        injection Hy' as <-. lia.
      * rewrite !list_lookup_insert_ne in Hy' by lia.
        specialize (Hleast k x y' ltac:(lia) Hi Hy'). lia.
    + rewrite Hi in Hx'. injection Hx' as <-.
      destruct (Nat.eq_dec k j) as [->|Hkj].
      * rewrite Hj in Hy'. injection Hy' as <-. exact Hge.
      * apply (Hleast k x y' ltac:(lia) Hi Hy').
  - rewrite Hi in Hx'. injection Hx' as <-.
    destruct (Nat.eq_dec k j) as [->|Hkj]; [congruence|].
    apply (Hleast k x y' ltac:(lia) Hi Hy').
Qed.

Lemma innerLoop_spec i count : forall j a,
  (i < j)%nat -> least_upto i j a ->
  let a' := innerLoop i j count a in
  length a' = length a /\ Permutation a' a /\ take i a' = take i a
  /\ Permutation (drop i a') (drop i a) /\ least_upto i (j + count) a'.
Proof.
  induction count as [|count IH]; intros j a Hij Hleast; cbn [innerLoop].
  - rewrite Nat.add_0_r. repeat split; try reflexivity. exact Hleast.
  - destruct (IH (S j) (exchange i j a) ltac:(lia) (exchange_least i j a Hij Hleast))
      as (H1 & H2 & H3 & H4 & H5).
    cbn zeta. split; [rewrite H1; apply exchange_length|].
    split; [rewrite H2; apply exchange_perm|].
    split; [rewrite H3; apply exchange_take; exact Hij|].
    split; [rewrite H4; apply exchange_drop; exact Hij|].
    replace (j + S count)%nat with (S j + count)%nat by lia. exact H5.
Qed.

Lemma settled_step i a a' :
  settled i a -> length a' = length a -> take i a' = take i a ->
  Permutation (drop i a') (drop i a) -> least_upto i (length a) a' ->
  settled (S i) a'.
Proof.
  intros Hset Hlen Htake Hdrop Hleast p q x y Hp Hpq Hx Hy.
  assert (Hq : (q < length a)%nat) by (rewrite <- Hlen; eapply lookup_lt_Some; eassumption).
  destruct (Nat.eq_dec p i) as [->|Hpi].
  - apply (Hleast q x y ltac:(lia) Hx Hy).
  - assert (Hx0 : a !! p = Some x).
    { rewrite <- (lookup_take_lt a i) by lia. rewrite <- Htake.
      rewrite lookup_take_lt by lia. exact Hx. }
    destruct (Nat.lt_ge_cases q i) as [Hqi|Hqi].
    + assert (Hy0 : a !! q = Some y).
      { rewrite <- (lookup_take_lt a i) by lia. rewrite <- Htake.
        rewrite lookup_take_lt by lia. exact Hy. }
      apply (Hset p q x y ltac:(lia) Hpq Hx0 Hy0).
    + assert (Hin : y ∈ drop i a').
      { apply list_elem_of_lookup. exists (q - i)%nat.
        rewrite lookup_drop. rewrite <- Hy. f_equal. lia. }
      rewrite Hdrop in Hin. apply list_elem_of_lookup in Hin as [k Hk].
      rewrite lookup_drop in Hk.
      apply (Hset p (i + k)%nat x y ltac:(lia) ltac:(lia) Hx0 Hk).
Qed.

Lemma outerLoop_spec count : forall i a,
  settled i a -> (i + count = length a - 1)%nat ->
  let a' := outerLoop i count a in
  Permutation a' a /\ settled (length a - 1) a'.
Proof.
  induction count as [|count IH]; intros i a Hset Hcount; cbn [outerLoop].
  - split; [reflexivity|]. rewrite Nat.add_0_r in Hcount. rewrite <- Hcount. exact Hset.
  - destruct (innerLoop_spec i (length a - S i) (S i) a ltac:(lia))
      as (H1 & H2 & H3 & H4 & H5).
    { intros k x y Hk. lia. }
    replace (S i + (length a - S i))%nat with (length a) in H5 by lia.
    set (a1 := innerLoop i (S i) (length a - S i) a) in *.
    destruct (IH (S i) a1) as (H6 & H7).
    { apply (settled_step i a a1); assumption. }
    { rewrite H1. lia. }
    cbn zeta. split; [rewrite H6; exact H2|]. rewrite <- H1. exact H7.
Qed.

Lemma settled_sorted a :
  settled (length a - 1) a -> StronglySorted Z.le (map Block.Height a).
Proof.
  intros Hset.
  assert (Hpair : forall p q x y, (p < q)%nat ->
            a !! p = Some x -> a !! q = Some y -> Block.Height x <= Block.Height y).
  { intros p q x y Hpq Hx Hy. apply (Hset p q x y); [|exact Hpq|exact Hx|exact Hy].
    apply lookup_lt_Some in Hy. lia. }
  clear Hset. induction a as [|x a IH]; cbn; [constructor|].
  constructor.
  - apply IH. intros p q x' y' Hpq Hx' Hy'.
    apply (Hpair (S p) (S q) x' y'); [lia|exact Hx'|exact Hy'].
  - rewrite List.Forall_forall. intros h Hh. apply in_map_iff in Hh as (y & <- & Hy).
    apply list_elem_of_In, list_elem_of_lookup in Hy as [k Hk].
    apply (Hpair 0%nat (S k) x y); [lia|reflexivity|exact Hk].
Qed.

Lemma sortByHeight_sorted a : StronglySorted Z.le (map Block.Height (sortByHeight a)).
Proof.
  unfold sortByHeight.
  destruct (outerLoop_spec (length a - 1) 0%nat a) as [Hperm Hset].
  { intros p q x y Hp. lia. }
  { lia. }
  apply settled_sorted. rewrite (Permutation_length Hperm). exact Hset.
Qed.

Lemma sortByHeight_perm a : Permutation (sortByHeight a) a.
Proof.
  unfold sortByHeight.
  destruct (outerLoop_spec (length a - 1) 0%nat a) as [Hperm _].
  - intros p q x y Hp. lia.
  - lia.
  - exact Hperm.
Qed.

End Ordering.

(** ** The range fetch: failures *)

Section Fetching.

Context {T : Type} `{F : Float64 T}.

Lemma elem_of_delete_or (l : list Z) (k : nat) (h h' : Z) :
  h ∈ l -> l !! k = Some h' -> h = h' \/ h ∈ delete k l.
Proof.
  intros Hin Hk. apply list_elem_of_lookup in Hin as [i Hi].
  destruct (Nat.eq_dec i k) as [->|Hik]; [left; congruence|right].
  apply list_elem_of_lookup.
  destruct (Nat.lt_ge_cases i k) as [Hlt|Hge].
  - exists i. rewrite list_lookup_delete_lt by lia. exact Hi.
  - exists (i - 1)%nat. rewrite list_lookup_delete_ge by lia.
    rewrite <- Hi. f_equal. lia.
Qed.

Lemma finish_reported (n : Node) (hs : list Z) (k : nat) (st : Fetch) :
  reported n hs st -> reported n hs (finish n k st).
Proof.
  intros Hrep h msg Hh Hfail. unfold finish.
  destruct (inflight st !! k) as [h'|] eqn:Hk; [|apply (Hrep h msg Hh Hfail)].
  destruct (Hrep h msg Hh Hfail) as [Hrun|Herr].
  - destruct (elem_of_delete_or _ _ _ _ Hrun Hk) as [<-|Hin].
    + rewrite Hfail. right. cbn. destruct (errChan st); discriminate.
    + left. destruct (block n h'); exact Hin.
  - right. destruct (block n h'); cbn; [destruct (errChan st); congruence| |]; exact Herr.
Qed.

Lemma finish_length (n : Node) (k : nat) (st : Fetch) :
  (k < length (inflight st))%nat ->
  length (inflight (finish n k st)) = (length (inflight st) - 1)%nat.
Proof.
  intros Hk. unfold finish.
  destruct (inflight st !! k) as [h|] eqn:Hh.
  - destruct (block n h); cbn; rewrite length_delete by (rewrite Hh; eauto);
      reflexivity.
  - apply lookup_ge_None in Hh. lia.
Qed.

Lemma acquire_reported (n : Node) (hs : list Z) (fuel : nat) :
  forall st t, reported n hs st -> reported n hs (fst (acquire fuel n st t)).
Proof.
  induction fuel as [|fuel IH]; intros st t Hrep; cbn [acquire]; [exact Hrep|].
  destruct (inflight st) eqn:Hrun; [exact Hrep|].
  destruct (_ && _); [exact Hrep|].
  apply IH, finish_reported, Hrep.
Qed.

Lemma drain_reported (n : Node) (hs : list Z) (fuel : nat) :
  forall st t, reported n hs st -> reported n hs (fst (drain fuel n st t)).
Proof.
  induction fuel as [|fuel IH]; intros st t Hrep; cbn [drain]; [exact Hrep|].
  destruct (inflight st) eqn:Hrun; [exact Hrep|].
  apply IH, finish_reported, Hrep.
Qed.

(** The barrier is sound: once the semaphore is full, no task is running. *)
Lemma drain_all (n : Node) (fuel : nat) :
  forall st t, (length (inflight st) <= fuel)%nat ->
    inflight (fst (drain fuel n st t)) = [].
Proof.
  induction fuel as [|fuel IH]; intros st t Hfuel; cbn [drain].
  - cbn [fst]. destruct (inflight st); [reflexivity|cbn in Hfuel; lia].
  - destruct (inflight st) as [|h0 l] eqn:Hrun; [exact Hrun|].
    assert (Hk : (sched n t mod length (h0 :: l) < length (inflight st))%nat)
      by (rewrite Hrun; apply Nat.mod_upper_bound; discriminate).
    apply IH. rewrite (finish_length n _ st Hk). rewrite Hrun in *. cbn in *. lia.
Qed.


Lemma reported_launch (n : Node) (hs : list Z) (h : Z) (st : Fetch) :
  reported n hs st ->
  reported n (hs ++ [h])
    {| inflight := inflight st ++ [h]; blockChan := blockChan st; errChan := errChan st |}.
Proof.
  intros Hrep h' msg Hin Hfail. cbn.
  apply elem_of_app in Hin as [Hin|Hin].
  - destruct (Hrep h' msg Hin Hfail) as [Hrun|Herr]; [left|right; exact Herr].
    apply elem_of_app. left. exact Hrun.
  - left. apply elem_of_app. right. exact Hin.
Qed.

Lemma launchAll_reported (hs : list Z) :
  forall n st done st' n',
    reported n done st -> launchAll hs n st = (Some st', n') ->
    reported n (done ++ hs) st' /\ block n' = block n /\ sched n' = sched n.
Proof.
  induction hs as [|h hs IH]; intros n st done st' n' Hrep Hrun; cbn [launchAll] in Hrun.
  - injection Hrun as <- <-. rewrite app_nil_r. auto.
  - destruct (ctxDone n h); [discriminate|].
    destruct (acquire (S (length (inflight st))) n st (tick n)) as [st1 t1] eqn:Hacq.
    pose proof (acquire_reported n done (S (length (inflight st))) st (tick n) Hrep) as Hrep1.
    rewrite Hacq in Hrep1. cbn [fst] in Hrep1.
    apply (reported_launch n done h st1) in Hrep1.
    destruct (IH (with_call (with_tick n t1) h) _ (done ++ [h]) st' n' Hrep1 Hrun)
      as (H1 & H2 & H3).
    rewrite <- app_assoc in H1. cbn in H1. auto.
Qed.

Lemma elem_of_heights (startHeight endHeight h : Z) :
  startHeight <= h <= endHeight -> h ∈ heights startHeight endHeight.
Proof.
  intros Hh. unfold heights. apply list_elem_of_In, in_map_iff.
  exists (Z.to_nat (h - startHeight)). split; [lia|].
  apply in_seq. lia.
Qed.

Lemma toBlockInfos_heights (prev : option Block.t) (bs : list Block.t) :
  map BlockInfo.Height (toBlockInfos (T:=T) prev bs) = map Block.Height bs.
Proof.
  revert prev. induction bs as [|b bs IH]; intros prev; cbn; [reflexivity|].
  f_equal. apply IH.
Qed.

Lemma GetBlockRange_fails (startHeight endHeight h : Z) (msg : string) (n : Node) :
  startHeight <= h <= endHeight -> block n h = RpcError msg ->
  exists e, fst (GetBlockRange_cosmos (T:=T) startHeight endHeight n) = Err e.
Proof.
  intros Hh Hfail. unfold GetBlockRange_cosmos.
  destruct (Z.ltb_spec endHeight startHeight) as [Hlt|_]; [lia|].
  destruct (launchAll _ _ _) as [[st|] n1] eqn:Hrun; [|eexists; reflexivity].
  apply (launchAll_reported _ n _ []) in Hrun as (Hrep & Hblock & Hsched);
    [|intros h' msg' Hin; apply elem_of_nil in Hin; contradiction].
  cbn [app] in Hrep.
  assert (Hrep1 : reported n1 (heights startHeight endHeight) st).
  { intros h' msg' Hin Hf. rewrite Hblock in Hf. apply (Hrep h' msg' Hin Hf). }
  pose proof (drain_reported n1 _ (length (inflight st)) st (tick n1) Hrep1) as Hrep2.
  pose proof (drain_all n1 (length (inflight st)) st (tick n1) (Nat.le_refl _)) as Hnone.
  destruct (drain _ _ _ _) as [st' t']. cbn [fst] in *.
  destruct (Hrep2 h msg (elem_of_heights _ _ _ Hh)) as [Hrun|Herr].
  - rewrite Hblock. exact Hfail.
  - rewrite Hnone in Hrun. apply elem_of_nil in Hrun. contradiction.
  - destruct (errChan st'); [eexists; reflexivity|congruence].
Qed.

End Fetching.

(** ** The calculator and the predictor over a client *)

Section Pipeline.

Context {E T : Type} `{F : Float64 T}.

Lemma wrap64_id (z : Z) : min_int64 <= z <= max_int64 -> wrap64 z = z.
Proof.
  unfold min_int64, max_int64, wrap64. intros Hz.
  rewrite Z.mod_small by lia. lia.
Qed.

Lemma append_run (s : Slice) (v : T) (w : World E T) :
  exists s' w', append s v w = (Ok s', w')
    /\ s_len s' = S (s_len s) /\ env w' = env w.
Proof.
  unfold append. destruct (s_len s <? s_cap s)%nat; eexists _, _; split; try reflexivity;
    split; reflexivity.
Qed.

Lemma collectBlockTimes_run (rest : list (BlockInfo.t T)) :
  forall (prev : BlockInfo.t T) (blockTimes : Slice) (w : World E T),
  exists s' w', collectBlockTimes prev rest blockTimes w = (Ok s', w')
    /\ s_len s' = (s_len blockTimes + positiveDeltas prev rest)%nat
    /\ env w' = env w.
Proof.
  induction rest as [|b rest IH]; intros prev blockTimes w;
    cbn [collectBlockTimes positiveDeltas].
  - exists blockTimes, w. split; [reflexivity|]. split; [lia|reflexivity].
  - rewrite bind_run. destruct (f_ltb _ _).
    + destruct (append_run blockTimes
                  (durationSeconds (timeSub (BlockInfo.Time b) (BlockInfo.Time prev))) w)
        as (s1 & w1 & Happ & Hlen1 & Henv1).
      rewrite Happ.
      destruct (IH b s1 w1) as (s' & w' & Hrun & Hlen & Henv).
      exists s', w'. split; [exact Hrun|]. split; [lia|congruence].
    + destruct (IH b blockTimes w) as (s' & w' & Hrun & Hlen & Henv).
      exists s', w'. split; [exact Hrun|]. split; [lia|exact Henv].
Qed.

Lemma CalculateStatsForRange_fetch_error (c : BlockTimeCalculator E T)
    (startHeight endHeight : Z) (w : World E T) (e : Error) (env' : E) :
  GetBlockRange (calc_client c) startHeight endHeight (env w) = (Err e, env') ->
  exists e', fst (CalculateStatsForRange c startHeight endHeight w) = Err e'.
Proof.
  intros Hfetch. unfold CalculateStatsForRange.
  destruct (endHeight <? startHeight); [eexists; reflexivity|].
  destruct (_ <? _); [eexists; reflexivity|].
  rewrite bind_run. unfold wrapErr, liftCall. rewrite Hfetch.
  eexists. reflexivity.
Qed.

(** A fetch that returns no block at all makes the calculator panic in
    [make], before any count is taken. *)
Lemma CalculateStatsForRange_empty_fetch (c : BlockTimeCalculator E T)
    (startHeight endHeight : Z) (w : World E T) (env' : E) :
  startHeight <= endHeight ->
  CalculatorConfig.MinSampleSize (calc_config c) <= wrap64 (endHeight - startHeight + 1) ->
  GetBlockRange (calc_client c) startHeight endHeight (env w) = (Ok [], env') ->
  fst (CalculateStatsForRange c startHeight endHeight w)
  = Panic "makeslice: len or cap out of range".
Proof.
  intros Hrange Hsize Hfetch. unfold CalculateStatsForRange.
  destruct (Z.ltb_spec endHeight startHeight); [lia|].
  destruct (Z.ltb_spec (wrap64 (endHeight - startHeight + 1))
              (CalculatorConfig.MinSampleSize (calc_config c))); [lia|].
  rewrite bind_run. unfold wrapErr, liftCall. rewrite Hfetch.
  rewrite bind_run. reflexivity.
Qed.

(** C1: when the request for one height of the range fails, the range fetch
    returns an error and no blocks, whatever the order in which the tasks
    finish and whether or not the context is cancelled; and a calculator
    whose fetch returns an error returns an error and no summary. *)
Theorem range_fetch_fail_fast (startHeight endHeight h : Z) (msg : string) (n : Node) :
  startHeight <= h <= endHeight -> block n h = RpcError msg ->
  (exists e, fst (GetBlockRange_cosmos (T:=T) startHeight endHeight n) = Err e)
  /\ (forall (c : BlockTimeCalculator Node T) (w : World Node T),
        calc_client c = CosmosSDKClient -> env w = n ->
        exists e, fst (CalculateStatsForRange c startHeight endHeight w) = Err e)
  /\ (forall (c : BlockTimeCalculator E T) (w : World E T) (e : Error) (env' : E),
        GetBlockRange (calc_client c) startHeight endHeight (env w) = (Err e, env') ->
        exists e', fst (CalculateStatsForRange c startHeight endHeight w) = Err e').
Proof.
  intros Hh Hfail.
  destruct (GetBlockRange_fails (T:=T) startHeight endHeight h msg n Hh Hfail) as [e He].
  split; [exists e; exact He|]. split.
  - intros c w Hc Hw. unfold CalculateStatsForRange.
    destruct (endHeight <? startHeight); [eexists; reflexivity|].
    destruct (_ <? _); [eexists; reflexivity|].
    rewrite bind_run. unfold wrapErr, liftCall. rewrite Hc, Hw. cbn [GetBlockRange CosmosSDKClient].
    destruct (GetBlockRange_cosmos startHeight endHeight n) as [r n']. cbn [fst] in He.
    rewrite He. eexists. reflexivity.
  - intros c w e0 env' Hfetch.
    apply (CalculateStatsForRange_fetch_error c startHeight endHeight w e0 env' Hfetch).
Qed.

(** C2, amended: a range with startHeight > endHeight is refused with
    InvalidRange by the client and by the calculator, and nothing is asked of
    the chain: the node, its log of requests included, and the world are as
    before.  (Heights below 1 are not checked.) *)
Theorem inverted_range_rejected (startHeight endHeight : Z) :
  endHeight < startHeight ->
  (forall n : Node,
     GetBlockRange_cosmos (T:=T) startHeight endHeight n
     = (Err (InvalidRange startHeight endHeight), n))
  /\ (forall (c : BlockTimeCalculator E T) (w : World E T),
        CalculateStatsForRange c startHeight endHeight w
        = (Err (InvalidRange startHeight endHeight), w)).
Proof.
  intros Hinv. split.
  - intros n. unfold GetBlockRange_cosmos.
    destruct (Z.ltb_spec endHeight startHeight); [reflexivity|lia].
  - intros c w. unfold CalculateStatsForRange.
    destruct (Z.ltb_spec endHeight startHeight); [reflexivity|lia].
Qed.

(** C3, amended: for startHeight <= endHeight the calculator fails with an
    InsufficientSample error, and returns no summary, when the size of the
    range is below MinSampleSize, and when the fetch returned at least one
    block and the count of positive deltas is below MinSampleSize.  The count
    is taken before outlier removal; none is taken after it. *)
Theorem insufficient_sample_rejected (c : BlockTimeCalculator E T)
    (startHeight endHeight : Z) (w : World E T) :
  startHeight <= endHeight ->
  let minimum := CalculatorConfig.MinSampleSize (calc_config c) in
  let sampleSize := wrap64 (endHeight - startHeight + 1) in
  (sampleSize < minimum ->
   CalculateStatsForRange c startHeight endHeight w
   = (Err (InsufficientSampleSize sampleSize minimum), w))
  /\ (forall (blocks : list (BlockInfo.t T)) (env' : E),
        minimum <= sampleSize ->
        GetBlockRange (calc_client c) startHeight endHeight (env w) = (Ok blocks, env') ->
        blocks <> [] ->
        validDeltas blocks < minimum ->
        exists w',
          CalculateStatsForRange c startHeight endHeight w
          = (Err (InsufficientValidTimes (validDeltas blocks) minimum), w')).
Proof.
  intros Hrange minimum sampleSize. split.
  - intros Hsmall. unfold CalculateStatsForRange.
    destruct (Z.ltb_spec endHeight startHeight); [lia|].
    fold sampleSize minimum.
    destruct (Z.ltb_spec sampleSize minimum); [reflexivity|lia].
  - intros blocks env' Hsize Hfetch Hne Hfew. unfold CalculateStatsForRange.
    destruct (Z.ltb_spec endHeight startHeight); [lia|].
    fold sampleSize minimum.
    destruct (Z.ltb_spec sampleSize minimum); [lia|].
    rewrite bind_run. unfold wrapErr, liftCall. rewrite Hfetch.
    destruct blocks as [|b rest]; [congruence|].
    rewrite bind_run. unfold make.
    replace ((0 <? 0) || (Z.of_nat (length (b :: rest)) - 1 <? 0)) with false
      by (symmetry; apply orb_false_iff; split; apply Z.ltb_ge; cbn [length]; lia).
    rewrite bind_run.
    match goal with
    | |- context [collectBlockTimes b rest ?s ?w0] =>
        destruct (collectBlockTimes_run rest b s w0) as (s' & w' & Hrun & Hlen & _);
        rewrite Hrun
    end.
    cbn [s_len] in Hlen.
    assert (Hvalid : len s' = validDeltas (b :: rest)).
    { unfold len, validDeltas. rewrite Hlen. reflexivity. }
    rewrite Hvalid.
    destruct (Z.ltb_spec (validDeltas (b :: rest)) minimum); [|lia].
    exists w'. reflexivity.
Qed.

(** C5: whatever the order in which the blocks were delivered, the sort of
    the client leaves the same blocks in ascending order of height, and the
    sequence a range fetch returns is in ascending order of height. *)
Theorem range_fetch_ascending (startHeight endHeight : Z) (n n' : Node)
    (blocks : list (BlockInfo.t T)) :
  GetBlockRange_cosmos startHeight endHeight n = (Ok blocks, n') ->
  StronglySorted Z.le (map BlockInfo.Height blocks)
  /\ forall delivered : list Block.t,
       StronglySorted Z.le (map Block.Height (sortByHeight delivered))
       /\ Permutation (sortByHeight delivered) delivered.
Proof.
  intros Hrun. split.
  - unfold GetBlockRange_cosmos in Hrun.
    destruct (endHeight <? startHeight); [discriminate|].
    destruct (launchAll _ _ _) as [[st|] n1]; [|discriminate].
    destruct (drain _ _ _ _) as [st' t'].
    destruct (errChan st'); [discriminate|].
    injection Hrun as <- _.
    rewrite toBlockInfos_heights. apply sortByHeight_sorted.
  - intros delivered. split; [apply sortByHeight_sorted|apply sortByHeight_perm].
Qed.

(** C9: with a count that is not positive the prediction fails with
    InvalidArgument and nothing is asked; with a positive count, current
    height H, typical block time t and clock reading now, it returns exactly
    count milestones, the i-th at height H + i and at the instant
    now + time.Duration(i * t seconds), each taken from now; in exact
    arithmetic that duration is i * t seconds cut to whole nanoseconds. *)
Theorem predict_next_milestones (p : BlockPredictor E T) (count : Z) (w : World E T) :
  (count <= 0 ->
   PredictNextBlocks p count w = (Err (InvalidArgument "count must be positive"), w))
  /\ (0 < count ->
      forall (H now : Z) (stats : BlockTimeStats.t T) (current : BlockInfo.t T)
             (e1 e3 e4 : E) (w2 : World E T),
        GetLatestBlockHeight (pred_client p) (env w) = (Ok H, e1) ->
        CalculateStats (pred_calculator p) {| env := e1; heap := heap w |} = (Ok stats, w2) ->
        GetBlockByHeight (pred_client p) H (env w2) = (Ok current, e3) ->
        timeNow p e3 = (now, e4) ->
        0 <= H -> H + count <= max_int64 ->
        let t := Range.Typical (BlockTimeStats.EstimatedRange stats) in
        exists r,
          PredictNextBlocks p count w = (Ok r, {| env := e4; heap := heap w2 |})
          /\ MultiBlockPrediction.CurrentHeight r = H
          /\ MultiBlockPrediction.CurrentTime r = now
          /\ length (MultiBlockPrediction.Predictions r) = Z.to_nat count
          /\ forall i, 1 <= i <= count ->
               MultiBlockPrediction.Predictions r !! Z.to_nat (i - 1)
               = Some (BlockMilestone.mk (H + i) i
                         (now + durationOf (f_mul (f_ofInt i) t))
                         (durationOf (f_mul (f_ofInt i) t))))
  /\ (forall (rt : Q -> Q) (x : Q),
        (0 <= x)%Q -> (x * 1000000000 <= inject_Z max_int64)%Q ->
        (inject_Z (@durationOf Q (Exact rt) x) <= x * 1000000000
         /\ x * 1000000000 < inject_Z (@durationOf Q (Exact rt) x) + 1)%Q).
Proof.
  split; [|split; [|intros rt x; apply durationOf_exact]].
  - intros Hcount. unfold PredictNextBlocks.
    destruct (Z.leb_spec count 0); [reflexivity|lia].
  - intros Hcount H now stats current e1 e3 e4 w2 Hheight Hstats Hblock Hnow HH Hmax t.
    unfold PredictNextBlocks.
    destruct (Z.leb_spec count 0); [lia|].
    rewrite bind_run. unfold wrapErr at 1, liftCall at 1. rewrite Hheight.
    rewrite bind_run. unfold wrapErr at 1. rewrite Hstats.
    rewrite bind_run. unfold wrapErr at 1, liftCall at 1. rewrite Hblock.
    rewrite bind_run. unfold liftCall. cbn [env heap]. rewrite Hnow.
    eexists. split; [reflexivity|].
    cbn [MultiBlockPrediction.CurrentHeight MultiBlockPrediction.CurrentTime
         MultiBlockPrediction.Predictions].
    split; [reflexivity|]. split; [reflexivity|].
    split; [rewrite length_map, length_seq; reflexivity|].
    intros i Hi.
    rewrite list_lookup_fmap.
    rewrite lookup_seq_lt by lia. cbn [fmap option_fmap option_map plus].
    unfold milestone. fold t.
    assert (Hmin : min_int64 <= 0) by (vm_compute; discriminate).
    assert (Hone : 1 <= max_int64) by (vm_compute; discriminate).
    replace (Z.of_nat (Z.to_nat (i - 1)) + 1) with i by lia.
    rewrite (wrap64_id i) by lia.
    rewrite (wrap64_id (H + i)) by lia.
    reflexivity.
Qed.

End Pipeline.

(** ** Concrete runs *)

(** C1 at a concrete input: the chain has two blocks and the range asks for
    a third. *)
Lemma range_fetch_fail_fast_witness :
  (1 <= 3 <= 3
   /\ block (chainNode [6]) 3
      = RpcError "height must be less than or equal to the current blockchain height")
  /\ (exists e, fst (GetBlockRange_cosmos (T:=float) 1 3 (chainNode [6])) = Err e)
  /\ (exists e, fst (CalculateStatsForRange (cosmosCalculator (T:=float) 3 1 0.95) 1 3
                       (chainWorld [6])) = Err e).
Proof.
  split; [split; [lia|reflexivity]|].
  destruct (range_fetch_fail_fast (E:=Node) (T:=float) 1 3 3
              "height must be less than or equal to the current blockchain height"
              (chainNode [6]) ltac:(lia) eq_refl) as (H1 & H2 & _).
  split; [exact H1|]. apply H2; reflexivity.
Defined.

(** A request that gives no error and no block is an error for
    [GetBlockByHeight]; the range fetch passes over it and returns the other
    blocks. *)
Lemma absent_block_is_skipped :
  fst (GetBlockByHeight_cosmos (T:=float) 2 (holedNode [6; 6] 2)) = Err (NilBlock 2)
  /\ exists blocks,
       fst (GetBlockRange_cosmos (T:=float) 1 3 (holedNode [6; 6] 2)) = Ok blocks
       /\ map BlockInfo.Height blocks = [1; 3].
Proof.
  split; [by_evaluation|]. eexists. split; by_evaluation.
Qed.

(** C2, as the specification states it, fails for heights below 1: the range
    [0, 1] is not refused with InvalidRange, the requests for heights 0 and 1
    are issued, and the error returned is the node's. *)
Lemma range_below_one_is_requested :
  fst (GetBlockRange_cosmos (T:=float) 0 1 (chainNode [6]))
  = Err (BlockFailed 0 (Upstream "height must be greater than 0"))
  /\ calls (snd (GetBlockRange_cosmos (T:=float) 0 1 (chainNode [6]))) = [0; 1]
  /\ ~ (fst (GetBlockRange_cosmos (T:=float) 0 1 (chainNode [6])) = Err (InvalidRange 0 1)
        /\ calls (snd (GetBlockRange_cosmos (T:=float) 0 1 (chainNode [6])))
           = calls (chainNode [6])).
Proof.
  split; [by_evaluation|]. split; [by_evaluation|].
  intros [Herr _]. vm_compute in Herr. discriminate.
Qed.

(** C2, amended, at a concrete input: the range [5, 3]. *)
Lemma inverted_range_rejected_witness :
  3 < 5
  /\ GetBlockRange_cosmos (T:=float) 5 3 (chainNode [6])
     = (Err (InvalidRange 5 3), chainNode [6])
  /\ CalculateStatsForRange (cosmosCalculator (T:=float) 3 1 0.95) 5 3 (chainWorld [6])
     = (Err (InvalidRange 5 3), chainWorld [6]).
Proof.
  split; [lia|].
  destruct (inverted_range_rejected (E:=Node) (T:=float) 5 3 ltac:(lia)) as [H1 H2].
  split; [apply H1|apply H2].
Defined.

(** C3, as the specification states it, fails after outlier removal: of the
    four valid deltas of the burst three survive the removal, fewer than the
    minimum of four, and the calculator returns a summary all the same. *)
Lemma burst_summarized_below_minimum :
  CalculatorConfig.MinSampleSize (calc_config (cosmosCalculator (T:=float) 5 4 0.95)) = 4
  /\ burst_cleaned (T:=float) = Some (map f_ofInt [1; 1; 1], 1)
  /\ (exists stats, burst_stats (T:=float) = Ok stats
        /\ BlockTimeStats.SampleSize stats = 4
        /\ BlockTimeStats.OutlierCount stats = 1)
  /\ ~ (exists e, burst_stats (T:=float) = Err e).
Proof.
  split; [by_evaluation|]. split; [by_evaluation|]. split.
  - eexists. split; [by_evaluation|]. split; reflexivity.
  - intros [e He]. vm_compute in He. discriminate.
Qed.

(** C3, amended, at concrete inputs: a range of two heights against a
    minimum of four, and a stalled chain whose six blocks give two positive
    deltas against a minimum of four. *)
Lemma insufficient_sample_rejected_witness :
  1 <= 2
  /\ CalculateStatsForRange (cosmosCalculator (T:=float) 5 4 0.95) 1 2 (chainWorld burst_deltas)
     = (Err (InsufficientSampleSize 2 4), chainWorld burst_deltas)
  /\ exists w',
       CalculateStatsForRange (cosmosCalculator (T:=float) 6 4 0.95) 1 6
         (chainWorld stalled_deltas)
       = (Err (InsufficientValidTimes 2 4), w').
Proof.
  split; [lia|]. split.
  - apply (proj1 (insufficient_sample_rejected (cosmosCalculator (T:=float) 5 4 0.95)
                    1 2 (chainWorld burst_deltas) ltac:(lia))).
    vm_compute. reflexivity.
  - destruct (GetBlockRange_cosmos (T:=float) 1 6 (chainNode stalled_deltas))
      as [[blocks|e|m] n'] eqn:Hrun;
      [|vm_compute in Hrun; discriminate|vm_compute in Hrun; discriminate].
    assert (Hblocks : validDeltas blocks = 2 /\ blocks <> []).
    { vm_compute in Hrun. injection Hrun as <- _. split; [by_evaluation|discriminate]. }
    destruct Hblocks as [Hvalid Hne].
    destruct (proj2 (insufficient_sample_rejected (cosmosCalculator (T:=float) 6 4 0.95)
                       1 6 (chainWorld stalled_deltas) ltac:(lia)) blocks n')
      as [w' Hw'].
    + vm_compute. discriminate.
    + exact Hrun.
    + exact Hne.
    + rewrite Hvalid. vm_compute. reflexivity.
    + exists w'. rewrite Hvalid in Hw'. exact Hw'.
Defined.

(** C5 at a concrete input: the eleven blocks of the skewed chain are
    delivered out of order and returned in order. *)
Lemma range_fetch_ascending_witness :
  exists blocks n',
    GetBlockRange_cosmos (T:=float) 1 11 (chainNode skewed_deltas) = (Ok blocks, n')
    /\ map BlockInfo.Height blocks = [1; 2; 3; 4; 5; 6; 7; 8; 9; 10; 11]
    /\ StronglySorted Z.le (map BlockInfo.Height blocks).
Proof.
  destruct (GetBlockRange_cosmos (T:=float) 1 11 (chainNode skewed_deltas))
    as [[blocks|e|m] n'] eqn:Hrun;
    [|vm_compute in Hrun; discriminate|vm_compute in Hrun; discriminate].
  exists blocks, n'. split; [reflexivity|]. split.
  - vm_compute in Hrun. injection Hrun as <- _. reflexivity.
  - exact (proj1 (range_fetch_ascending 1 11 (chainNode skewed_deltas) n' blocks Hrun)).
Defined.

(** C6 at a concrete input: four values, in exact arithmetic; in binary64
    the same four values give 2.5 as well. *)
Lemma percentile_half_is_median_witness :
  ([1; 2; 3; 4]%Q <> [] /\ Z.of_nat (length [1; 2; 3; 4]%Q) <= max_int64)
  /\ (@percentile Q exactly [1; 2; 3; 4] 0.5 == standardMedian [1; 2; 3; 4])%Q
  /\ percentile (map IEEE754.ofInt [1; 2; 3; 4]) (f_lit 0.5) = f_lit 2.5.
Proof.
  assert (H1 : [1; 2; 3; 4]%Q <> []) by discriminate.
  assert (H2 : Z.of_nat (length [1; 2; 3; 4]%Q) <= max_int64) by (vm_compute; discriminate).
  split; [split; assumption|]. split; [|by_evaluation].
  apply (percentile_half_is_median (fun q => q) [1; 2; 3; 4]%Q H1 H2).
Defined.



(** C9 at a concrete input, scenario C: three milestones from height 100 at
    six seconds a block. *)
Lemma predict_next_milestones_witness :
  exists r w',
    PredictNextBlocks (steadyPredictor (T:=float)) 3 (chainWorld (replicate 99 6)) = (Ok r, w')
    /\ MultiBlockPrediction.CurrentHeight r = 100
    /\ MultiBlockPrediction.Predictions r
       = [BlockMilestone.mk 101 1 (steady_now + 6000000000) 6000000000;
          BlockMilestone.mk 102 2 (steady_now + 12000000000) 12000000000;
          BlockMilestone.mk 103 3 (steady_now + 18000000000) 18000000000].
Proof.
  edestruct (proj1 (proj2 (predict_next_milestones (steadyPredictor (T:=float)) 3
                             (chainWorld (replicate 99 6)))))
    as (r & Hrun & Hheight & _).
  - lia.
  - vm_compute. reflexivity.
  - vm_compute. reflexivity.
  - vm_compute. reflexivity.
  - vm_compute. reflexivity.
  - lia.
  - vm_compute. discriminate.
  - eexists r, _. split; [exact Hrun|]. split; [exact Hheight|].
    vm_compute in Hrun. injection Hrun as <-. reflexivity.
Defined.

(** C10 at a concrete input: the deltas of scenario A. *)
Lemma input_slice_unchanged_witness :
  (s_ptr scenarioA_times < length (heap (scenarioA_world (T:=float))))%nat
  /\ slice_elems (heap (snd (removeOutliers DefaultConfig scenarioA_times
                               (scenarioA_world (T:=float))))) scenarioA_times
     = slice_elems (heap (scenarioA_world (T:=float))) scenarioA_times
  /\ slice_elems (heap (snd (calculateStatistics scenarioA_times
                               (scenarioA_world (T:=float))))) scenarioA_times
     = slice_elems (heap (scenarioA_world (T:=float))) scenarioA_times.
Proof.
  assert (H : (s_ptr scenarioA_times < length (heap (scenarioA_world (T:=float))))%nat)
    by (cbn; lia).
  split; [exact H|].
  destruct (input_slice_unchanged DefaultConfig scenarioA_times
              (scenarioA_world (T:=float)) H) as [[_ H1] [_ H2]].
  split; [exact H1|exact H2].
Defined.

(** ** The range fetch: what a run asks of the node and what it returns *)

Section FetchRuns.

Context {T : Type} `{F : Float64 T}.

Lemma finish_same_block (n n' : Node) (k : nat) (st : Fetch) :
  block n' = block n -> finish n' k st = finish n k st.
Proof. intros Hb. unfold finish. rewrite Hb. reflexivity. Qed.

Lemma acquire_keeps (P : Fetch -> Prop) (n : Node) (fuel : nat) :
  (forall k st, P st -> P (finish n k st)) ->
  forall st t, P st -> P (fst (acquire fuel n st t)).
Proof.
  intros Hfin. induction fuel as [|fuel IH]; intros st t Hst; cbn [acquire]; [exact Hst|].
  destruct (inflight st); [exact Hst|].
  destruct (_ && _); [exact Hst|]. apply IH, Hfin, Hst.
Qed.

Lemma drain_keeps (P : Fetch -> Prop) (n : Node) (fuel : nat) :
  (forall k st, P st -> P (finish n k st)) ->
  forall st t, P st -> P (fst (drain fuel n st t)).
Proof.
  intros Hfin. induction fuel as [|fuel IH]; intros st t Hst; cbn [drain]; [exact Hst|].
  destruct (inflight st); [exact Hst|]. apply IH, Hfin, Hst.
Qed.

(** An invariant of the tasks' bodies and of launching is one of the whole
    launch loop. *)
Lemma launchAll_keeps (P : list Z -> Fetch -> Prop) (n0 : Node) :
  (forall launched k st, P launched st -> P launched (finish n0 k st)) ->
  (forall launched h st, P launched st ->
     P (launched ++ [h])
       {| inflight := inflight st ++ [h]; blockChan := blockChan st;
          errChan := errChan st |}) ->
  forall hs n st launched st' n',
    same_node n0 n -> P launched st -> launchAll hs n st = (Some st', n') ->
    P (launched ++ hs) st' /\ same_node n0 n' /\ calls n' = calls n ++ hs.
Proof.
  intros Hfin Hlaunch.
  induction hs as [|h hs IH]; intros n st launched st' n' Hn Hst Hrun;
    cbn [launchAll] in Hrun.
  - injection Hrun as <- <-. rewrite !app_nil_r. auto.
  - destruct (ctxDone n h); [discriminate|].
    destruct (acquire (S (length (inflight st))) n st (tick n)) as [st1 t1] eqn:Hacq.
    assert (Hfin' : forall k s, P launched s -> P launched (finish n k s)).
    { intros k s Hs. rewrite (finish_same_block n0 n k s (proj1 Hn)). apply Hfin, Hs. }
    assert (Hst1 : P launched st1).
    { pose proof (acquire_keeps (P launched) n (S (length (inflight st))) Hfin'
                    st (tick n) Hst) as Hk.
      rewrite Hacq in Hk. exact Hk. }
    destruct (IH (with_call (with_tick n t1) h)
                {| inflight := inflight st1 ++ [h]; blockChan := blockChan st1;
                   errChan := errChan st1 |} (launched ++ [h]) st' n')
      as (H1 & H2 & H3); [exact Hn|apply Hlaunch, Hst1|exact Hrun|].
    rewrite <- app_assoc in H1. cbn [app] in H1.
    split; [exact H1|]. split; [exact H2|].
    rewrite H3. cbn [calls with_call with_tick]. rewrite <- app_assoc. reflexivity.
Qed.

Lemma same_node_refl (n : Node) : same_node n n.
Proof. repeat split. Qed.

(** *** Cancellation *)


(** What the launch loop has asked of the node when it stops, cancelled or
    not: the heights of a prefix of its list, in order, none of them one at
    which the context was done. *)
Lemma launchAll_calls (hs : list Z) :
  forall n st, exists pre,
    pre `prefix_of` hs /\ calls (snd (launchAll hs n st)) = calls n ++ pre
    /\ Forall (fun h => ctxDone n h = false) pre.
Proof.
  induction hs as [|h hs IH]; intros n st; cbn [launchAll].
  - exists []. rewrite app_nil_r. split; [apply prefix_nil|].
    split; [reflexivity|constructor].
  - destruct (ctxDone n h) eqn:Hd.
    + exists []. rewrite app_nil_r. split; [apply prefix_nil|]. split; [reflexivity|constructor].
    + destruct (acquire _ _ _ _) as [st1 t1].
      destruct (IH (with_call (with_tick n t1) h)
                  {| inflight := inflight st1 ++ [h]; blockChan := blockChan st1;
                     errChan := errChan st1 |}) as (pre & Hpre & Hcalls & Hall).
      exists (h :: pre). split; [apply prefix_cons, Hpre|].
      split; [rewrite Hcalls; cbn; rewrite <- app_assoc; reflexivity|].
      constructor; [exact Hd|exact Hall].
Qed.


(** *** The semaphore and the barrier *)



(** *** Errors and blocks *)

Lemma finish_running (n : Node) (launched : list Z) (k : nat) (st : Fetch) :
  running_launched launched st -> running_launched launched (finish n k st).
Proof.
  intros Hrun h Hh. apply Hrun. unfold finish in Hh.
  destruct (inflight st !! k) as [h'|]; [|exact Hh].
  destruct (block n h'); cbn in Hh; apply list_elem_of_delete_inv in Hh; exact Hh.
Qed.

Lemma finish_error_named (n : Node) (launched : list Z) (k : nat) (st : Fetch) :
  running_launched launched st -> error_named n launched st ->
  error_named n launched (finish n k st).
Proof.
  intros Hrun Hnamed e He. unfold finish in He.
  destruct (inflight st !! k) as [h|] eqn:Hk; [|apply Hnamed, He].
  destruct (block n h) as [msg| |b] eqn:Hb; cbn in He; try (apply Hnamed, He).
  destruct (errChan st) as [e0|] eqn:He0; [apply Hnamed; congruence|].
  injection He as <-. exists h, msg. split; [|split; [exact Hb|reflexivity]].
  apply Hrun. apply list_elem_of_lookup. exists k. exact Hk.
Qed.

Lemma finish_delivering (n : Node) (launched : list Z) (k : nat) (st : Fetch) :
  delivering n launched st -> delivering n launched (finish n k st).
Proof.
  unfold delivering. intros Hdel. unfold finish.
  destruct (inflight st !! k) as [h|] eqn:Hk; [|exact Hdel].
  etransitivity; [|exact Hdel].
  assert (Hl : Permutation (omap (blockOf n) (inflight st))
                 (omap (blockOf n) (h :: delete k (inflight st))))
    by (apply omap_Permutation, delete_Permutation, Hk).
  rewrite Hl. cbn [omap list_omap]. unfold blockOf at 2 4.
  destruct (block n h); cbn [blockChan inflight]; try reflexivity.
  rewrite <- app_assoc. reflexivity.
Qed.

(** What the range fetch holds when the barrier has passed. *)
Lemma fetch_state (startHeight endHeight : Z) (n n1 : Node) (st : Fetch) :
  launchAll (heights startHeight endHeight) n
    {| inflight := []; blockChan := []; errChan := None |} = (Some st, n1) ->
  let st' := fst (drain (length (inflight st)) n1 st (tick n1)) in
  same_node n n1 /\ calls n1 = calls n ++ heights startHeight endHeight
  /\ error_named n (heights startHeight endHeight) st'
  /\ Permutation (blockChan st') (omap (blockOf n) (heights startHeight endHeight)).
Proof.
  intros Hrun st'.
  destruct (launchAll_keeps
              (fun launched s => running_launched launched s
                                 /\ error_named n launched s /\ delivering n launched s) n)
    with (hs := heights startHeight endHeight) (n := n)
         (st := {| inflight := []; blockChan := []; errChan := None |})
         (launched := @nil Z) (st' := st) (n' := n1)
    as ((Hr & He & Hd) & Hsame & Hcalls).
  - intros launched k s (Hr & He & Hd).
    split; [apply finish_running, Hr|].
    split; [apply finish_error_named; assumption|apply finish_delivering, Hd].
  - intros launched h s (Hr & He & Hd). split; [|split].
    + intros h' Hh'. cbn in Hh'. apply elem_of_app in Hh' as [Hh'|Hh'];
        apply elem_of_app; [left; apply Hr, Hh'|right; exact Hh'].
    + intros e Hs. destruct (He e Hs) as (h' & msg & Hin & Hb & Heq).
      exists h', msg. split; [apply elem_of_app; left; exact Hin|]. split; assumption.
    + unfold delivering in *. cbn [blockChan inflight].
      rewrite !omap_app, app_assoc, Hd. reflexivity.
  - apply same_node_refl.
  - split; [|split].
    + intros h Hh. exact Hh.
    + intros e Hs. discriminate.
    + unfold delivering. reflexivity.
  - exact Hrun.
  - cbn [app] in *.
    assert (Hfin : forall k s,
              running_launched (heights startHeight endHeight) s
              /\ error_named n (heights startHeight endHeight) s
              /\ delivering n (heights startHeight endHeight) s ->
              running_launched (heights startHeight endHeight) (finish n1 k s)
              /\ error_named n (heights startHeight endHeight) (finish n1 k s)
              /\ delivering n (heights startHeight endHeight) (finish n1 k s)).
    { intros k s (Hr' & He' & Hd'). rewrite (finish_same_block n n1 k s (proj1 Hsame)).
      split; [apply finish_running, Hr'|].
      split; [apply finish_error_named; assumption|apply finish_delivering, Hd']. }
    pose proof (drain_keeps _ n1 (length (inflight st)) Hfin st (tick n1)
                  (conj Hr (conj He Hd))) as (_ & He' & Hd').
    pose proof (drain_all n1 (length (inflight st)) st (tick n1) (Nat.le_refl _)) as Hnone.
    fold st' in He', Hd', Hnone.
    split; [exact Hsame|]. split; [exact Hcalls|]. split; [exact He'|].
    unfold delivering in Hd'. rewrite Hnone in Hd'. cbn [omap list_omap] in Hd'.
    rewrite app_nil_r in Hd'. exact Hd'.
Qed.

Lemma launchAll_not_cancelled (hs : list Z) :
  forall n st, Forall (fun h => ctxDone n h = false) hs ->
    exists st' n', launchAll hs n st = (Some st', n').
Proof.
  induction hs as [|h hs IH]; intros n st Hall; cbn [launchAll]; [eauto|].
  inversion Hall as [|? ? Hh Hhs]; subst. rewrite Hh.
  destruct (acquire _ _ _ _) as [st1 t1]. apply IH. exact Hhs.
Qed.

Lemma heights_spec (startHeight endHeight h : Z) :
  h ∈ heights startHeight endHeight <-> startHeight <= h <= endHeight.
Proof.
  split; [|apply elem_of_heights].
  unfold heights. intros Hin. apply list_elem_of_In, in_map_iff in Hin as (i & <- & Hi).
  apply in_seq in Hi. lia.
Qed.

Lemma heights_not_cancelled (startHeight endHeight : Z) (n : Node) :
  (forall h, startHeight <= h <= endHeight -> ctxDone n h = false) ->
  Forall (fun h => ctxDone n h = false) (heights startHeight endHeight).
Proof.
  intros Hctx. apply List.Forall_forall. intros h Hh.
  apply Hctx, heights_spec, list_elem_of_In, Hh.
Qed.


(** *** A fetch that succeeds *)

Lemma heights_from_sorted (startHeight : Z) (k : nat) :
  forall a, StronglySorted Z.le (map (fun i => startHeight + Z.of_nat i) (seq a k)).
Proof.
  induction k as [|k IH]; intros a; cbn; constructor; [apply IH|].
  apply List.Forall_forall. intros x Hx. apply in_map_iff in Hx as (i & <- & Hi).
  apply in_seq in Hi. lia.
Qed.

Lemma heights_sorted (startHeight endHeight : Z) :
  StronglySorted Z.le (heights startHeight endHeight).
Proof. apply heights_from_sorted. Qed.

Lemma sorted_by_height (a : list Block.t) :
  StronglySorted Z.le (map Block.Height a) ->
  StronglySorted (fun x y => Block.Height x <= Block.Height y) a.
Proof.
  induction a as [|x a IH]; cbn; intros Hs; [constructor|].
  inversion Hs as [|? ? Ha Hx]; subst. constructor; [apply IH, Ha|].
  rewrite List.Forall_forall in *. intros y Hy. apply Hx, in_map, Hy.
Qed.

Lemma omap_blockOf_chain (n : Node) (chain : Z -> Block.t) (hs : list Z) :
  Forall (fun h => block n h = RpcBlock (chain h)) hs ->
  omap (blockOf n) hs = map chain hs.
Proof.
  induction 1 as [|h hs Hh Hhs IH]; cbn; [reflexivity|].
  unfold blockOf at 1. rewrite Hh, IH. reflexivity.
Qed.

(** X4: when the context is not done and the node has, for every height of
    the range, the block of that height, the range fetch returns exactly
    those blocks in ascending order of height, each with the seconds since
    the one before it, whatever the order in which the tasks finished. *)
Theorem range_fetch_complete (startHeight endHeight : Z) (n : Node) (chain : Z -> Block.t) :
  startHeight <= endHeight ->
  (forall h, startHeight <= h <= endHeight -> ctxDone n h = false) ->
  (forall h, startHeight <= h <= endHeight ->
     block n h = RpcBlock (chain h) /\ Block.Height (chain h) = h) ->
  fst (GetBlockRange_cosmos (T:=T) startHeight endHeight n)
  = Ok (toBlockInfos None (map chain (heights startHeight endHeight))).
Proof.
  intros Hrange Hctx Hchain. unfold GetBlockRange_cosmos.
  destruct (Z.ltb_spec endHeight startHeight) as [Hlt|_]; [lia|].
  destruct (launchAll_not_cancelled (heights startHeight endHeight) n
              {| inflight := []; blockChan := []; errChan := None |}
              (heights_not_cancelled _ _ _ Hctx)) as (st & n1 & Hrun).
  rewrite Hrun.
  destruct (fetch_state startHeight endHeight n n1 st Hrun) as (_ & _ & He & Hd).
  destruct (drain _ _ _ _) as [st' t']. cbn [fst] in He, Hd.
  destruct (errChan st') as [e0|] eqn:He0.
  { destruct (He e0 He0) as (h & msg & Hin & Hb & _).
    apply heights_spec in Hin. destruct (Hchain h Hin) as [Hb' _]. congruence. }
  cbn [fst]. do 2 f_equal.
  rewrite (omap_blockOf_chain n chain) in Hd.
  2:{ apply List.Forall_forall. intros h Hh.
      apply list_elem_of_In, heights_spec in Hh. apply (Hchain h Hh). }
  apply (StronglySorted_unique_strong (fun x y => Block.Height x <= Block.Height y)).
  - intros x1 x2 Hx1 Hx2 H12 H21.
    rewrite sortByHeight_perm, Hd in Hx1.
    apply list_elem_of_In, in_map_iff in Hx1 as (h1 & <- & Hh1).
    apply list_elem_of_In, in_map_iff in Hx2 as (h2 & <- & Hh2).
    apply list_elem_of_In, heights_spec in Hh1, Hh2.
    destruct (Hchain h1 Hh1) as [_ E1]. destruct (Hchain h2 Hh2) as [_ E2].
    f_equal. lia.
  - apply sorted_by_height, sortByHeight_sorted.
  - apply sorted_by_height. rewrite map_map.
    rewrite (map_ext_in _ (fun h => h)).
    + rewrite map_id. apply heights_sorted.
    + intros h Hh. apply list_elem_of_In, heights_spec in Hh. apply (Hchain h Hh).
  - rewrite sortByHeight_perm. exact Hd.
Qed.




End FetchRuns.

(** ** Exact arithmetic: percentiles and summaries of any series *)

Section ExactSummaries.

Context {E : Type}.
Variable rt : Q -> Q.
#[local] Instance exact_sums : Float64 Q := Exact rt.

Lemma ascending_ends (s : list Q) (i : nat) :
  ascending s -> (i < length s)%nat ->
  (nth 0 s 0 <= nth i s 0 /\ nth i s 0 <= nth (length s - 1) s 0)%Q.
Proof. intros Hasc Hi. split; apply Hasc; lia. Qed.

Lemma percentile_between (s : list Q) (p : Q) :
  ascending s -> s <> [] -> Z.of_nat (length s) <= max_int64 ->
  (nth 0 s 0 <= percentile s p /\ percentile s p <= nth (length s - 1) s 0)%Q.
Proof.
  intros Hasc Hne Hlen.
  assert (Hn : (1 <= length s)%nat) by (destruct s; [congruence|cbn; lia]).
  destruct (Qlt_le_dec 0 p) as [Hp0|Hp0]; [destruct (Qlt_le_dec p 1) as [Hp1|Hp1]|].
  - rewrite (percentile_rank rt s p Hne Hlen Hp0 Hp1).
    set (m := inject_Z (Z.of_nat (length s) - 1)).
    assert (Hm : (0 <= m)%Q).
    { unfold m. change 0%Q with (inject_Z 0). rewrite <- Zle_Qle. lia. }
    assert (Hx0 : (0 <= p * m)%Q) by (apply Qmult_le_0_compat; lra).
    assert (Hx1 : (p * m <= m)%Q).
    { rewrite <- (Qmult_1_l m) at 2. apply Qmult_le_compat_r; lra. }
    destruct (rank_value_bounds s (p * m)%Q Hasc Hx0 Hx1) as [Hlo Hhi].
    assert (Hf0 : 0 <= Qfloor (p * m)).
    { change 0 with (Qfloor 0). apply Qfloor_resp_le. exact Hx0. }
    assert (Hc1 : Qceiling (p * m) <= Z.of_nat (length s) - 1).
    { rewrite <- (Qceiling_Z (Z.of_nat (length s) - 1)). apply Qceiling_resp_le. exact Hx1. }
    assert (Hfc : Qfloor (p * m) <= Qceiling (p * m)).
    { destruct (Qceiling_cases (p * m)) as [[_ Hc]|[_ Hc]]; lia. }
    split.
    + apply Qle_trans with (nth (Z.to_nat (Qfloor (p * m))) s 0%Q); [|exact Hlo].
      apply Hasc. lia.
    + apply Qle_trans with (nth (Z.to_nat (Qceiling (p * m))) s 0%Q); [exact Hhi|].
      apply Hasc. lia.
  - unfold percentile.
    replace (length s =? 0)%nat with false by (symmetry; apply Nat.eqb_neq; lia).
    cbn [f_leb f_lit exact_sums exact_arith Exact].
    destruct (Qle_bool p 0); unfold at_index; cbn [f_lit exact_sums exact_arith Exact].
    + change (Z.to_nat 0) with 0%nat. split; [apply Qle_refl|apply Hasc; lia].
    + replace (Qle_bool 1 p) with true by (symmetry; apply Qle_bool_iff; exact Hp1).
      replace (Z.to_nat (Z.of_nat (length s) - 1)) with (length s - 1)%nat by lia.
      split; [apply Hasc; lia|apply Qle_refl].
  - unfold percentile.
    replace (length s =? 0)%nat with false by (symmetry; apply Nat.eqb_neq; lia).
    cbn [f_leb f_lit exact_sums exact_arith Exact].
    replace (Qle_bool p 0) with true by (symmetry; apply Qle_bool_iff; exact Hp0).
    unfold at_index; cbn [f_lit exact_sums exact_arith Exact].
    change (Z.to_nat 0) with 0%nat. split; [apply Qle_refl|apply Hasc; lia].
Qed.

Lemma percentile_low (s : list Q) (p : Q) :
  s <> [] -> (p <= 0)%Q -> percentile s p = nth 0 s 0%Q.
Proof.
  intros Hne Hp. unfold percentile.
  replace (length s =? 0)%nat with false
    by (symmetry; apply Nat.eqb_neq; destruct s; [congruence|cbn; lia]).
  cbn [f_leb f_lit exact_sums exact_arith Exact].
  replace (Qle_bool p 0) with true by (symmetry; apply Qle_bool_iff; exact Hp).
  reflexivity.
Qed.

Lemma percentile_high (s : list Q) (p : Q) :
  s <> [] -> (0 < p)%Q -> (1 <= p)%Q -> percentile s p = nth (length s - 1) s 0%Q.
Proof.
  intros Hne Hp0 Hp. unfold percentile.
  replace (length s =? 0)%nat with false
    by (symmetry; apply Nat.eqb_neq; destruct s; [congruence|cbn; lia]).
  cbn [f_leb f_lit exact_sums exact_arith Exact].
  replace (Qle_bool p 0) with false by (symmetry; apply Qle_bool_false; exact Hp0).
  replace (Qle_bool 1 p) with true by (symmetry; apply Qle_bool_iff; exact Hp).
  unfold at_index. f_equal. lia.
Qed.

Lemma percentile_mono (s : list Q) (p q : Q) :
  ascending s -> s <> [] -> Z.of_nat (length s) <= max_int64 -> (p <= q)%Q ->
  (percentile s p <= percentile s q)%Q.
Proof.
  intros Hasc Hne Hlen Hpq.
  destruct (percentile_between s p Hasc Hne Hlen) as [Hp1 Hp2].
  destruct (percentile_between s q Hasc Hne Hlen) as [Hq1 Hq2].
  destruct (Qlt_le_dec 0 p) as [Hp0|Hp0].
  - destruct (Qlt_le_dec q 1) as [Hq|Hq].
    + rewrite (percentile_rank rt s p Hne Hlen Hp0) by lra.
      rewrite (percentile_rank rt s q Hne Hlen) by lra.
      assert (Hm : (0 <= inject_Z (Z.of_nat (length s) - 1))%Q).
      { change 0%Q with (inject_Z 0). rewrite <- Zle_Qle.
        destruct s; [congruence|cbn [length]; lia]. }
      set (m := inject_Z (Z.of_nat (length s) - 1)) in *.
      apply rank_value_mono; [exact Hasc| | |].
      * apply Qmult_le_0_compat; lra.
      * apply Qmult_le_compat_r; lra.
      * assert (Hx : (q * m <= 1 * m)%Q) by (apply Qmult_le_compat_r; lra).
        rewrite Qmult_1_l in Hx. exact Hx.
    + rewrite (percentile_high s q Hne) by lra. exact Hp2.
  - rewrite (percentile_low s p Hne Hp0). exact Hq1.
Qed.

(** X6: in exact arithmetic the percentile of an ascending non-empty
    sequence lies between its first and its last element for every p, is
    the first element for p <= 0 and the last for p >= 1, and does not
    decrease when p grows. *)
Theorem percentile_monotone (s : list Q) (p q : Q) :
  ascending s -> s <> [] -> Z.of_nat (length s) <= max_int64 -> (p <= q)%Q ->
  (nth 0 s 0 <= percentile s p)%Q
  /\ (percentile s p <= percentile s q)%Q
  /\ (percentile s q <= nth (length s - 1) s 0)%Q
  /\ ((p <= 0)%Q -> percentile s p = nth 0 s 0%Q)
  /\ ((1 <= q)%Q -> percentile s q = nth (length s - 1) s 0%Q).
Proof.
  intros Hasc Hne Hlen Hpq.
  split; [apply percentile_between; assumption|].
  split; [apply percentile_mono; assumption|].
  split; [apply percentile_between; assumption|].
  split; [apply percentile_low; exact Hne|].
  intros Hq. destruct (Qlt_le_dec 0 q) as [Hq0|Hq0].
  - apply percentile_high; assumption.
  - exfalso. lra.
Qed.

(** *** The summary of a series *)

Lemma sum_between (a b : Q) (xs : list Q) :
  (forall x, In x xs -> (a <= x /\ x <= b)%Q) ->
  forall acc,
    (acc + inject_Z (Z.of_nat (length xs)) * a <= fold_left Qplus xs acc
     /\ fold_left Qplus xs acc <= acc + inject_Z (Z.of_nat (length xs)) * b)%Q.
Proof.
  induction xs as [|x xs IH]; intros Hin acc.
  - cbn [fold_left length Z.of_nat]. change (inject_Z (Z.of_nat 0)) with 0%Q. split; lra.
  - cbn [fold_left length]. rewrite Nat2Z.inj_succ. unfold Z.succ. rewrite inject_Z_plus.
    destruct (IH (fun y Hy => Hin y (or_intror Hy)) (acc + x)%Q) as [H1 H2].
    destruct (Hin x (or_introl eq_refl)) as [Ha Hb].
    change (inject_Z 1) with 1%Q.
    set (k := inject_Z (Z.of_nat (length xs))) in *.
    split; lra.
Qed.

(** The summary of a non-empty series: the order statistics in their order,
    the mean between the extremes, and the extremes being elements that
    bound every element. *)
Lemma summaryOf_chain (xs : list Q) :
  xs <> [] -> Z.of_nat (length xs) <= max_int64 ->
  let st := summaryOf xs in
  (BlockTimeStats.Min st <= BlockTimeStats.P25 st
   /\ BlockTimeStats.P25 st <= BlockTimeStats.Median st
   /\ BlockTimeStats.Median st <= BlockTimeStats.P75 st
   /\ BlockTimeStats.P75 st <= BlockTimeStats.P95 st
   /\ BlockTimeStats.P95 st <= BlockTimeStats.P99 st
   /\ BlockTimeStats.P99 st <= BlockTimeStats.Max st
   /\ BlockTimeStats.Min st <= BlockTimeStats.Mean st
   /\ BlockTimeStats.Mean st <= BlockTimeStats.Max st)%Q
  /\ (forall x, In x xs -> (BlockTimeStats.Min st <= x /\ x <= BlockTimeStats.Max st)%Q)
  /\ In (BlockTimeStats.Min st) xs /\ In (BlockTimeStats.Max st) xs.
Proof.
  intros Hne Hlen st. subst st. unfold summaryOf.
  cbn [BlockTimeStats.Min BlockTimeStats.P25 BlockTimeStats.Median BlockTimeStats.P75
       BlockTimeStats.P95 BlockTimeStats.P99 BlockTimeStats.Max BlockTimeStats.Mean].
  set (sv := sortedFloat64s xs).
  assert (Hlsv : length sv = length xs) by apply sortedFloat64s_length.
  assert (Hsv : sv <> []) by (intros H0; rewrite H0 in Hlsv; destruct xs; [congruence|discriminate]).
  assert (Hn : (1 <= length sv)%nat) by (destruct sv; [congruence|cbn; lia]).
  assert (Hasc : ascending sv) by apply sorted_ascending, (sortedFloat64s_sorted rt).
  assert (Hlen' : Z.of_nat (length sv) <= max_int64) by (rewrite Hlsv; exact Hlen).
  unfold at_index. cbn [f_lit f_add f_div f_ofInt exact_sums Exact].
  change (Z.to_nat 0) with 0%nat.
  replace (Z.to_nat (Z.of_nat (length xs) - 1)) with (length sv - 1)%nat by lia.
  assert (Hall : forall x, In x xs -> (nth 0 sv 0 <= x /\ x <= nth (length sv - 1) sv 0)%Q).
  { intros x Hx.
    apply (Permutation_in _ (Permutation_sym (sortedFloat64s_perm xs))) in Hx.
    destruct (In_nth _ _ 0%Q Hx) as (i & Hi & Hnth). rewrite <- Hnth.
    apply ascending_ends; assumption. }
  assert (Hmin : In (nth 0 sv 0%Q) xs).
  { apply (Permutation_in _ (sortedFloat64s_perm xs)). apply nth_In.
    change (0 < length sv)%nat. lia. }
  assert (Hmax : In (nth (length sv - 1) sv 0%Q) xs).
  { apply (Permutation_in _ (sortedFloat64s_perm xs)). apply nth_In.
    change (length sv - 1 < length sv)%nat. lia. }
  split; [|split; [exact Hall|split; assumption]].
  destruct (sum_between _ _ xs Hall 0%Q) as [Hs1 Hs2].
  assert (Hk : (0 < inject_Z (Z.of_nat (length xs)))%Q).
  { change 0%Q with (inject_Z 0). rewrite <- Zlt_Qlt. lia. }
  split; [apply (percentile_between sv); assumption|].
  split; [apply percentile_mono; try assumption; lra|].
  split; [apply percentile_mono; try assumption; lra|].
  split; [apply percentile_mono; try assumption; lra|].
  split; [apply percentile_mono; try assumption; lra|].
  split; [apply (percentile_between sv); assumption|].
  split.
  - apply Qle_shift_div_l; [exact Hk|]. lra.
  - apply Qle_shift_div_r; [exact Hk|]. lra.
Qed.

(** X7: in exact arithmetic the summary of a non-empty series has
    Min <= P25 <= Median <= P75 <= P95 <= P99 <= Max and Min <= Mean <= Max,
    and Min and Max are elements of the series that bound every element. *)
Theorem summary_ordered (times : Slice) (w : World E Q) :
  length (slice_elems (heap w) times) = s_len times ->
  (0 < s_len times)%nat -> Z.of_nat (s_len times) <= max_int64 ->
  exists stats w',
    calculateStatistics times w = (Ok stats, w')
    /\ (BlockTimeStats.Min stats <= BlockTimeStats.P25 stats
        /\ BlockTimeStats.P25 stats <= BlockTimeStats.Median stats
        /\ BlockTimeStats.Median stats <= BlockTimeStats.P75 stats
        /\ BlockTimeStats.P75 stats <= BlockTimeStats.P95 stats
        /\ BlockTimeStats.P95 stats <= BlockTimeStats.P99 stats
        /\ BlockTimeStats.P99 stats <= BlockTimeStats.Max stats
        /\ BlockTimeStats.Min stats <= BlockTimeStats.Mean stats
        /\ BlockTimeStats.Mean stats <= BlockTimeStats.Max stats)%Q
    /\ (forall x, In x (slice_elems (heap w) times) ->
          (BlockTimeStats.Min stats <= x /\ x <= BlockTimeStats.Max stats)%Q)
    /\ In (BlockTimeStats.Min stats) (slice_elems (heap w) times)
    /\ In (BlockTimeStats.Max stats) (slice_elems (heap w) times).
Proof.
  intros Hlen Hpos Hmax.
  rewrite calculateStatistics_run by assumption.
  eexists _, _. split; [reflexivity|].
  apply summaryOf_chain.
  - intros H0. rewrite H0 in Hlen. cbn in Hlen. lia.
  - rewrite Hlen. exact Hmax.
Qed.

(** The estimated range of statistics in their order. *)
Lemma calculateRange_within (c : CalculatorConfig.t Q) (times : Slice)
    (st : BlockTimeStats.t Q) :
  (0 < s_len times)%nat ->
  (0 <= BlockTimeStats.Min st)%Q ->
  (BlockTimeStats.Min st <= BlockTimeStats.P25 st)%Q ->
  (BlockTimeStats.P25 st <= BlockTimeStats.P75 st)%Q ->
  (BlockTimeStats.P75 st <= BlockTimeStats.P95 st)%Q ->
  (0 <= CalculatorConfig.ConfidenceLevel c)%Q ->
  (BlockTimeStats.Min st <= Range.Lower (calculateRange c times st))%Q
  /\ (Range.Lower (calculateRange c times st) <= Range.Upper (calculateRange c times st))%Q
  /\ (Range.Upper (calculateRange c times st) <= BlockTimeStats.P95 st)%Q
  /\ ((CalculatorConfig.ConfidenceLevel c < 0.95)%Q ->
      (Range.Upper (calculateRange c times st) - Range.Lower (calculateRange c times st)
       == (Range.Upper (calculateRange DefaultConfig times st)
           - Range.Lower (calculateRange DefaultConfig times st))
          * (CalculatorConfig.ConfidenceLevel c / 0.95))%Q).
Proof.
  intros Hnz H0 H1 H24 H4 Hconf.
  unfold calculateRange, len.
  replace (Z.of_nat (s_len times) =? 0) with false by (symmetry; apply Z.eqb_neq; lia).
  cbn [f_ltb f_max f_min f_sub f_add f_mul f_div f_lit exact_sums Exact DefaultConfig
       CalculatorConfig.ConfidenceLevel].
  replace (ExactQ.ltb 0.95 0.95) with false by reflexivity.
  set (lo := ExactQ.max (BlockTimeStats.P25 st
                         - 0.5 * (BlockTimeStats.P75 st - BlockTimeStats.P25 st))
                        (BlockTimeStats.Min st)).
  set (hi := ExactQ.min (BlockTimeStats.P75 st
                         + 0.5 * (BlockTimeStats.P75 st - BlockTimeStats.P25 st))
                        (BlockTimeStats.P95 st)).
  assert (Hlo1 : (BlockTimeStats.Min st <= lo)%Q) by apply max_ge_r.
  assert (Hlo2 : (lo <= BlockTimeStats.P25 st)%Q) by (apply max_lub; lra).
  assert (Hhi1 : (BlockTimeStats.P75 st <= hi)%Q) by (apply min_glb; lra).
  assert (Hhi2 : (hi <= BlockTimeStats.P95 st)%Q).
  { unfold hi, ExactQ.min. destruct (ExactQ.ltb _ _) eqn:Hlt; [|apply Qle_refl].
    unfold ExactQ.ltb in Hlt. apply negb_true_iff, Qle_bool_false in Hlt.
    apply Qlt_le_weak. exact Hlt. }
  assert (Hmax0 : forall x, (0 <= x)%Q -> (ExactQ.max x 0 == x)%Q).
  { intros x Hx. unfold ExactQ.max, ExactQ.ltb.
    destruct (Qle_bool x 0) eqn:Hx0; cbn [negb]; [|reflexivity].
    apply Qle_bool_iff in Hx0. lra. }
  set (cl := CalculatorConfig.ConfidenceLevel c) in *.
  destruct (ExactQ.ltb cl 0.95) eqn:Hc; cbn [Range.Lower Range.Upper];
    unfold ExactQ.ltb in Hc.
  2:{ apply negb_false_iff, Qle_bool_iff in Hc. rewrite (Hmax0 lo) by lra.
      split; [exact Hlo1|]. split; [lra|]. split; [exact Hhi2|].
      intros Hlt. lra. }
  apply negb_true_iff, Qle_bool_false in Hc.
  assert (Hf0 : (0 <= cl / 0.95)%Q) by (apply Qle_shift_div_l; lra).
  assert (Hf1 : (cl / 0.95 <= 1)%Q) by (apply Qle_shift_div_r; lra).
  set (f := (cl / 0.95)%Q) in *.
  set (adj := ((hi - lo) * (1 - f) / 2)%Q).
  assert (Hwf : (0 <= (hi - lo) * f)%Q) by (apply Qmult_le_0_compat; lra).
  assert (Hadj : (2 * adj == (hi - lo) - (hi - lo) * f)%Q) by (unfold adj; field).
  assert (Hwg : (0 <= (hi - lo) * (1 - f))%Q) by (apply Qmult_le_0_compat; lra).
  assert (Hadj' : (2 * adj == (hi - lo) * (1 - f))%Q) by (unfold adj; field).
  set (wf := ((hi - lo) * f)%Q) in *.
  set (wg := ((hi - lo) * (1 - f))%Q) in *.
  assert (Hadj0 : (0 <= adj)%Q) by lra.
  rewrite (Hmax0 (lo + adj)%Q) by lra.
  rewrite (Hmax0 lo) by lra.
  split; [lra|]. split; [lra|]. split; [lra|].
  intros _. change (hi - adj - (lo + adj) == wf)%Q. lra.
Qed.

(** X8: in exact arithmetic, for a series without negative values and a
    confidence level that is not negative, the estimated range satisfies
    Min <= Lower <= Upper <= P95; below 0.95 its width is the width of the
    range at 0.95 scaled by confidence / 0.95. *)
Theorem estimated_range_within (c : CalculatorConfig.t Q) (times : Slice)
    (w : World E Q) :
  length (slice_elems (heap w) times) = s_len times ->
  Z.of_nat (s_len times) <= max_int64 ->
  Forall (Qle 0) (slice_elems (heap w) times) ->
  (0 <= CalculatorConfig.ConfidenceLevel c)%Q ->
  exists stats w',
    calculateStatistics times w = (Ok stats, w')
    /\ (BlockTimeStats.Min stats <= Range.Lower (calculateRange c times stats))%Q
    /\ (Range.Lower (calculateRange c times stats)
        <= Range.Upper (calculateRange c times stats))%Q
    /\ (Range.Upper (calculateRange c times stats) <= BlockTimeStats.P95 stats)%Q
    /\ ((CalculatorConfig.ConfidenceLevel c < 0.95)%Q ->
        (Range.Upper (calculateRange c times stats)
         - Range.Lower (calculateRange c times stats)
         == (Range.Upper (calculateRange DefaultConfig times stats)
             - Range.Lower (calculateRange DefaultConfig times stats))
            * (CalculatorConfig.ConfidenceLevel c / 0.95))%Q).
Proof.
  intros Hlen Hmax Hpos Hconf.
  destruct (Nat.eq_dec (s_len times) 0%nat) as [Hz|Hnz].
  - exists zeroStats, w. unfold calculateStatistics, calculateRange, len.
    rewrite Hz. change (Z.of_nat 0 =? 0) with true. cbv iota. split; [reflexivity|].
    unfold zeroStats, zeroRange.
    cbn [BlockTimeStats.Min BlockTimeStats.P95 Range.Lower Range.Upper f_lit exact_sums Exact].
    split; [apply Qle_refl|]. split; [apply Qle_refl|]. split; [apply Qle_refl|].
    intros _. field.
  - rewrite calculateStatistics_run by (assumption || lia).
    eexists _, _. split; [reflexivity|].
    set (xs := slice_elems (heap w) times) in *.
    assert (Hne : xs <> []) by (intros H0; rewrite H0 in Hlen; cbn in Hlen; lia).
    destruct (summaryOf_chain xs Hne) as ((H1 & H2 & H3 & H4 & H5 & H6 & H7 & H8) & _ & Hin & _);
      [rewrite Hlen; exact Hmax|].
    assert (H0 : (0 <= BlockTimeStats.Min (summaryOf xs))%Q).
    { rewrite List.Forall_forall in Hpos. apply Hpos, Hin. }
    apply calculateRange_within; [lia|exact H0|exact H1|lra|exact H4|exact Hconf].
Qed.

(** *** Time differences *)

Lemma durationSeconds_exact (d : Z) :
  (durationSeconds d == inject_Z d / 1000000000)%Q.
Proof.
  unfold durationSeconds. cbn [f_add f_ofInt f_div f_lit exact_sums Exact].
  rewrite (Z.quot_rem' d 1000000000) at 3.
  rewrite inject_Z_plus, inject_Z_mult.
  change (inject_Z 1000000000) with 1000000000%Q.
  change 1e9%Q with 1000000000%Q.
  field.
Qed.

Lemma positive_seconds (t u : Z) :
  f_ltb (f_lit 0) (durationSeconds (timeSub t u)) = (u <? t).
Proof.
  cbn [f_ltb f_lit exact_sums Exact]. unfold ExactQ.ltb.
  assert (Hsign : 0 < timeSub t u <-> u < t).
  { unfold timeSub, min_int64, max_int64.
    destruct (Z.ltb_spec (t - u) (- 2 ^ 63)); [lia|].
    destruct (Z.ltb_spec (2 ^ 63 - 1) (t - u)); lia. }
  assert (Hq : forall d, (durationSeconds d <= 0)%Q <-> d <= 0).
  { intros d. rewrite durationSeconds_exact.
    assert (Hx : (inject_Z d == inject_Z d / 1000000000 * 1000000000)%Q) by field.
    rewrite (Zle_Qle d 0). change (inject_Z 0) with 0%Q.
    set (x := inject_Z d) in *. set (y := (x / 1000000000)%Q) in *.
    split; intros Hd; lra. }
  destruct (Z.ltb_spec u t) as [Hlt|Hge].
  - apply negb_true_iff, Qle_bool_false.
    apply Qnot_le_lt. intros Hle. apply (proj1 (Hq (timeSub t u))) in Hle. apply Hsign in Hlt. lia.
  - apply negb_false_iff, Qle_bool_iff, (proj2 (Hq (timeSub t u))).
    destruct (Z.lt_ge_cases 0 (timeSub t u)) as [Hpos|Hnp]; [|exact Hnp].
    apply Hsign in Hpos. lia.
Qed.

(** X9: in exact arithmetic a duration in seconds is the count of
    nanoseconds divided by 10^9, and the valid deltas of a fetched sequence
    of blocks are the steps to a strictly later timestamp: a step to an
    equal or an earlier timestamp is not counted. *)
Theorem valid_deltas_are_later_steps (prev : BlockInfo.t Q) (rest : list (BlockInfo.t Q)) :
  (forall d, (durationSeconds d == inject_Z d / 1000000000)%Q)
  /\ validDeltas (prev :: rest)
     = Z.of_nat (laterSteps (BlockInfo.Time prev) (map BlockInfo.Time rest)).
Proof.
  split; [exact durationSeconds_exact|].
  unfold validDeltas. f_equal. revert prev.
  induction rest as [|b rest IH]; intros prev; [reflexivity|].
  cbn [positiveDeltas laterSteps map]. rewrite positive_seconds, IH. reflexivity.
Qed.

End ExactSummaries.

(** ** The calculator: what its results account for *)

Section CalculatorRuns.

Context {E T : Type} `{F : Float64 T}.

Lemma safe_forRangeFrom_at {A} h0 (I : nat -> A -> Prop) (s : Slice)
    (body : nat -> T -> A -> M E T A) (n : nat) :
  (forall i v acc, I i acc -> safe (E:=E) (T:=T) h0 (I (S i)) (body i v acc)) ->
  forall i acc, I i acc ->
    safe (E:=E) (T:=T) h0 (I (i + n)%nat) (forRangeFrom s body i n acc).
Proof.
  intros Hbody. induction n as [|n IH]; intros i acc Hacc; cbn [forRangeFrom].
  - apply safe_ret. rewrite Nat.add_0_r. exact Hacc.
  - eapply safe_bind; [apply safe_index|]. intros v _.
    eapply safe_bind; [apply Hbody; exact Hacc|]. intros acc' Hacc'.
    replace (i + S n)%nat with (S i + n)%nat by lia. apply IH. exact Hacc'.
Qed.

Lemma owned_nil (s : Slice) : owned (T:=T) [] s.
Proof. left. unfold fresh. cbn. lia. Qed.

(** A loop that appends the values it keeps and counts the others accounts
    for every element of the slice it ranges over. *)
Lemma safe_filter_loop (s : Slice) (keep : T -> bool) (cleaned : Slice) :
  safe (E:=E) (T:=T) []
    (fun r : Slice * Z => len (fst r) + snd r = len cleaned + len s /\ 0 <= snd r)
    (forRange s (fun _ v '(cleaned, outlierCount) =>
       if keep v then
         cleaned' ← append cleaned v;
         mret (cleaned', outlierCount)
       else mret (cleaned, outlierCount + 1)) (cleaned, 0)).
Proof.
  unfold forRange.
  eapply safe_weaken.
  - apply (safe_forRangeFrom_at []
             (fun i (r : Slice * Z) =>
                len (fst r) + snd r = len cleaned + Z.of_nat i /\ 0 <= snd r)).
    + intros i v [cl oc] [Hsum Hoc]. cbn [fst snd] in *.
      destruct (keep v).
      * eapply safe_bind; [apply safe_append, owned_nil|]. intros cl' [_ Hlen].
        apply safe_ret. cbn [fst snd]. unfold len in *. rewrite Hlen. lia.
      * apply safe_ret. cbn [fst snd]. lia.
    + cbn [fst snd]. lia.
  - intros r Hr. cbn [Nat.add] in Hr. exact Hr.
Qed.

Lemma counted_removeOutliersIQR (c : CalculatorConfig.t T) (sorted : Slice) :
  safe (E:=E) (T:=T) []
    (fun r : Slice * Z => len (fst r) + snd r = len sorted /\ 0 <= snd r)
    (removeOutliersIQR c sorted).
Proof.
  unfold removeOutliersIQR.
  eapply safe_bind; [apply safe_elems|]. intros sv _.
  eapply safe_bind; [apply safe_make|]. intros cleaned [_ Hlen].
  eapply safe_weaken;
    [apply (safe_filter_loop sorted
              (fun v => f_leb (f_sub (percentile sv (f_lit 0.25))
                                 (f_mul (CalculatorConfig.OutlierThreshold c)
                                    (f_sub (percentile sv (f_lit 0.75))
                                           (percentile sv (f_lit 0.25))))) v
                        && f_leb v (f_add (percentile sv (f_lit 0.75))
                                      (f_mul (CalculatorConfig.OutlierThreshold c)
                                         (f_sub (percentile sv (f_lit 0.75))
                                                (percentile sv (f_lit 0.25)))))))|].
  intros r [Hsum Hoc]. unfold len in *. rewrite Hlen in Hsum. cbn in Hsum.
  split; [lia|exact Hoc].
Qed.

Lemma safe_reslice_len h0 (s : Slice) (lo hi : Z) :
  safe (E:=E) (T:=T) h0 (fun s' => s_len s' = Z.to_nat (hi - lo) /\ lo <= hi)
    (reslice s lo hi).
Proof.
  unfold reslice.
  destruct (Z.ltb_spec lo 0); cbn [orb]; [apply safe_panic|].
  destruct (Z.ltb_spec hi lo); cbn [orb]; [apply safe_panic|].
  destruct (_ <? _); [apply safe_panic|].
  apply safe_ret. cbn. split; [reflexivity|lia].
Qed.

Lemma counted_removeOutliers (c : CalculatorConfig.t T) (times : Slice) :
  safe (E:=E) (T:=T) []
    (fun r : Slice * Z => len (fst r) + snd r = len times /\ 0 <= snd r)
    (removeOutliers c times).
Proof.
  unfold removeOutliers.
  destruct (len times <=? 3); [apply safe_ret; cbn; lia|].
  eapply safe_bind; [apply safe_make|]. intros sorted [Hsorted Hlen].
  assert (Hls : len sorted = len times) by (unfold len in *; rewrite Hlen; lia).
  eapply safe_bind; [apply safe_copy; exact Hsorted|]. intros _ _.
  eapply safe_bind; [apply safe_sort; exact Hsorted|]. intros _ _.
  destruct (CalculatorConfig.UseMedianAbsolute c);
    [|rewrite <- Hls; apply counted_removeOutliersIQR].
  eapply safe_bind; [apply safe_elems|]. intros sv _.
  eapply safe_bind; [apply safe_make|]. intros deviations [Hdev _].
  eapply safe_bind.
  { apply (safe_forRange [] (fun _ => True)); [|exact I].
    intros i v acc _. apply safe_setIndex. exact Hdev. }
  intros _ _.
  eapply safe_bind; [apply safe_sort; exact Hdev|]. intros _ _.
  eapply safe_bind; [apply safe_elems|]. intros dv _.
  destruct (f_eqb _ _); [rewrite <- Hls; apply counted_removeOutliersIQR|].
  eapply safe_bind.
  { apply (safe_filter_loop times
             (fun v => f_leb (f_abs (modifiedZScore v (percentile sv (f_lit 0.5))
                                       (percentile dv (f_lit 0.5)))) (f_lit 3.5))
             nilSlice). }
  intros [cleaned outlierCount] [Hsum Hoc]. cbn [fst snd] in *.
  change (len nilSlice) with 0 in Hsum.
  destruct (f_ltb _ _); cbn [andb]; [|apply safe_ret; cbn; lia].
  destruct (10 <? len cleaned); [|apply safe_ret; cbn; lia].
  destruct (Z.ltb_spec 0 (f_toInt (f_mul (f_ofInt (len cleaned))
                                     (CalculatorConfig.TrimPercent c))))
    as [Htrim|Htrim]; [|apply safe_ret; cbn; lia].
  eapply safe_bind; [apply safe_sort; unfold fresh; cbn; lia|]. intros _ _.
  eapply safe_bind; [apply safe_reslice_len|]. intros cleaned' [Hlen' Hle].
  apply safe_ret. cbn [fst snd]. unfold len in *. rewrite Hlen'. lia.
Qed.

(** X10: the values removeOutliers returns account for every input value:
    the length of the cleaned slice and the outlier count add up to the
    length of the input, the count is not negative, the collaborators are
    not called, and an input of at most three values is returned as it is. *)
Theorem outliers_accounted (c : CalculatorConfig.t T) (times cleaned : Slice)
    (outlierCount : Z) (w w' : World E T) :
  removeOutliers c times w = (Ok (cleaned, outlierCount), w') ->
  len cleaned + outlierCount = len times
  /\ 0 <= outlierCount <= len times
  /\ env w' = env w
  /\ (len times <= 3 -> cleaned = times /\ outlierCount = 0 /\ w' = w).
Proof.
  intros Hrun.
  destruct (counted_removeOutliers c times w (prefix_nil _)) as (_ & Henv & Hval).
  rewrite Hrun in Henv, Hval. cbn [fst snd] in *.
  destruct (Hval _ eq_refl) as [Hsum Hoc]. cbn [fst snd] in *.
  split; [exact Hsum|]. split; [unfold len in *; lia|]. split; [exact Henv|].
  intros Hsmall. unfold removeOutliers in Hrun.
  destruct (Z.leb_spec (len times) 3); [|lia].
  injection Hrun as <- <- <-. repeat split.
Qed.

(** X11: the summary is a function of the elements of the slice alone: two
    slices that hold the same elements, in whatever worlds, are summarized
    alike, and summarizing a slice again gives the same summary. *)
Theorem summary_depends_on_elements (times times' : Slice) (w w' : World E T) :
  length (slice_elems (heap w) times) = s_len times ->
  length (slice_elems (heap w') times') = s_len times' ->
  slice_elems (heap w) times = slice_elems (heap w') times' ->
  fst (calculateStatistics times w) = fst (calculateStatistics times' w')
  /\ fst (calculateStatistics times (snd (calculateStatistics times w)))
     = fst (calculateStatistics times w).
Proof.
  intros Hlen Hlen' Heq.
  assert (Hsame : s_len times' = s_len times) by (rewrite <- Hlen, <- Hlen', Heq; reflexivity).
  destruct (Nat.eq_dec (s_len times) 0%nat) as [Hz|Hnz].
  - unfold calculateStatistics, len. rewrite Hsame, Hz. split; reflexivity.
  - rewrite (calculateStatistics_run times w) by (assumption || lia).
    rewrite (calculateStatistics_run times' w') by (assumption || lia).
    cbn [fst snd]. split; [rewrite Heq; reflexivity|].
    pose proof (slice_valid _ _ Hlen ltac:(lia)) as Hptr.
    rewrite calculateStatistics_run; cbn [heap fst];
      rewrite ?slice_elems_app by exact Hptr; [reflexivity|exact Hlen|lia].
Qed.

End CalculatorRuns.

(** ** The calculator: what a summary of a range records *)

Section RangeRuns.

Context {E T : Type} `{F : Float64 T}.

Lemma positiveDeltas_le (rest : list (BlockInfo.t T)) :
  forall prev, (positiveDeltas prev rest <= length rest)%nat.
Proof.
  induction rest as [|b rest IH]; intros prev; cbn [positiveDeltas length]; [lia|].
  specialize (IH b). destruct (f_ltb _ _); lia.
Qed.

Lemma validDeltas_le (blocks : list (BlockInfo.t T)) :
  blocks <> [] -> validDeltas blocks <= Z.of_nat (length blocks) - 1.
Proof.
  destruct blocks as [|b rest]; [congruence|]. intros _.
  unfold validDeltas. pose proof (positiveDeltas_le rest b). cbn [length]. lia.
Qed.

(** A run of the calculator that returns a summary, taken apart. *)
Lemma CalculateStatsForRange_returns (c : BlockTimeCalculator E T)
    (startHeight endHeight : Z) (w w' : World E T) (stats : BlockTimeStats.t T) :
  CalculateStatsForRange c startHeight endHeight w = (Ok stats, w') ->
  exists blocks first final,
    GetBlockRange (calc_client c) startHeight endHeight (env w) = (Ok blocks, env w')
    /\ head blocks = Some first /\ last blocks = Some final
    /\ startHeight <= endHeight
    /\ BlockTimeStats.StartHeight stats = startHeight
    /\ BlockTimeStats.EndHeight stats = endHeight
    /\ BlockTimeStats.StartTime stats = BlockInfo.Time first
    /\ BlockTimeStats.EndTime stats = BlockInfo.Time final
    /\ BlockTimeStats.SampleSize stats = validDeltas blocks
    /\ CalculatorConfig.MinSampleSize (calc_config c) <= BlockTimeStats.SampleSize stats
    /\ 0 <= BlockTimeStats.OutlierCount stats <= BlockTimeStats.SampleSize stats
    /\ BlockTimeStats.ConfidenceLevel stats
       = CalculatorConfig.ConfidenceLevel (calc_config c).
Proof.
  intros Hrun. unfold CalculateStatsForRange in Hrun.
  destruct (Z.ltb_spec endHeight startHeight) as [|Hrange]; [discriminate|].
  destruct (Z.ltb_spec (wrap64 (endHeight - startHeight + 1))
              (CalculatorConfig.MinSampleSize (calc_config c))) as [|Hsize];
    [discriminate|].
  rewrite bind_run in Hrun. unfold wrapErr, liftCall in Hrun.
  destruct (GetBlockRange (calc_client c) startHeight endHeight (env w))
    as [[blocks|e|msg] env'] eqn:Hfetch; [|discriminate|discriminate].
  destruct blocks as [|b rest]; [rewrite bind_run in Hrun; discriminate|].
  rewrite bind_run in Hrun. unfold make in Hrun.
  replace ((0 <? 0) || (Z.of_nat (length (b :: rest)) - 1 <? 0)) with false in Hrun
    by (symmetry; apply orb_false_iff; split; apply Z.ltb_ge; cbn [length]; lia).
  rewrite bind_run in Hrun.
  match type of Hrun with
  | context [collectBlockTimes b rest ?s ?w0] =>
      destruct (collectBlockTimes_run rest b s w0) as (s' & w1 & Hc & Hlen & Henv1);
      rewrite Hc in Hrun
  end.
  cbn [s_len env] in Hlen, Henv1.
  assert (Hvalid : len s' = validDeltas (b :: rest)).
  { unfold len, validDeltas. rewrite Hlen. reflexivity. }
  destruct (Z.ltb_spec (len s') (CalculatorConfig.MinSampleSize (calc_config c)))
    as [|Hmin]; [discriminate|].
  rewrite bind_run in Hrun.
  destruct (counted_removeOutliers (calc_config c) s' w1 (prefix_nil _))
    as (_ & Henv2 & Hval).
  destruct (removeOutliers (calc_config c) s' w1) as [[[cl oc]|e|msg] w2];
    [|discriminate|discriminate].
  destruct (Hval _ eq_refl) as [Hsum Hoc]. cbn [fst snd] in Hsum, Hoc, Henv2.
  rewrite bind_run in Hrun.
  destruct (safe_calculateStatistics [] cl w2 (prefix_nil _)) as (_ & Henv3 & _).
  destruct (calculateStatistics cl w2) as [[st|e|msg] w3];
    [|discriminate|discriminate].
  cbn [fst snd] in Henv3.
  assert (Hfirst : blockAt (E:=E) (b :: rest) 0 = mret b) by reflexivity.
  rewrite Hfirst in Hrun. rewrite bind_run in Hrun.
  cbv beta iota delta [mret M_ret] in Hrun.
  rewrite bind_run in Hrun. unfold blockAt in Hrun.
  replace (Z.of_nat (length (b :: rest)) - 1 <? 0) with false in Hrun
    by (symmetry; apply Z.ltb_ge; cbn [length]; lia).
  destruct ((b :: rest) !! Z.to_nat (Z.of_nat (length (b :: rest)) - 1))
    as [final|] eqn:Hfinal; [|discriminate].
  cbv beta iota delta [mret M_ret] in Hrun.
  injection Hrun as <- <-.
  exists (b :: rest), b, final.
  cbn [BlockTimeStats.StartHeight BlockTimeStats.EndHeight BlockTimeStats.StartTime
       BlockTimeStats.EndTime BlockTimeStats.SampleSize BlockTimeStats.OutlierCount
       BlockTimeStats.ConfidenceLevel].
  split; [rewrite Henv3, Henv2, Henv1; reflexivity|].
  split; [reflexivity|].
  split.
  { rewrite last_lookup. rewrite <- Hfinal. f_equal. cbn [length]. lia. }
  split; [exact Hrange|].
  repeat (split; [reflexivity|]).
  split; [exact Hvalid|]. split; [lia|]. split; [|reflexivity].
  unfold len in *. lia.
Qed.

(** X12: a summary the calculator returns for a range records the range
    asked for, the timestamps of the first and the last block fetched, the
    configured confidence level, and as sample size the count of valid
    deltas before outlier removal, which is at least MinSampleSize and at
    least the outlier count; the client is called for the range fetch alone. *)
Theorem range_summary_fields (c : BlockTimeCalculator E T)
    (startHeight endHeight : Z) (w w' : World E T) (stats : BlockTimeStats.t T) :
  CalculateStatsForRange c startHeight endHeight w = (Ok stats, w') ->
  exists blocks first final,
    GetBlockRange (calc_client c) startHeight endHeight (env w) = (Ok blocks, env w')
    /\ head blocks = Some first /\ last blocks = Some final
    /\ startHeight <= endHeight
    /\ BlockTimeStats.StartHeight stats = startHeight
    /\ BlockTimeStats.EndHeight stats = endHeight
    /\ BlockTimeStats.StartTime stats = BlockInfo.Time first
    /\ BlockTimeStats.EndTime stats = BlockInfo.Time final
    /\ BlockTimeStats.SampleSize stats = validDeltas blocks
    /\ CalculatorConfig.MinSampleSize (calc_config c) <= BlockTimeStats.SampleSize stats
    /\ 0 <= BlockTimeStats.OutlierCount stats <= BlockTimeStats.SampleSize stats
    /\ BlockTimeStats.ConfidenceLevel stats
       = CalculatorConfig.ConfidenceLevel (calc_config c).
Proof. apply CalculateStatsForRange_returns. Qed.

End RangeRuns.

(** ** The calculator over the Cosmos client *)

Section LatestWindow.

Context {T : Type} `{F : Float64 T}.

Lemma length_toBlockInfos (prev : option Block.t) (bs : list Block.t) :
  length (toBlockInfos (T:=T) prev bs) = length bs.
Proof.
  revert prev. induction bs as [|b bs IH]; intros prev; cbn; [reflexivity|].
  f_equal. apply IH.
Qed.

Lemma length_omap_le {A B} (f : A -> option B) (l : list A) :
  (length (omap f l) <= length l)%nat.
Proof.
  induction l as [|a l IH]; cbn; [lia|]. destruct (f a); cbn; lia.
Qed.

Lemma length_heights (startHeight endHeight : Z) :
  length (heights startHeight endHeight) = Z.to_nat (endHeight - startHeight + 1).
Proof. unfold heights. rewrite List.length_map, List.length_seq. reflexivity. Qed.

(** A range fetch that returns blocks, taken apart. *)
Lemma GetBlockRange_returns (startHeight endHeight : Z) (n n' : Node)
    (blocks : list (BlockInfo.t T)) :
  GetBlockRange_cosmos startHeight endHeight n = (Ok blocks, n') ->
  startHeight <= endHeight
  /\ same_node n n'
  /\ calls n' = calls n ++ heights startHeight endHeight
  /\ Forall (fun h => ctxDone n h = false) (heights startHeight endHeight)
  /\ exists bs, Permutation bs (omap (blockOf n) (heights startHeight endHeight))
                /\ blocks = toBlockInfos None (sortByHeight bs).
Proof.
  intros Hrun. unfold GetBlockRange_cosmos in Hrun.
  destruct (Z.ltb_spec endHeight startHeight) as [|Hrange]; [discriminate|].
  destruct (launchAll_calls (heights startHeight endHeight) n
              {| inflight := []; blockChan := []; errChan := None |})
    as (pre & Hpre & Hcalls' & Hall).
  destruct (launchAll _ _ _) as [[st|] n1] eqn:Hl; [|discriminate].
  destruct (fetch_state startHeight endHeight n n1 st Hl) as (Hsame & Hcalls & _ & Hperm).
  cbn [snd] in Hcalls'. rewrite Hcalls in Hcalls'. apply app_inv_head in Hcalls'. subst pre.
  destruct (drain _ _ _ _) as [st' t']. cbn [fst] in Hperm.
  destruct (errChan st'); [discriminate|].
  injection Hrun as <- <-.
  split; [exact Hrange|]. split; [exact Hsame|]. split; [exact Hcalls|].
  split; [exact Hall|]. exists (blockChan st'). split; [exact Hperm|reflexivity].
Qed.


(** X14: a summary of the latest blocks from the Cosmos client ends at the
    latest height, starts SampleSize - 1 heights below it or at height 1,
    and has at most SampleSize - 1 samples, one fewer than the blocks of its
    window: with MinSampleSize = SampleSize no summary is returned. *)
Theorem latest_window_leaves_room (cfg : CalculatorConfig.t T) (w w' : World Node T)
    (stats : BlockTimeStats.t T) :
  1 <= CalculatorConfig.SampleSize cfg <= max_int64 ->
  (forall latest, status (env w) = inr latest -> 0 <= latest <= max_int64) ->
  CalculateStats {| calc_client := CosmosSDKClient; calc_config := cfg |} w = (Ok stats, w') ->
  exists latest,
    status (env w) = inr latest
    /\ BlockTimeStats.EndHeight stats = latest
    /\ BlockTimeStats.StartHeight stats
       = Z.max 1 (latest - CalculatorConfig.SampleSize cfg + 1)
    /\ CalculatorConfig.MinSampleSize cfg <= BlockTimeStats.SampleSize stats
    /\ BlockTimeStats.SampleSize stats <= CalculatorConfig.SampleSize cfg - 1
    /\ CalculatorConfig.MinSampleSize cfg < CalculatorConfig.SampleSize cfg.
Proof.
  intros Hsize Hstatus Hrun. unfold CalculateStats in Hrun.
  rewrite bind_run in Hrun. unfold wrapErr, liftCall in Hrun.
  cbn [GetLatestBlockHeight calc_client calc_config CosmosSDKClient] in Hrun.
  unfold GetLatestBlockHeight_cosmos in Hrun.
  destruct (status (env w)) as [msg|latest] eqn:Hst; [discriminate|].
  specialize (Hstatus latest eq_refl).
  assert (Hbounds : min_int64 <= 0 /\ max_int64 = 2 ^ 63 - 1) by (split; [vm_compute; discriminate|reflexivity]).
  rewrite wrap64_id in Hrun by (unfold min_int64, max_int64 in *; lia).
  apply CalculateStatsForRange_returns in Hrun
    as (blocks & first & final & Hfetch & Hhead & _ & Hrange & Hstart & Hend & _ & _
        & Hsamples & Hmin & _ & _).
  cbn [GetBlockRange calc_client calc_config CosmosSDKClient env] in Hfetch, Hmin.
  destruct (GetBlockRange_returns _ _ _ _ _ Hfetch) as (_ & _ & _ & _ & bs & Hperm & Hblocks).
  set (start := if latest - CalculatorConfig.SampleSize cfg + 1 <? 1 then 1
                else latest - CalculatorConfig.SampleSize cfg + 1) in *.
  assert (Hlen : (length blocks <= length (heights start latest))%nat).
  { rewrite Hblocks, length_toBlockInfos, (Permutation_length (sortByHeight_perm bs)),
      (Permutation_length Hperm). apply length_omap_le. }
  rewrite length_heights in Hlen.
  assert (Hne : blocks <> []) by (intros Hb; rewrite Hb in Hhead; discriminate).
  pose proof (validDeltas_le blocks Hne) as Hvalid.
  exists latest. split; [reflexivity|]. split; [exact Hend|].
  unfold start in *.
  destruct (Z.ltb_spec (latest - CalculatorConfig.SampleSize cfg + 1) 1);
    (split; [rewrite Hstart; lia|]); (split; [exact Hmin|]); lia.
Qed.

End LatestWindow.

(** ** The configuration: validation and the calculator's defaults *)

Section ConfigurationRuns.

Context {E T : Type} `{F : Float64 T}.

(** A configuration that passes every test of [NewBlockTimeCalculator] is
    the calculator's configuration as it stands. *)
Lemma NewBlockTimeCalculator_keeps (client : BlockchainClient E T)
    (c : CalculatorConfig.t T) :
  (CalculatorConfig.SampleSize c <=? 0) = false ->
  (CalculatorConfig.MinSampleSize c <=? 0) = false ->
  f_leb (CalculatorConfig.OutlierThreshold c) (f_lit 0) = false ->
  f_leb (CalculatorConfig.ConfidenceLevel c) (f_lit 0)
  || f_leb (f_lit 1) (CalculatorConfig.ConfidenceLevel c) = false ->
  f_ltb (CalculatorConfig.TrimPercent c) (f_lit 0)
  || f_leb (f_lit 0.5) (CalculatorConfig.TrimPercent c) = false ->
  calc_config (NewBlockTimeCalculator client (Some c)) = c.
Proof.
  intros H1 H2 H3 H4 H5. unfold NewBlockTimeCalculator.
  change (default DefaultConfig (Some c)) with c.
  cbn [calc_config]. rewrite H1, H2, H3, H4, H5.
  destruct c; reflexivity.
Qed.

Lemma validFormats_spec (format : string) :
  default false (config.validFormats !! format) = true ->
  format = "json" \/ format = "text" \/ format = "table".
Proof.
  unfold config.validFormats. intros Hf.
  destruct (_ !! format) as [b|] eqn:Hl; [|discriminate]. cbn in Hf. subst b.
  apply lookup_insert_Some in Hl as [[<- _]|[_ Hl]]; [auto|].
  apply lookup_insert_Some in Hl as [[<- _]|[_ Hl]]; [auto|].
  apply lookup_singleton_Some in Hl as [<- _]. auto.
Qed.

(** X15: a configuration that ValidateConfig accepts has a positive
    timeout, retry settings that are not negative, 1 <= MinSampleSize <=
    SampleSize and one of the three output formats, and its calculator
    part is the configuration of the calculator built from it, unchanged. *)
Theorem validated_config_kept (client : BlockchainClient E T) (cfg : Config.t T) :
  config.ValidateConfig cfg = None ->
  calc_config (NewBlockTimeCalculator client (Some (Config.Calculator cfg)))
  = Config.Calculator cfg
  /\ 0 < ChainConfig.Timeout (Config.Chain cfg)
  /\ 0 <= ChainConfig.MaxRetries (Config.Chain cfg)
  /\ 0 <= ChainConfig.RetryDelay (Config.Chain cfg)
  /\ 1 <= CalculatorConfig.MinSampleSize (Config.Calculator cfg)
       <= CalculatorConfig.SampleSize (Config.Calculator cfg)
  /\ (OutputConfig.Format (Config.Output cfg) = "json"
      \/ OutputConfig.Format (Config.Output cfg) = "text"
      \/ OutputConfig.Format (Config.Output cfg) = "table").
Proof.
  unfold config.ValidateConfig. intros Hvalid.
  destruct (Z.leb_spec (ChainConfig.Timeout (Config.Chain cfg)) 0) as [|Hc1]; [discriminate|].
  destruct (Z.ltb_spec (ChainConfig.MaxRetries (Config.Chain cfg)) 0) as [|Hc2]; [discriminate|].
  destruct (Z.ltb_spec (ChainConfig.RetryDelay (Config.Chain cfg)) 0) as [|Hc3]; [discriminate|].
  destruct (CalculatorConfig.SampleSize (Config.Calculator cfg) <=? 0) eqn:Hv1;
    [discriminate|].
  destruct (CalculatorConfig.MinSampleSize (Config.Calculator cfg) <=? 0) eqn:Hv2;
    [discriminate|].
  destruct (Z.ltb_spec (CalculatorConfig.SampleSize (Config.Calculator cfg))
              (CalculatorConfig.MinSampleSize (Config.Calculator cfg))) as [|Hc4]; [discriminate|].
  destruct (f_leb (CalculatorConfig.OutlierThreshold (Config.Calculator cfg)) (f_lit 0))
    eqn:Hv3; [discriminate|].
  destruct (f_leb (CalculatorConfig.ConfidenceLevel (Config.Calculator cfg)) (f_lit 0)
            || f_leb (f_lit 1) (CalculatorConfig.ConfidenceLevel (Config.Calculator cfg)))
    eqn:Hv4; [discriminate|].
  destruct (f_ltb (CalculatorConfig.TrimPercent (Config.Calculator cfg)) (f_lit 0)
            || f_leb (f_lit 0.5) (CalculatorConfig.TrimPercent (Config.Calculator cfg)))
    eqn:Hv5; [discriminate|].
  destruct (default false (config.validFormats !! OutputConfig.Format (Config.Output cfg)))
    eqn:Hv6; [|discriminate].
  split; [apply NewBlockTimeCalculator_keeps; assumption|].
  apply Z.leb_gt in Hv1, Hv2.
  split; [lia|]. split; [lia|]. split; [lia|]. split; [lia|].
  apply validFormats_spec, Hv6.
Qed.

End ConfigurationRuns.

Section ExactConfiguration.

Context {E : Type}.
Variable rt : Q -> Q.
#[local] Instance exact_config : Float64 Q := Exact rt.

(** X16: in exact arithmetic the configuration of a new calculator, built
    from any configuration or from none, has SampleSize >= 1,
    MinSampleSize >= 1, a positive outlier threshold, a confidence level
    strictly between 0 and 1 and a trim fraction in [0, 0.5); building a
    calculator from it again changes nothing. *)
Theorem calculator_config_normalised (client : BlockchainClient E Q)
    (given : option (CalculatorConfig.t Q)) :
  let c := calc_config (NewBlockTimeCalculator client given) in
  1 <= CalculatorConfig.SampleSize c
  /\ 1 <= CalculatorConfig.MinSampleSize c
  /\ (0 < CalculatorConfig.OutlierThreshold c)%Q
  /\ (0 < CalculatorConfig.ConfidenceLevel c /\ CalculatorConfig.ConfidenceLevel c < 1)%Q
  /\ (0 <= CalculatorConfig.TrimPercent c /\ CalculatorConfig.TrimPercent c < 0.5)%Q
  /\ calc_config (NewBlockTimeCalculator client (Some c)) = c.
Proof.
  intros c.
  assert (Hc : (1 <= CalculatorConfig.SampleSize c
                /\ 1 <= CalculatorConfig.MinSampleSize c)
               /\ (0 < CalculatorConfig.OutlierThreshold c)%Q
               /\ (0 < CalculatorConfig.ConfidenceLevel c
                   /\ CalculatorConfig.ConfidenceLevel c < 1)%Q
               /\ (0 <= CalculatorConfig.TrimPercent c
                   /\ CalculatorConfig.TrimPercent c < 0.5)%Q).
  { subst c. unfold NewBlockTimeCalculator.
    cbn [calc_config CalculatorConfig.SampleSize CalculatorConfig.MinSampleSize
         CalculatorConfig.OutlierThreshold CalculatorConfig.ConfidenceLevel
         CalculatorConfig.TrimPercent f_leb f_ltb f_lit exact_config Exact].
    set (g := default DefaultConfig given).
    split; [split|split; [|split]].
    - destruct (Z.leb_spec (CalculatorConfig.SampleSize g) 0); lia.
    - destruct (Z.leb_spec (CalculatorConfig.MinSampleSize g) 0); lia.
    - destruct (Qle_bool (CalculatorConfig.OutlierThreshold g) 0) eqn:Ht;
        [reflexivity|apply Qle_bool_false, Ht].
    - destruct (Qle_bool (CalculatorConfig.ConfidenceLevel g) 0) eqn:H0; cbn [orb];
        [split; reflexivity|].
      destruct (Qle_bool 1 (CalculatorConfig.ConfidenceLevel g)) eqn:H1;
        [split; reflexivity|].
      split; apply Qle_bool_false; assumption.
    - unfold ExactQ.ltb.
      destruct (Qle_bool 0 (CalculatorConfig.TrimPercent g)) eqn:H0; cbn [negb orb];
        [|split; [discriminate|reflexivity]].
      destruct (Qle_bool 0.5 (CalculatorConfig.TrimPercent g)) eqn:H1;
        [split; [discriminate|reflexivity]|].
      split; [apply Qle_bool_iff, H0|apply Qle_bool_false, H1]. }
  destruct Hc as ((H1 & H2) & H3 & (H4 & H5) & (H6 & H7)).
  split; [exact H1|]. split; [exact H2|]. split; [exact H3|].
  split; [split; assumption|]. split; [split; assumption|].
  apply NewBlockTimeCalculator_keeps;
    cbn [f_leb f_ltb f_lit exact_config Exact]; unfold ExactQ.ltb.
  - apply Z.leb_gt. lia.
  - apply Z.leb_gt. lia.
  - apply Qle_bool_false, H3.
  - apply orb_false_iff. split; apply Qle_bool_false; assumption.
  - apply orb_false_iff. split; [apply negb_false_iff, Qle_bool_iff, H6|].
    apply Qle_bool_false, H7.
Qed.

End ExactConfiguration.

(** ** Binary64: a NaN in the configuration *)

Lemma SFeqb_irrefl_nan (f : spec_float) : SFeqb f f = false -> f = S754_nan.
Proof.
  unfold SFeqb. destruct f as [s|s| |s m e]; cbn; try reflexivity.
  - destruct s; discriminate.
  - destruct s; discriminate.
  - destruct s; rewrite Z.compare_refl, ?Pos.compare_cont_refl, ?Pos.compare_refl;
      cbn; discriminate.
Qed.

(** Every comparison with a NaN is false. *)
Lemma nan_compares_false (x y : float) :
  PrimFloat.is_nan x = true ->
  PrimFloat.leb x y = false /\ PrimFloat.leb y x = false
  /\ PrimFloat.ltb x y = false /\ PrimFloat.ltb y x = false.
Proof.
  unfold PrimFloat.is_nan. intros Hx. apply negb_true_iff in Hx.
  rewrite FloatAxioms.eqb_spec in Hx. apply SFeqb_irrefl_nan in Hx.
  rewrite !FloatAxioms.leb_spec, !FloatAxioms.ltb_spec, Hx.
  unfold SFleb, SFltb. cbn.
  destruct (Prim2SF y) as [s|s| |s m e]; repeat split; reflexivity.
Qed.

(** X17: in binary64 a NaN is never refused and never replaced: a
    configuration whose outlier threshold, confidence level and trim
    fraction are NaN passes ValidateConfig when it passes with the default
    values in their place, and the calculator built from it keeps the NaNs. *)
Theorem nan_settings_accepted {E : Type} (client : BlockchainClient E float)
    (chain : ChainConfig.t) (output : OutputConfig.t)
    (sampleSize minSampleSize : Z) (useMedianAbsolute : bool)
    (threshold confidence trim : float) :
  config.ValidateConfig
    (Config.mk chain
       (CalculatorConfig.mk sampleSize (f_lit 1.5) (f_lit 0.95) minSampleSize
          (f_lit 0.05) useMedianAbsolute) output) = None ->
  f_isNaN threshold = true -> f_isNaN confidence = true -> f_isNaN trim = true ->
  let calc := CalculatorConfig.mk sampleSize threshold confidence minSampleSize trim
                useMedianAbsolute in
  config.ValidateConfig (Config.mk chain calc output) = None
  /\ calc_config (NewBlockTimeCalculator client (Some calc)) = calc.
Proof.
  intros Hvalid Ht Hc Hp calc. cbn [f_isNaN IEEE] in Ht, Hc, Hp.
  destruct (nan_compares_false threshold (f_lit 0) Ht) as (Ht1 & _).
  destruct (nan_compares_false confidence (f_lit 0) Hc) as (Hc1 & _).
  destruct (nan_compares_false confidence (f_lit 1) Hc) as (_ & Hc2 & _).
  destruct (nan_compares_false trim (f_lit 0) Hp) as (_ & _ & Hp1 & _).
  destruct (nan_compares_false trim (f_lit 0.5) Hp) as (_ & Hp2 & _).
  unfold config.ValidateConfig in Hvalid.
  cbn [Config.Chain Config.Calculator Config.Output CalculatorConfig.SampleSize
       CalculatorConfig.MinSampleSize CalculatorConfig.OutlierThreshold
       CalculatorConfig.ConfidenceLevel CalculatorConfig.TrimPercent] in Hvalid.
  replace (f_leb (f_lit 1.5) (f_lit 0)) with false in Hvalid by by_evaluation.
  replace (f_leb (f_lit 0.95) (f_lit 0) || f_leb (f_lit 1) (f_lit 0.95)) with false
    in Hvalid by by_evaluation.
  replace (f_ltb (f_lit 0.05) (f_lit 0) || f_leb (f_lit 0.5) (f_lit 0.05)) with false
    in Hvalid by by_evaluation.
  destruct (ChainConfig.Timeout chain <=? 0) eqn:Hv1; [discriminate|].
  destruct (ChainConfig.MaxRetries chain <? 0) eqn:Hv2; [discriminate|].
  destruct (ChainConfig.RetryDelay chain <? 0) eqn:Hv3; [discriminate|].
  destruct (sampleSize <=? 0) eqn:Hv4; [discriminate|].
  destruct (minSampleSize <=? 0) eqn:Hv5; [discriminate|].
  destruct (sampleSize <? minSampleSize) eqn:Hv6; [discriminate|].
  destruct (negb _) eqn:Hv7; [discriminate|].
  split.
  - unfold config.ValidateConfig, calc.
    cbn [Config.Chain Config.Calculator Config.Output CalculatorConfig.SampleSize
         CalculatorConfig.MinSampleSize CalculatorConfig.OutlierThreshold
         CalculatorConfig.ConfidenceLevel CalculatorConfig.TrimPercent f_leb f_ltb IEEE].
    rewrite Hv1, Hv2, Hv3, Hv4, Hv5, Hv6, Ht1, Hc1, Hc2, Hp1, Hp2, Hv7. reflexivity.
  - apply NewBlockTimeCalculator_keeps; unfold calc;
      cbn [CalculatorConfig.SampleSize CalculatorConfig.MinSampleSize
           CalculatorConfig.OutlierThreshold CalculatorConfig.ConfidenceLevel
           CalculatorConfig.TrimPercent f_leb f_ltb IEEE];
      rewrite ?Hc1, ?Hc2, ?Hp1, ?Hp2; assumption || reflexivity.
Qed.

(** ** The predictor: a target height *)

Section TargetRuns.

Context {E T : Type} `{F : Float64 T}.

(** A run of [PredictBlockTime] on a height the chain has reached. *)
Lemma PredictBlockTime_past (p : BlockPredictor E T) (targetHeight current : Z)
    (w : World E T) (e1 : E) :
  GetLatestBlockHeight (pred_client p) (env w) = (Ok current, e1) ->
  targetHeight <= current ->
  PredictBlockTime p targetHeight w
  = match GetBlockByHeight (pred_client p) targetHeight e1 with
    | (Ok block, e2) =>
        (Ok (BlockPrediction.mk targetHeight current 0 zeroTime 0
               zeroTime zeroTime zeroTime (DurationEstimate.mk 0 0 0)
               None (f_lit 0) true (Some (BlockInfo.Time block))),
         {| env := e2; heap := heap w |})
    | (Err e, e2) => (Err (BlockFailed targetHeight e), {| env := e2; heap := heap w |})
    | (Panic msg, e2) => (Panic msg, {| env := e2; heap := heap w |})
    end.
Proof.
  intros Hheight Hle. unfold PredictBlockTime.
  rewrite bind_run. unfold wrapErr, liftCall at 1. rewrite Hheight.
  destruct (Z.leb_spec targetHeight current); [|lia].
  rewrite bind_run. unfold wrapBlockErr, liftCall. cbn [env heap].
  destruct (GetBlockByHeight (pred_client p) targetHeight e1) as [[block|e|msg] e2];
    reflexivity.
Qed.

(** A run of [PredictBlockTime] on a height the chain has not reached,
    when its collaborators answer. *)
Lemma PredictBlockTime_ahead (p : BlockPredictor E T) (targetHeight current now : Z)
    (stats : BlockTimeStats.t T) (block : BlockInfo.t T)
    (w w2 : World E T) (e1 e3 e4 : E) :
  GetLatestBlockHeight (pred_client p) (env w) = (Ok current, e1) ->
  current < targetHeight ->
  CalculateStats (pred_calculator p) {| env := e1; heap := heap w |} = (Ok stats, w2) ->
  GetBlockByHeight (pred_client p) current (env w2) = (Ok block, e3) ->
  timeNow p e3 = (now, e4) ->
  let range := BlockTimeStats.EstimatedRange stats in
  let left := f_ofInt (wrap64 (targetHeight - current)) in
  PredictBlockTime p targetHeight w
  = (Ok (BlockPrediction.mk targetHeight current (wrap64 (targetHeight - current)) now
           (timeSub now (BlockInfo.Time block))
           (now + durationOf (f_mul left (Range.Typical range)))
           (now + durationOf (f_mul left (Range.Lower range)))
           (now + durationOf (f_mul left (Range.Upper range)))
           (DurationEstimate.mk (durationOf (f_mul left (Range.Typical range)))
              (durationOf (f_mul left (Range.Lower range)))
              (durationOf (f_mul left (Range.Upper range))))
           (Some stats) (BlockTimeStats.ConfidenceLevel stats) false None),
     {| env := e4; heap := heap w2 |}).
Proof.
  intros Hheight Hlt Hstats Hblock Hnow range left. unfold PredictBlockTime.
  rewrite bind_run. unfold wrapErr at 1, liftCall at 1. rewrite Hheight.
  destruct (Z.leb_spec targetHeight current); [lia|].
  rewrite bind_run. unfold wrapErr at 1. rewrite Hstats.
  rewrite bind_run. unfold wrapErr at 1, liftCall at 1. rewrite Hblock.
  rewrite bind_run. unfold liftCall. cbn [env heap]. rewrite Hnow.
  reflexivity.
Qed.

(** A run of [PredictBlockTime] that returns a prediction, taken apart. *)
Lemma PredictBlockTime_returns (p : BlockPredictor E T) (targetHeight : Z)
    (w w' : World E T) (r : BlockPrediction.t T) :
  PredictBlockTime p targetHeight w = (Ok r, w') ->
  exists current e1,
    GetLatestBlockHeight (pred_client p) (env w) = (Ok current, e1)
    /\ ((targetHeight <= current
         /\ exists block,
              GetBlockByHeight (pred_client p) targetHeight e1 = (Ok block, env w')
              /\ heap w' = heap w
              /\ r = BlockPrediction.mk targetHeight current 0 zeroTime 0
                       zeroTime zeroTime zeroTime (DurationEstimate.mk 0 0 0)
                       None (f_lit 0) true (Some (BlockInfo.Time block)))
        \/ (current < targetHeight
            /\ exists stats w2 block e3 now,
                 CalculateStats (pred_calculator p) {| env := e1; heap := heap w |}
                 = (Ok stats, w2)
                 /\ GetBlockByHeight (pred_client p) current (env w2) = (Ok block, e3)
                 /\ timeNow p e3 = (now, env w')
                 /\ heap w' = heap w2
                 /\ PredictBlockTime p targetHeight w = (Ok r, w')
                 /\ BlockPrediction.Stats r = Some stats
                 /\ BlockPrediction.CurrentTime r = now
                 /\ BlockPrediction.IsComplete r = false)).
Proof.
  intros Hrun.
  destruct (GetLatestBlockHeight (pred_client p) (env w)) as [[current|e|msg] e1] eqn:Hheight;
    [|unfold PredictBlockTime in Hrun; rewrite bind_run in Hrun;
      unfold wrapErr, liftCall in Hrun; rewrite Hheight in Hrun; discriminate..].
  exists current, e1. split; [reflexivity|].
  destruct (Z.le_gt_cases targetHeight current) as [Hle|Hlt].
  - left. split; [exact Hle|].
    rewrite (PredictBlockTime_past p targetHeight current w e1 Hheight Hle) in Hrun.
    destruct (GetBlockByHeight (pred_client p) targetHeight e1) as [[block|e|msg] e2];
      [|discriminate|discriminate].
    injection Hrun as <- <-. exists block. repeat split.
  - right. split; [exact Hlt|].
    pose proof Hrun as Hrun'. unfold PredictBlockTime in Hrun.
    rewrite bind_run in Hrun. unfold wrapErr at 1, liftCall at 1 in Hrun.
    rewrite Hheight in Hrun.
    destruct (Z.leb_spec targetHeight current); [lia|].
    rewrite bind_run in Hrun. unfold wrapErr at 1 in Hrun.
    destruct (CalculateStats (pred_calculator p) {| env := e1; heap := heap w |})
      as [[stats|e|msg] w2] eqn:Hstats; [|discriminate|discriminate].
    rewrite bind_run in Hrun. unfold wrapErr at 1, liftCall at 1 in Hrun.
    destruct (GetBlockByHeight (pred_client p) current (env w2))
      as [[block|e|msg] e3] eqn:Hblock; [|discriminate|discriminate].
    rewrite bind_run in Hrun. unfold liftCall in Hrun. cbn [env heap] in Hrun.
    destruct (timeNow p e3) as [now e4] eqn:Hnow.
    injection Hrun as <- <-.
    exists stats, w2, block, e3, now.
    do 4 (split; [first [reflexivity|assumption]|]).
    split; [exact Hrun'|]. repeat split.
Qed.

(** X18: a prediction that is returned names the target; it is complete
    exactly when the target is at or below the latest height, and then it
    carries the timestamp of the target's block as actual time, no blocks
    left and no statistics, and neither the calculator nor the clock was
    consulted; otherwise it carries the statistics, the count of blocks
    left, and three times that are the current time plus its three
    durations. *)
Theorem prediction_fields (p : BlockPredictor E T) (targetHeight : Z)
    (w w' : World E T) (r : BlockPrediction.t T) :
  PredictBlockTime p targetHeight w = (Ok r, w') ->
  BlockPrediction.TargetHeight r = targetHeight
  /\ BlockPrediction.IsComplete r = (targetHeight <=? BlockPrediction.CurrentHeight r)
  /\ (exists e1, GetLatestBlockHeight (pred_client p) (env w)
                 = (Ok (BlockPrediction.CurrentHeight r), e1)
        /\ (BlockPrediction.IsComplete r = true ->
            exists block,
              GetBlockByHeight (pred_client p) targetHeight e1 = (Ok block, env w')
              /\ heap w' = heap w
              /\ BlockPrediction.ActualTime r = Some (BlockInfo.Time block)))
  /\ (BlockPrediction.IsComplete r = true ->
      BlockPrediction.BlocksLeft r = 0 /\ BlockPrediction.Stats r = None)
  /\ (BlockPrediction.IsComplete r = false ->
      BlockPrediction.ActualTime r = None
      /\ BlockPrediction.BlocksLeft r
         = wrap64 (targetHeight - BlockPrediction.CurrentHeight r)
      /\ (exists stats, BlockPrediction.Stats r = Some stats
            /\ BlockPrediction.ConfidenceLevel r = BlockTimeStats.ConfidenceLevel stats)
      /\ BlockPrediction.EstimatedTime r
         = BlockPrediction.CurrentTime r
           + DurationEstimate.Typical (BlockPrediction.Duration r)
      /\ BlockPrediction.OptimisticTime r
         = BlockPrediction.CurrentTime r
           + DurationEstimate.Min (BlockPrediction.Duration r)
      /\ BlockPrediction.PessimisticTime r
         = BlockPrediction.CurrentTime r
           + DurationEstimate.Max (BlockPrediction.Duration r)).
Proof.
  intros Hrun.
  destruct (PredictBlockTime_returns p targetHeight w w' r Hrun)
    as (current & e1 & Hheight & [(Hle & block & Hblock & Hheap & ->)
                                 |(Hlt & stats & w2 & block & e3 & now & Hstats & Hblock
                                   & Hnow & Hheap & _ & _)]).
  - cbn [BlockPrediction.TargetHeight BlockPrediction.IsComplete
         BlockPrediction.CurrentHeight BlockPrediction.BlocksLeft BlockPrediction.Stats
         BlockPrediction.ActualTime].
    split; [reflexivity|]. split; [symmetry; apply Z.leb_le, Hle|].
    split; [exists e1; split; [exact Hheight|]; intros _; exists block; auto|].
    split; [auto|]. discriminate.
  - destruct w' as [e4 h4]. cbn [env heap] in Hnow, Hheap. subst h4.
    rewrite (PredictBlockTime_ahead p targetHeight current now stats block w w2 e1 e3 e4
               Hheight Hlt Hstats Hblock Hnow) in Hrun.
    injection Hrun as <-.
    cbn [BlockPrediction.TargetHeight BlockPrediction.IsComplete
         BlockPrediction.CurrentHeight BlockPrediction.BlocksLeft BlockPrediction.Stats
         BlockPrediction.ActualTime BlockPrediction.ConfidenceLevel
         BlockPrediction.EstimatedTime BlockPrediction.OptimisticTime
         BlockPrediction.PessimisticTime BlockPrediction.CurrentTime
         BlockPrediction.Duration DurationEstimate.Typical DurationEstimate.Min
         DurationEstimate.Max].
    split; [reflexivity|]. split; [symmetry; apply Z.leb_gt, Hlt|].
    split; [exists e1; split; [exact Hheight|discriminate]|].
    split; [discriminate|]. intros _.
    split; [reflexivity|]. split; [reflexivity|].
    split; [exists stats; split; reflexivity|].
    repeat split.
Qed.

(** X19: the prediction for the target i blocks above the latest height
    agrees with the i-th milestone of PredictNextBlocks run from the same
    state: the same height, count of blocks, estimated time and typical
    duration, taken from the same current time and statistics. *)
Theorem target_agrees_with_milestone (p : BlockPredictor E T) (count i : Z)
    (w w' : World E T) (r : MultiBlockPrediction.t T) :
  PredictNextBlocks p count w = (Ok r, w') ->
  1 <= i <= count ->
  0 <= MultiBlockPrediction.CurrentHeight r ->
  MultiBlockPrediction.CurrentHeight r + count <= max_int64 ->
  exists q,
    PredictBlockTime p (MultiBlockPrediction.CurrentHeight r + i) w = (Ok q, w')
    /\ MultiBlockPrediction.Predictions r !! Z.to_nat (i - 1)
       = Some (BlockMilestone.mk (BlockPrediction.TargetHeight q)
                 (BlockPrediction.BlocksLeft q) (BlockPrediction.EstimatedTime q)
                 (DurationEstimate.Typical (BlockPrediction.Duration q)))
    /\ BlockPrediction.IsComplete q = false
    /\ BlockPrediction.CurrentTime q = MultiBlockPrediction.CurrentTime r
    /\ BlockPrediction.CurrentBlockAge q = MultiBlockPrediction.CurrentBlockAge r
    /\ BlockPrediction.Stats q = Some (MultiBlockPrediction.Stats r).
Proof.
  intros Hrun Hi Hheight0 Hmax. unfold PredictNextBlocks in Hrun.
  destruct (Z.leb_spec count 0); [lia|].
  rewrite bind_run in Hrun. unfold wrapErr at 1, liftCall at 1 in Hrun.
  destruct (GetLatestBlockHeight (pred_client p) (env w)) as [[current|e|msg] e1] eqn:Hheight;
    [|discriminate|discriminate].
  rewrite bind_run in Hrun. unfold wrapErr at 1 in Hrun.
  destruct (CalculateStats (pred_calculator p) {| env := e1; heap := heap w |})
    as [[stats|e|msg] w2] eqn:Hstats; [|discriminate|discriminate].
  rewrite bind_run in Hrun. unfold wrapErr at 1, liftCall at 1 in Hrun.
  destruct (GetBlockByHeight (pred_client p) current (env w2))
    as [[block|e|msg] e3] eqn:Hblock; [|discriminate|discriminate].
  rewrite bind_run in Hrun. unfold liftCall in Hrun. cbn [env heap] in Hrun.
  destruct (timeNow p e3) as [now e4] eqn:Hnow.
  injection Hrun as <- <-.
  cbn [MultiBlockPrediction.CurrentHeight MultiBlockPrediction.Predictions
       MultiBlockPrediction.CurrentTime MultiBlockPrediction.CurrentBlockAge
       MultiBlockPrediction.Stats] in *.
  eexists. split.
  { apply (PredictBlockTime_ahead p (current + i) current now stats block w w2 e1 e3 e4);
      [exact Hheight|lia|exact Hstats|exact Hblock|exact Hnow]. }
  cbn [BlockPrediction.TargetHeight BlockPrediction.IsComplete
       BlockPrediction.BlocksLeft BlockPrediction.Stats BlockPrediction.EstimatedTime
       BlockPrediction.CurrentTime BlockPrediction.CurrentBlockAge
       BlockPrediction.Duration DurationEstimate.Typical].
  split; [|repeat split].
  rewrite list_lookup_fmap.
  rewrite lookup_seq_lt by lia. cbn [fmap option_fmap option_map plus].
  unfold milestone.
  assert (Hmin : min_int64 <= 0) by (vm_compute; discriminate).
  assert (Hone : 1 <= max_int64) by (vm_compute; discriminate).
  replace (Z.of_nat (Z.to_nat (i - 1)) + 1) with i by lia.
  replace (current + i - current) with i by lia.
  rewrite (wrap64_id i) by lia.
  rewrite (wrap64_id (current + i)) by lia.
  reflexivity.
Qed.

End TargetRuns.

Section ExactPrediction.

Context {E : Type}.
Variable rt : Q -> Q.
#[local] Instance exact_prediction : Float64 Q := Exact rt.

Lemma durationOf_mono (x y : Q) :
  (0 <= x)%Q -> (x <= y)%Q -> (y * 1000000000 <= inject_Z max_int64)%Q ->
  0 <= durationOf x <= durationOf y.
Proof.
  intros Hx Hxy Hy.
  destruct (durationOf_exact rt x Hx) as [Hx1 Hx2]; [lra|].
  destruct (durationOf_exact rt y) as [Hy1 Hy2]; [lra|exact Hy|].
  change (@durationOf Q (exact_arith rt)) with (@durationOf Q exact_prediction) in *.
  set (dx := durationOf x) in *. set (dy := durationOf y) in *.
  assert (H0 : (inject_Z (-1) < inject_Z dx)%Q).
  { change (inject_Z (-1)) with (-1)%Q. lra. }
  assert (H1 : (inject_Z dx < inject_Z (dy + 1))%Q).
  { rewrite inject_Z_plus. change (inject_Z 1) with 1%Q. lra. }
  rewrite <- Zlt_Qlt in H0, H1. lia.
Qed.

(** X20: in exact arithmetic, when the estimated range of the statistics
    has 0 <= Lower <= Typical <= Upper and the pessimistic duration fits a
    time.Duration, a prediction for a height ahead has
    0 <= Min <= Typical <= Max for its durations and
    OptimisticTime <= EstimatedTime <= PessimisticTime. *)
Theorem prediction_times_ordered (p : BlockPredictor E Q) (targetHeight : Z)
    (w w' : World E Q) (r : BlockPrediction.t Q) (stats : BlockTimeStats.t Q) :
  PredictBlockTime p targetHeight w = (Ok r, w') ->
  BlockPrediction.Stats r = Some stats ->
  targetHeight - BlockPrediction.CurrentHeight r <= max_int64 ->
  (0 <= Range.Lower (BlockTimeStats.EstimatedRange stats))%Q ->
  (Range.Lower (BlockTimeStats.EstimatedRange stats)
   <= Range.Typical (BlockTimeStats.EstimatedRange stats))%Q ->
  (Range.Typical (BlockTimeStats.EstimatedRange stats)
   <= Range.Upper (BlockTimeStats.EstimatedRange stats))%Q ->
  (inject_Z (targetHeight - BlockPrediction.CurrentHeight r)
   * Range.Upper (BlockTimeStats.EstimatedRange stats) * 1000000000
   <= inject_Z max_int64)%Q ->
  (0 <= DurationEstimate.Min (BlockPrediction.Duration r)
   /\ DurationEstimate.Min (BlockPrediction.Duration r)
      <= DurationEstimate.Typical (BlockPrediction.Duration r)
   /\ DurationEstimate.Typical (BlockPrediction.Duration r)
      <= DurationEstimate.Max (BlockPrediction.Duration r))
  /\ BlockPrediction.OptimisticTime r <= BlockPrediction.EstimatedTime r
  /\ BlockPrediction.EstimatedTime r <= BlockPrediction.PessimisticTime r.
Proof.
  intros Hrun Hstats Hleft Hl0 Hlt Htu Hfits.
  destruct (PredictBlockTime_returns p targetHeight w w' r Hrun)
    as (current & e1 & Hheight & [(Hle & block & Hblock & Hheap & ->)
                                 |(Hahead & stats' & w2 & block & e3 & now & Hstats' & Hblock
                                   & Hnow & Hheap & _ & _)]);
    [discriminate|].
  destruct w' as [e4 h4]. cbn [env heap] in Hnow, Hheap. subst h4.
  rewrite (PredictBlockTime_ahead p targetHeight current now stats' block w w2 e1 e3 e4
             Hheight Hahead Hstats' Hblock Hnow) in Hrun.
  injection Hrun as <-.
  cbn [BlockPrediction.Stats BlockPrediction.CurrentHeight] in Hstats, Hleft, Hfits.
  injection Hstats as ->.
  cbn [BlockPrediction.OptimisticTime BlockPrediction.EstimatedTime
       BlockPrediction.PessimisticTime BlockPrediction.Duration DurationEstimate.Typical
       DurationEstimate.Min DurationEstimate.Max].
  assert (Hmin : min_int64 <= 0) by (vm_compute; discriminate).
  rewrite (wrap64_id (targetHeight - current)) by lia.
  cbn [f_mul f_ofInt exact_prediction Exact].
  set (k := inject_Z (targetHeight - current)) in *.
  assert (Hk : (0 <= k)%Q).
  { unfold k. change 0%Q with (inject_Z 0). rewrite <- Zle_Qle. lia. }
  set (range := BlockTimeStats.EstimatedRange stats) in *.
  assert (H1 : (0 <= k * Range.Lower range)%Q) by (apply Qmult_le_0_compat; assumption).
  assert (H2 : (k * Range.Lower range <= k * Range.Typical range)%Q).
  { rewrite !(Qmult_comm k). apply Qmult_le_compat_r; assumption. }
  assert (H3 : (k * Range.Typical range <= k * Range.Upper range)%Q).
  { rewrite !(Qmult_comm k). apply Qmult_le_compat_r; assumption. }
  destruct (durationOf_mono (k * Range.Lower range) (k * Range.Typical range))
    as [Ha Hb]; [exact H1|exact H2|lra|].
  destruct (durationOf_mono (k * Range.Typical range) (k * Range.Upper range))
    as [_ Hc]; [lra|exact H3|exact Hfits|].
  unfold durationOf in Ha, Hb, Hc.
  cbn [f_toInt f_mul f_ofInt exact_prediction Exact] in Ha, Hb, Hc.
  repeat split; lia.
Qed.

End ExactPrediction.

(** ** Concrete runs of the further properties *)




(** X4 at a concrete input: the three blocks of a chain. *)
Lemma range_fetch_complete_witness :
  (forall h, 1 <= h <= 3 ->
     block (chainNode [6; 6]) h = RpcBlock (Block.mk h ((h - 1) * 6000000000) "" "" [])
     /\ Block.Height (Block.mk h ((h - 1) * 6000000000) "" "" []) = h)
  /\ fst (GetBlockRange_cosmos (T:=float) 1 3 (chainNode [6; 6]))
     = Ok (toBlockInfos None
             (map (fun h => Block.mk h ((h - 1) * 6000000000) "" "" []) (heights 1 3))).
Proof.
  assert (Hchain : forall h, 1 <= h <= 3 ->
            block (chainNode [6; 6]) h = RpcBlock (Block.mk h ((h - 1) * 6000000000) "" "" [])
            /\ Block.Height (Block.mk h ((h - 1) * 6000000000) "" "" []) = h).
  { intros h Hh. split; [|reflexivity].
    assert (Hcases : h = 1 \/ h = 2 \/ h = 3) by lia.
    destruct Hcases as [-> | [-> | ->]]; reflexivity. }
  split; [exact Hchain|].
  apply (range_fetch_complete (T:=float) 1 3 (chainNode [6; 6])
           (fun h => Block.mk h ((h - 1) * 6000000000) "" "" [])); [lia| |exact Hchain].
  intros h _. reflexivity.
Defined.


Lemma quartet_ascending : ascending [5; 6; 7; 9]%Q.
Proof.
  apply sorted_ascending.
  repeat (constructor; [|repeat constructor; vm_compute; discriminate]). constructor.
Qed.

(** X6 at a concrete input: the quartiles of four values. *)
Lemma percentile_monotone_witness :
  (ascending [5; 6; 7; 9]%Q /\ (0.25 <= 0.75)%Q)
  /\ (@percentile Q exactly [5; 6; 7; 9] 0.25 <= @percentile Q exactly [5; 6; 7; 9] 0.75)%Q.
Proof.
  assert (Hle : (0.25 <= 0.75)%Q) by (vm_compute; discriminate).
  split; [split; [exact quartet_ascending|exact Hle]|].
  apply (percentile_monotone (fun q => q) [5; 6; 7; 9]%Q 0.25%Q 0.75%Q quartet_ascending);
    [discriminate|vm_compute; discriminate|exact Hle].
Defined.

(** X7 at a concrete input: the four deltas. *)
Lemma summary_ordered_witness :
  exists stats w',
    @calculateStatistics () Q exactly quartet_times quartet_world = (Ok stats, w')
    /\ (BlockTimeStats.Min stats <= BlockTimeStats.Median stats)%Q
    /\ (BlockTimeStats.Median stats <= BlockTimeStats.Max stats)%Q
    /\ (BlockTimeStats.Min stats <= BlockTimeStats.Mean stats)%Q
    /\ (BlockTimeStats.Mean stats <= BlockTimeStats.Max stats)%Q.
Proof.
  destruct (summary_ordered (E:=()) (fun q => q) quartet_times quartet_world)
    as (stats & w' & Hrun & (H1 & H2 & H3 & H4 & H5 & H6 & H7 & H8) & _);
    [reflexivity|cbn; lia|vm_compute; discriminate|].
  exists stats, w'. split; [exact Hrun|].
  split; [apply (Qle_trans _ _ _ H1 H2)|].
  split; [|split; assumption].
  apply (Qle_trans _ _ _ H3), (Qle_trans _ _ _ H4), (Qle_trans _ _ _ H5), H6.
Defined.

(** X8 at a concrete input: the four deltas at confidence level 0.5. *)
Lemma estimated_range_within_witness :
  (Forall (Qle 0) (slice_elems (heap quartet_world) quartet_times)
   /\ (0 <= CalculatorConfig.ConfidenceLevel (@configWith Q exactly 4 3 0.5))%Q)
  /\ exists stats w',
       @calculateStatistics () Q exactly quartet_times quartet_world = (Ok stats, w')
       /\ (Range.Lower (@calculateRange Q exactly (@configWith Q exactly 4 3 0.5)
                          quartet_times stats)
           <= Range.Upper (@calculateRange Q exactly (@configWith Q exactly 4 3 0.5)
                             quartet_times stats))%Q.
Proof.
  assert (H2 : Forall (Qle 0) (slice_elems (heap quartet_world) quartet_times))
    by (repeat constructor; vm_compute; discriminate).
  assert (H3 : (0 <= CalculatorConfig.ConfidenceLevel (@configWith Q exactly 4 3 0.5))%Q)
    by (vm_compute; discriminate).
  split; [split; assumption|].
  destruct (estimated_range_within (E:=()) (fun q => q) (@configWith Q exactly 4 3 0.5)
              quartet_times quartet_world eq_refl ltac:(vm_compute; discriminate) H2 H3)
    as (stats & w' & Hrun & _ & Hle & _).
  exists stats, w'. split; [exact Hrun|exact Hle].
Defined.

(** X10 at a concrete input: the deltas of scenario A. *)
Lemma outliers_accounted_witness :
  exists cleaned outlierCount w',
    removeOutliers DefaultConfig scenarioA_times (scenarioA_world (T:=float))
    = (Ok (cleaned, outlierCount), w')
    /\ len cleaned + outlierCount = 8.
Proof.
  destruct (removeOutliers DefaultConfig scenarioA_times (scenarioA_world (T:=float)))
    as [[[cleaned outlierCount]|e|msg] w'] eqn:Hrun;
    [|vm_compute in Hrun; discriminate|vm_compute in Hrun; discriminate].
  exists cleaned, outlierCount, w'. split; [reflexivity|].
  exact (proj1 (outliers_accounted DefaultConfig scenarioA_times cleaned outlierCount
                  (scenarioA_world (T:=float)) w' Hrun)).
Defined.

(** X11 at a concrete input: the four deltas in two worlds. *)
Lemma summary_depends_on_elements_witness :
  slice_elems (heap quartet_world) quartet_times
  = slice_elems (heap shifted_world) shifted_times
  /\ fst (@calculateStatistics () Q exactly quartet_times quartet_world)
     = fst (@calculateStatistics () Q exactly shifted_times shifted_world).
Proof.
  split; [reflexivity|].
  exact (proj1 (@summary_depends_on_elements () Q exactly quartet_times shifted_times
                  quartet_world shifted_world eq_refl eq_refl eq_refl)).
Defined.

(** X12 at a concrete input: the eleven blocks of the skewed chain. *)
Lemma range_summary_fields_witness :
  exists stats w',
    CalculateStatsForRange (cosmosCalculator (T:=float) 11 10 0.5) 1 11
      (chainWorld skewed_deltas) = (Ok stats, w')
    /\ BlockTimeStats.StartHeight stats = 1
    /\ BlockTimeStats.EndHeight stats = 11
    /\ 10 <= BlockTimeStats.SampleSize stats
    /\ 0 <= BlockTimeStats.OutlierCount stats <= BlockTimeStats.SampleSize stats.
Proof.
  destruct (CalculateStatsForRange (cosmosCalculator (T:=float) 11 10 0.5) 1 11
              (chainWorld skewed_deltas)) as [[stats|e|msg] w'] eqn:Hrun;
    [|vm_compute in Hrun; discriminate|vm_compute in Hrun; discriminate].
  exists stats, w'. split; [reflexivity|].
  destruct (range_summary_fields _ _ _ _ _ _ Hrun)
    as (blocks & first & final & _ & _ & _ & _ & H1 & H2 & _ & _ & _ & H3 & H4 & _).
  split; [exact H1|]. split; [exact H2|]. split; [exact H3|exact H4].
Defined.


(** X14 at a concrete input: the skewed chain, sampled whole with a
    minimum of ten. *)
Lemma latest_window_leaves_room_witness :
  exists stats w',
    CalculateStats {| calc_client := CosmosSDKClient;
                      calc_config := configWith (T:=float) 11 10 0.5 |}
      (chainWorld skewed_deltas) = (Ok stats, w')
    /\ BlockTimeStats.EndHeight stats = 11
    /\ BlockTimeStats.SampleSize stats <= 10.
Proof.
  destruct (CalculateStats {| calc_client := CosmosSDKClient;
                               calc_config := configWith (T:=float) 11 10 0.5 |}
              (chainWorld skewed_deltas)) as [[stats|e|msg] w'] eqn:Hrun;
    [|vm_compute in Hrun; discriminate|vm_compute in Hrun; discriminate].
  exists stats, w'. split; [reflexivity|].
  destruct (latest_window_leaves_room (configWith (T:=float) 11 10 0.5)
              (chainWorld skewed_deltas) w' stats) as (latest & Hst & Hend & _ & _ & Hle & _).
  - vm_compute. split; discriminate.
  - intros latest [= <-]. vm_compute. split; discriminate.
  - exact Hrun.
  - split; [|exact Hle]. rewrite Hend. injection Hst as <-. reflexivity.
Defined.

(** X15 at a concrete input: the default configuration. *)
Lemma validated_config_kept_witness :
  config.ValidateConfig (config.DefaultConfig (T:=float)) = None
  /\ calc_config (NewBlockTimeCalculator (CosmosSDKClient (T:=float))
                    (Some (Config.Calculator config.DefaultConfig)))
     = Config.Calculator config.DefaultConfig.
Proof.
  assert (Hvalid : config.ValidateConfig (config.DefaultConfig (T:=float)) = None)
    by by_evaluation.
  split; [exact Hvalid|].
  exact (proj1 (validated_config_kept CosmosSDKClient config.DefaultConfig Hvalid)).
Defined.

(** X17 at a concrete input: the default configuration with NaN settings. *)
Lemma nan_settings_accepted_witness :
  f_isNaN PrimFloat.nan = true
  /\ config.ValidateConfig
       (Config.mk (Config.Chain (config.DefaultConfig (T:=float)))
          (CalculatorConfig.mk 100 PrimFloat.nan PrimFloat.nan 30 PrimFloat.nan true)
          (Config.Output (config.DefaultConfig (T:=float)))) = None.
Proof.
  split; [reflexivity|].
  exact (proj1 (nan_settings_accepted (CosmosSDKClient (T:=float))
                  (Config.Chain (config.DefaultConfig (T:=float)))
                  (Config.Output (config.DefaultConfig (T:=float)))
                  100 30 true PrimFloat.nan PrimFloat.nan PrimFloat.nan
                  ltac:(by_evaluation) eq_refl eq_refl eq_refl)).
Defined.

(** X18 at concrete inputs, scenario C: a block of the past and one ahead. *)
Lemma prediction_fields_witness :
  (exists r w',
     PredictBlockTime (steadyPredictor (T:=float)) 50 (chainWorld (replicate 99 6)) = (Ok r, w')
     /\ BlockPrediction.IsComplete r = true
     /\ BlockPrediction.BlocksLeft r = 0)
  /\ (exists r w',
        PredictBlockTime (steadyPredictor (T:=float)) 105 (chainWorld (replicate 99 6))
        = (Ok r, w')
        /\ BlockPrediction.IsComplete r = false
        /\ BlockPrediction.EstimatedTime r
           = BlockPrediction.CurrentTime r
             + DurationEstimate.Typical (BlockPrediction.Duration r)).
Proof.
  split.
  - destruct (PredictBlockTime (steadyPredictor (T:=float)) 50 (chainWorld (replicate 99 6)))
      as [[r|e|msg] w'] eqn:Hrun;
      [|vm_compute in Hrun; discriminate|vm_compute in Hrun; discriminate].
    exists r, w'. split; [reflexivity|].
    destruct (prediction_fields _ _ _ _ _ Hrun) as (_ & Hcomplete & _ & Hpast & _).
    assert (Hc : BlockPrediction.IsComplete r = true).
    { vm_compute in Hrun. injection Hrun as <- _. reflexivity. }
    split; [exact Hc|exact (proj1 (Hpast Hc))].
  - destruct (PredictBlockTime (steadyPredictor (T:=float)) 105 (chainWorld (replicate 99 6)))
      as [[r|e|msg] w'] eqn:Hrun;
      [|vm_compute in Hrun; discriminate|vm_compute in Hrun; discriminate].
    exists r, w'. split; [reflexivity|].
    destruct (prediction_fields _ _ _ _ _ Hrun) as (_ & _ & _ & _ & Hahead).
    assert (Hc : BlockPrediction.IsComplete r = false).
    { vm_compute in Hrun. injection Hrun as <- _. reflexivity. }
    split; [exact Hc|]. exact (proj1 (proj2 (proj2 (proj2 (Hahead Hc))))).
Defined.

(** X19 at a concrete input, scenario C: the second of three milestones. *)
Lemma target_agrees_with_milestone_witness :
  exists r w' q,
    PredictNextBlocks (steadyPredictor (T:=float)) 3 (chainWorld (replicate 99 6)) = (Ok r, w')
    /\ PredictBlockTime (steadyPredictor (T:=float)) 102 (chainWorld (replicate 99 6))
       = (Ok q, w')
    /\ MultiBlockPrediction.Predictions r !! 1%nat
       = Some (BlockMilestone.mk 102 2 (BlockPrediction.EstimatedTime q)
                 (DurationEstimate.Typical (BlockPrediction.Duration q))).
Proof.
  destruct (PredictNextBlocks (steadyPredictor (T:=float)) 3 (chainWorld (replicate 99 6)))
    as [[r|e|msg] w'] eqn:Hrun;
    [|vm_compute in Hrun; discriminate|vm_compute in Hrun; discriminate].
  assert (Hheight : MultiBlockPrediction.CurrentHeight r = 100).
  { vm_compute in Hrun. injection Hrun as <- _. reflexivity. }
  destruct (target_agrees_with_milestone (steadyPredictor (T:=float)) 3 2
              (chainWorld (replicate 99 6)) w' r Hrun)
    as (q & Hq & Hm & _); [lia|rewrite Hheight; lia|rewrite Hheight; vm_compute; discriminate|].
  rewrite Hheight in Hq. change (100 + 2) with 102 in Hq.
  exists r, w', q. split; [reflexivity|]. split; [exact Hq|].
  change (Z.to_nat (2 - 1)) with 1%nat in Hm. rewrite Hm.
  assert (Hleft : BlockPrediction.TargetHeight q = 102 /\ BlockPrediction.BlocksLeft q = 2).
  { vm_compute in Hq. injection Hq as <- _. split; reflexivity. }
  destruct Hleft as [-> ->]. reflexivity.
Defined.

(** X20 at a concrete input, scenario C in exact arithmetic: five blocks
    ahead. *)
Lemma prediction_times_ordered_witness :
  exists r w',
    @PredictBlockTime Node Q exactly (@steadyPredictor Q exactly) 105 (chainWorld (replicate 99 6))
    = (Ok r, w')
    /\ BlockPrediction.OptimisticTime r <= BlockPrediction.EstimatedTime r
    /\ BlockPrediction.EstimatedTime r <= BlockPrediction.PessimisticTime r.
Proof.
  destruct (@PredictBlockTime Node Q exactly (@steadyPredictor Q exactly) 105 (chainWorld (replicate 99 6)))
    as [[r|e|msg] w'] eqn:Hrun;
    [|vm_compute in Hrun; discriminate|vm_compute in Hrun; discriminate].
  exists r, w'. split; [reflexivity|].
  pose proof Hrun as Hvalue. vm_compute in Hvalue. injection Hvalue as Hr _.
  destruct (BlockPrediction.Stats r) as [stats|] eqn:Hstats;
    [|rewrite <- Hr in Hstats; discriminate].
  refine (proj2 (prediction_times_ordered (E:=Node) (fun q => q) (@steadyPredictor Q exactly)
                   105 (chainWorld (replicate 99 6)) w' r stats Hrun Hstats _ _ _ _ _));
    rewrite <- Hr in Hstats; injection Hstats as <-; try rewrite <- Hr;
    vm_compute; discriminate.
Defined.

(** ** Outlier removal as a function of the elements *)

Section OutlierRuns.

Context {E T : Type} `{F : Float64 T}.

Lemma holding_array (h0 : list (list T)) (w : World E T) (s : Slice) (l : list T) :
  holding h0 w s l -> take (s_len s) (array_of (heap w) s) = l.
Proof.
  intros (Hoff & Hl & _). unfold slice_elems in Hl. rewrite Hoff in Hl. exact Hl.
Qed.

Lemma append_holding (h0 : list (list T)) (s : Slice) (l : list T) (v : T) (w : World E T) :
  h0 `prefix_of` heap w -> holding h0 w s l ->
  exists s' w', append s v w = (Ok s', w')
    /\ holding h0 w' s' (l ++ [v]) /\ h0 `prefix_of` heap w' /\ env w' = env w.
Proof.
  intros Hpre Hs. pose proof (holding_array _ _ _ _ Hs) as Harr.
  destruct Hs as (Hoff & Hl & Hlen & Hcap & Hroom). unfold append.
  destruct (s_len s <? s_cap s)%nat eqn:Hlt.
  - apply Nat.ltb_lt in Hlt. destruct Hroom as [Hfresh Hptr]; [lia|].
    eexists _, _. split; [reflexivity|]. cbn [heap env].
    split; [|split; [apply prefix_store; assumption|reflexivity]].
    unfold holding. cbn [s_off s_len s_cap s_ptr heap].
    split; [exact Hoff|]. split; [|split; [rewrite length_app; cbn; lia|split; [lia|]]].
    + unfold slice_elems, store_at, array_of. cbn [s_off s_len s_ptr]. rewrite Hoff.
      rewrite list_lookup_insert_eq by exact Hptr. cbn [default from_option id drop Nat.add].
      unfold array_of in Harr.
      assert (Hta : length (take (s_len s) (default [] (heap w !! s_ptr s))) = s_len s)
        by (rewrite Harr; exact Hlen).
      rewrite drop_0, take_app_ge by (rewrite Hta; lia). rewrite Hta.
      replace (S (s_len s) - s_len s)%nat with 1%nat by lia.
      rewrite Harr. reflexivity.
    + intros _. split; [exact Hfresh|]. unfold store_at. rewrite length_insert. exact Hptr.
  - apply Nat.ltb_ge in Hlt.
    eexists _, _. split; [reflexivity|]. cbn [heap env].
    split; [|split; [apply prefix_app_r; exact Hpre|reflexivity]].
    unfold holding. cbn [s_off s_len s_cap s_ptr heap].
    split; [reflexivity|]. split; [|split; [rewrite length_app; cbn; lia|split]].
    + unfold slice_elems at 1, array_of. cbn [s_off s_len s_ptr].
      rewrite lookup_app_r by lia. rewrite Nat.sub_diag. cbn [lookup list_lookup default from_option id drop].
      rewrite drop_0, Hl, take_app_ge by lia.
      replace (S (s_len s) - length l)%nat with 1%nat by lia. reflexivity.
    + unfold grow. destruct (s_cap s =? 0)%nat eqn:Hc;
        [apply Nat.eqb_eq in Hc|apply Nat.eqb_neq in Hc]; lia.
    + intros _. split; [unfold fresh; cbn; apply prefix_length; exact Hpre|].
      rewrite length_app. cbn. lia.
Qed.

(** The loop that appends the values it keeps and counts the others, over
    a slice whose elements [xs] no write of the loop reaches. *)
Lemma filter_loop_from (h0 : list (list T)) (s : Slice) (keep : T -> bool) (xs : list T) :
  (forall w : World E T, h0 `prefix_of` heap w -> slice_elems (heap w) s = xs) ->
  forall (n i : nat) (cleaned : Slice) (l : list T) (outlierCount : Z) (w : World E T),
    (i + n = length xs)%nat -> h0 `prefix_of` heap w -> holding h0 w cleaned l ->
    exists cleaned' w',
      forRangeFrom s (fun _ v '(cleaned, outlierCount) =>
          if keep v then
            cleaned' ← append cleaned v;
            mret (cleaned', outlierCount)
          else mret (cleaned, outlierCount + 1)) i n (cleaned, outlierCount) w
      = (Ok (cleaned', outlierCount + Z.of_nat n
                       - Z.of_nat (length (List.filter keep (drop i xs)))), w')
      /\ holding h0 w' cleaned' (l ++ List.filter keep (drop i xs))
      /\ h0 `prefix_of` heap w' /\ env w' = env w.
Proof.
  intros Hstable. induction n as [|n IH]; intros i cleaned l outlierCount w Hn Hpre Hc;
    cbn [forRangeFrom].
  - rewrite drop_ge by lia. simpl List.filter. rewrite app_nil_r.
    exists cleaned, w. split; [|auto]. cbn [length mret M_ret].
    change (Z.of_nat 0) with 0. rewrite Z.add_0_r, Z.sub_0_r. reflexivity.
  - rewrite bind_run. unfold index. rewrite (Hstable w Hpre).
    destruct (xs !! i) as [v|] eqn:Hv; [|apply lookup_ge_None in Hv; lia].
    rewrite (drop_S _ _ _ Hv). cbn [List.filter].
    rewrite bind_run. destruct (keep v).
    + rewrite bind_run.
      destruct (append_holding h0 cleaned l v w Hpre Hc) as (c1 & w1 & Happ & Hc1 & Hpre1 & Henv1).
      rewrite Happ.
      destruct (IH (S i) c1 (l ++ [v]) outlierCount w1 ltac:(lia) Hpre1 Hc1)
        as (c2 & w2 & Hrun & Hc2 & Hpre2 & Henv2).
      exists c2, w2. cbn [length]. rewrite <- app_assoc in Hc2. cbn [app] in Hc2.
      split; [|split; [exact Hc2|split; [exact Hpre2|congruence]]].
      etransitivity; [exact Hrun|]. f_equal. f_equal. f_equal. lia.
    + destruct (IH (S i) cleaned l (outlierCount + 1) w ltac:(lia) Hpre Hc)
        as (c2 & w2 & Hrun & Hc2 & Hpre2 & Henv2).
      exists c2, w2.
      split; [|split; [exact Hc2|split; [exact Hpre2|exact Henv2]]].
      etransitivity; [exact Hrun|]. f_equal. f_equal. f_equal. lia.
Qed.

(** The sorted copy both strategies start from. *)
Lemma sorted_copy_run {B} (times : Slice) (w : World E T) (k : Slice -> M E T B) :
  length (slice_elems (heap w) times) = s_len times -> (0 < s_len times)%nat ->
  (sorted ← make (len times) (len times);
   _ ← copy sorted times;
   _ ← sortFloat64s sorted;
   k sorted) w
  = k {| s_ptr := length (heap w); s_off := 0; s_len := s_len times; s_cap := s_len times |}
      {| env := env w; heap := heap w ++ [sortedFloat64s (slice_elems (heap w) times)] |}.
Proof.
  intros Hlen Hpos.
  pose proof (slice_valid _ _ Hlen Hpos) as Hptr.
  set (xs := slice_elems (heap w) times) in *.
  unfold len. rewrite bind_run. unfold make.
  replace ((Z.of_nat (s_len times) <? 0) || (Z.of_nat (s_len times) <? Z.of_nat (s_len times)))
    with false by (symmetry; apply orb_false_iff; split; apply Z.ltb_ge; lia).
  rewrite Nat2Z.id.
  rewrite bind_run. unfold copy, set_heap. cbn [heap env s_len].
  rewrite Nat.min_id, slice_elems_app by exact Hptr. fold xs.
  rewrite take_ge by lia.
  rewrite store_fresh by (rewrite ?length_replicate; lia).
  rewrite bind_run. unfold sortFloat64s, set_heap. cbn [heap env].
  rewrite slice_elems_fresh by lia.
  rewrite store_fresh by (rewrite ?sortedFloat64s_length; lia).
  reflexivity.
Qed.

Lemma removeOutliersIQR_run (c : CalculatorConfig.t T) (sorted : Slice) (w : World E T) :
  length (slice_elems (heap w) sorted) = s_len sorted ->
  (s_ptr sorted < length (heap w))%nat ->
  let sv := slice_elems (heap w) sorted in
  exists cleaned w',
    removeOutliersIQR c sorted w
    = (Ok (cleaned, len sorted - Z.of_nat (length (List.filter (withinFences c sv) sv))), w')
    /\ slice_elems (heap w') cleaned = List.filter (withinFences c sv) sv
    /\ length (List.filter (withinFences c sv) sv) = s_len cleaned
    /\ heap w `prefix_of` heap w' /\ env w' = env w.
Proof.
  intros Hlen Hptr sv.
  assert (Hstable : forall w' : World E T,
            heap w `prefix_of` heap w' -> slice_elems (heap w') sorted = sv).
  { intros w' Hpre. apply slice_elems_prefix; assumption. }
  set (cleaned0 := {| s_ptr := length (heap w); s_off := 0; s_len := 0;
                      s_cap := s_len sorted |}).
  set (w1 := {| env := env w; heap := heap w ++ [replicate (s_len sorted) (f_lit 0)] |}).
  destruct (filter_loop_from (heap w) sorted (withinFences c sv) sv Hstable
              (s_len sorted) 0 cleaned0 [] 0 w1) as (cleaned & w' & Hrun & Hc & Hpre & Henv).
  - unfold sv. lia.
  - apply prefix_app_r. reflexivity.
  - unfold holding, cleaned0, w1. cbn [s_off s_len s_cap s_ptr heap].
    split; [reflexivity|]. split; [reflexivity|]. split; [reflexivity|]. split; [lia|].
    intros _. split; [unfold fresh; cbn; lia|]. rewrite length_app. cbn. lia.
  - exists cleaned, w'. rewrite drop_0 in Hrun, Hc. cbn [app] in Hc.
    destruct Hc as (_ & Hl & Hlen' & _).
    split; [|split; [exact Hl|split; [exact Hlen'|split; [exact Hpre|exact Henv]]]].
    unfold removeOutliersIQR. rewrite bind_run. unfold elems. fold sv.
    rewrite bind_run. unfold make, len.
    replace ((0 <? 0) || (Z.of_nat (s_len sorted) <? 0)) with false
      by (symmetry; apply orb_false_iff; split; apply Z.ltb_ge; lia).
    rewrite Nat2Z.id. change (Z.to_nat 0) with 0%nat. fold cleaned0 w1.
    unfold forRange. etransitivity; [exact Hrun|]. reflexivity.
Qed.

(** A write into the array allocated last. *)
Lemma store_last (h : list (list T)) (d xs : list T) (n c i : nat) :
  store_at (h ++ [d]) {| s_ptr := length h; s_off := 0; s_len := n; s_cap := c |} i xs
  = h ++ [take i d ++ xs ++ drop (i + length xs) d].
Proof.
  unfold store_at, array_of. cbn [s_ptr s_off].
  rewrite lookup_app_r by lia. rewrite Nat.sub_diag. cbn [lookup list_lookup default from_option id].
  rewrite insert_app_r_alt by lia. rewrite Nat.sub_diag. reflexivity.
Qed.

(** The loop that fills the deviations, one index after the other. *)
Lemma deviations_loop (g : T -> T) (h : list (list T)) (sorted : Slice) (sv : list T) (e : E) :
  (s_ptr sorted < length h)%nat -> slice_elems h sorted = sv ->
  forall (m i : nat), (i + m = length sv)%nat ->
    forRangeFrom sorted
      (fun i v _ => setIndex {| s_ptr := length h; s_off := 0; s_len := length sv;
                                s_cap := length sv |} i (g v)) i m ()
      {| env := e;
         heap := h ++ [map g (take i sv) ++ replicate (length sv - i) (f_lit 0)] |}
    = (Ok (), {| env := e; heap := h ++ [map g sv] |}).
Proof.
  intros Hptr Hsv. induction m as [|m IH]; intros i Hi; cbn [forRangeFrom].
  - replace i with (length sv) by lia. rewrite take_ge, Nat.sub_diag by lia.
    cbn [replicate]. rewrite app_nil_r. reflexivity.
  - rewrite bind_run. unfold index. cbn [heap].
    rewrite slice_elems_app by exact Hptr. rewrite Hsv.
    destruct (sv !! i) as [v|] eqn:Hv; [|apply lookup_ge_None in Hv; lia].
    rewrite bind_run. unfold setIndex. cbn [s_len].
    replace (i <? length sv)%nat with true by (symmetry; apply Nat.ltb_lt; lia).
    unfold set_heap. cbn [heap env]. rewrite store_last.
    rewrite <- (IH (S i)) by lia. f_equal. f_equal. f_equal. f_equal.
    rewrite (take_S_r _ _ _ Hv), map_app. cbn [map length].
    assert (Hti : length (map g (take i sv)) = i) by (rewrite length_map, length_take; lia).
    rewrite take_app_ge by lia. rewrite Hti, Nat.sub_diag, take_0, app_nil_r.
    rewrite drop_app_ge by lia. rewrite Hti.
    replace (i + 1 - i)%nat with 1%nat by lia.
    replace (length sv - i)%nat with (S (length sv - S i)) by lia.
    cbn [replicate drop]. rewrite <- app_assoc. reflexivity.
Qed.

(** A full slice sorted in place. *)
Lemma sort_holding (h0 : list (list T)) (s : Slice) (l : list T) (w : World E T) :
  h0 `prefix_of` heap w -> holding h0 w s l -> (0 < s_len s)%nat ->
  exists w', sortFloat64s s w = (Ok (), w')
    /\ holding h0 w' s (sortedFloat64s l) /\ h0 `prefix_of` heap w' /\ env w' = env w
    /\ take (s_len s) (array_of (heap w') s) = sortedFloat64s l.
Proof.
  intros Hpre Hs Hpos. pose proof (holding_array _ _ _ _ Hs) as Harr.
  destruct Hs as (Hoff & Hl & Hlen & Hcap & Hroom).
  destruct Hroom as [Hfresh Hptr]; [lia|].
  eexists. split; [reflexivity|]. cbn [heap env].
  assert (Hnew : take (s_len s)
                   (array_of (store_at (heap w) s 0 (sortedFloat64s (slice_elems (heap w) s))) s)
                 = sortedFloat64s l).
  { unfold store_at, array_of. rewrite Hoff, Hl.
    rewrite list_lookup_insert_eq by exact Hptr. cbn [default from_option id Nat.add take app].
    rewrite take_0. cbn [app].
    apply take_app_length'. rewrite sortedFloat64s_length. symmetry. exact Hlen. }
  split; [|split; [apply prefix_store; assumption|split; [reflexivity|exact Hnew]]].
  unfold holding. split; [exact Hoff|]. split.
  { unfold slice_elems at 1. rewrite Hoff, drop_0. exact Hnew. }
  split; [rewrite sortedFloat64s_length; exact Hlen|]. split; [exact Hcap|].
  intros _. split; [exact Hfresh|]. cbn [heap]. unfold store_at.
  rewrite length_insert. exact Hptr.
Qed.

(** What [removeOutliers] returns, read off the elements of its input. *)
Lemma removeOutliers_run (c : CalculatorConfig.t T) (times : Slice) (w : World E T) :
  length (slice_elems (heap w) times) = s_len times ->
  match cleanedOf c (slice_elems (heap w) times) with
  | Some (l, outlierCount) =>
      exists cleaned w',
        removeOutliers c times w = (Ok (cleaned, outlierCount), w')
        /\ slice_elems (heap w') cleaned = l /\ length l = s_len cleaned
        /\ heap w `prefix_of` heap w' /\ env w' = env w
  | None => exists w', removeOutliers c times w = (Panic "slice bounds out of range", w')
  end.
Proof.
  intros Hlen. set (xs := slice_elems (heap w) times) in *.
  remember (removeOutliers c times w) as run eqn:Hr.
  unfold removeOutliers, len in Hr.
  unfold cleanedOf. rewrite Hlen.
  destruct (Z.leb_spec (Z.of_nat (s_len times)) 3) as [Hsmall|Hbig].
  { exists times, w. rewrite Hr. repeat split; [exact Hlen|reflexivity]. }
  pose proof (slice_valid _ _ Hlen ltac:(lia)) as Hptr.
  rewrite sorted_copy_run in Hr by (assumption || lia). fold xs in Hr.
  set (sv := sortedFloat64s xs) in *.
  assert (Hsv : length sv = s_len times) by (unfold sv; rewrite sortedFloat64s_length; exact Hlen).
  assert (Hiqr : forall w5 : World E T,
            heap w ++ [sv] `prefix_of` heap w5 -> env w5 = env w ->
            exists cleaned w',
              removeOutliersIQR c {| s_ptr := length (heap w); s_off := 0;
                                     s_len := s_len times; s_cap := s_len times |} w5
              = (Ok (cleaned, Z.of_nat (s_len times)
                              - Z.of_nat (length (List.filter (withinFences c sv) sv))), w')
              /\ slice_elems (heap w') cleaned = List.filter (withinFences c sv) sv
              /\ length (List.filter (withinFences c sv) sv) = s_len cleaned
              /\ heap w `prefix_of` heap w' /\ env w' = env w).
  { intros w5 Hpre5 Henv5.
    set (sorted := {| s_ptr := length (heap w); s_off := 0; s_len := s_len times;
                      s_cap := s_len times |}).
    assert (Hs5 : slice_elems (heap w5) sorted = sv).
    { rewrite (slice_elems_prefix (heap w ++ [sv]) (heap w5) sorted Hpre5)
        by (unfold sorted; cbn; rewrite length_app; cbn; lia).
      unfold sorted. apply slice_elems_fresh. exact Hsv. }
    destruct (removeOutliersIQR_run c sorted w5) as (cl & w' & Hrun & Hl & Hlen' & Hpre & Henv).
    - rewrite Hs5. exact Hsv.
    - apply prefix_length in Hpre5. rewrite length_app in Hpre5. cbn in *. lia.
    - rewrite Hs5 in *. exists cl, w'. split; [exact Hrun|]. split; [exact Hl|].
      split; [exact Hlen'|]. split; [|congruence].
      etransitivity; [|exact Hpre]. etransitivity; [|exact Hpre5].
      apply prefix_app_r. reflexivity. }
  destruct (CalculatorConfig.UseMedianAbsolute c); cbn [negb].
  2:{ rewrite Hr. apply Hiqr; reflexivity. }
  rewrite bind_run in Hr. unfold elems at 1 in Hr. cbn [heap] in Hr.
  rewrite (slice_elems_fresh (heap w) sv (s_len times) (s_len times) Hsv) in Hr.
  rewrite bind_run in Hr. unfold make, len in Hr. cbn [s_len] in Hr.
  replace ((Z.of_nat (s_len times) <? 0) || (Z.of_nat (s_len times) <? Z.of_nat (s_len times)))
    with false in Hr by (symmetry; apply orb_false_iff; split; apply Z.ltb_ge; lia).
  rewrite Nat2Z.id in Hr. cbn [heap env] in Hr.
  rewrite bind_run in Hr. unfold forRange in Hr. cbn [s_len] in Hr.
  pose proof (deviations_loop (fun v => f_abs (f_sub v (percentile sv (f_lit 0.5))))
                (heap w ++ [sv])
                {| s_ptr := length (heap w); s_off := 0; s_len := s_len times;
                   s_cap := s_len times |} sv (env w)) as Hdev.
  rewrite Hsv in Hdev.
  specialize (Hdev ltac:(cbn; rewrite length_app; cbn; lia)
                   ltac:(apply slice_elems_fresh; exact Hsv)
                   (s_len times) 0%nat ltac:(lia)).
  rewrite take_0, Nat.sub_0_r in Hdev. cbn [map app] in Hdev.
  rewrite Hdev in Hr. clear Hdev.
  rewrite bind_run in Hr. unfold sortFloat64s at 1, set_heap in Hr. cbn [heap env] in Hr.
  rewrite slice_elems_fresh in Hr by (rewrite length_map; exact Hsv).
  rewrite store_fresh in Hr by (rewrite ?sortedFloat64s_length, length_map; exact Hsv).
  rewrite bind_run in Hr. unfold elems in Hr. cbn [heap] in Hr.
  rewrite slice_elems_fresh in Hr by (rewrite sortedFloat64s_length, length_map; exact Hsv).
  change (percentile (sortedFloat64s (map (fun v => f_abs (f_sub v (percentile sv (f_lit 0.5)))) sv))
            (f_lit 0.5)) with (madOf sv) in Hr.
  set (w5 := {| env := env w;
                heap := (heap w ++ [sv])
                        ++ [sortedFloat64s
                              (map (fun v => f_abs (f_sub v (percentile sv (f_lit 0.5)))) sv)] |})
    in *.
  destruct (f_eqb (madOf sv) (f_lit 0)).
  { rewrite Hr. apply Hiqr; [apply prefix_app_r; reflexivity|reflexivity]. }
  assert (Hstable : forall w' : World E T,
            heap w5 `prefix_of` heap w' -> slice_elems (heap w') times = xs).
  { intros w' Hpre.
    rewrite (slice_elems_prefix (heap w5) (heap w') times Hpre)
      by (unfold w5; cbn; rewrite !length_app; cbn; lia).
    unfold w5. cbn [heap]. rewrite !slice_elems_app by (rewrite ?length_app; cbn; lia).
    reflexivity. }
  destruct (filter_loop_from (heap w5) times (withinScore sv) xs Hstable
              (s_len times) 0 nilSlice [] 0 w5) as (cl & w6 & Hrun & Hc & Hpre6 & Henv6).
  { lia. }
  { reflexivity. }
  { unfold holding, nilSlice. cbn [s_off s_len s_cap s_ptr].
    split; [reflexivity|]. split; [reflexivity|]. split; [reflexivity|]. split; lia. }
  rewrite drop_0 in Hrun, Hc. cbn [app] in Hc.
  set (kept := List.filter (withinScore sv) xs) in *.
  rewrite bind_run in Hr. unfold forRange in Hr.
  match type of Hr with
  | context [forRangeFrom times ?body 0 (s_len times) (nilSlice, 0) w5] =>
      change (forRangeFrom times body 0 (s_len times) (nilSlice, 0) w5)
        with (forRangeFrom times (fun _ v '(cleaned, outlierCount) =>
                if withinScore sv v then
                  cleaned' ← append cleaned v; mret (cleaned', outlierCount)
                else mret (cleaned, outlierCount + 1)) 0 (s_len times) (nilSlice, 0) w5)
        in Hr
  end.
  rewrite Hrun in Hr.
  assert (Hpre_w : heap w `prefix_of` heap w6).
  { etransitivity; [|exact Hpre6]. unfold w5. cbn [heap].
    rewrite <- app_assoc. apply prefix_app_r. reflexivity. }
  assert (Henv_w : env w6 = env w) by (rewrite Henv6; reflexivity).
  pose proof Hc as (Hoff & Hl & Hlk & Hcap & Hroom).
  unfold len in Hr. rewrite <- Hlk in Hr.
  set (k := Z.of_nat (length kept)) in *.
  set (trimCount := f_toInt (f_mul (f_ofInt k) (CalculatorConfig.TrimPercent c))) in *.
  replace (0 + Z.of_nat (s_len times) - k) with (Z.of_nat (s_len times) - k) in Hr by lia.
  destruct (f_ltb (f_lit 0) (CalculatorConfig.TrimPercent c)); cbn [andb] in Hr |- *;
    [|exists cl, w6; rewrite Hr; repeat split; assumption].
  destruct (Z.ltb_spec 10 k) as [Hk|Hk]; cbn [andb];
    [|exists cl, w6; rewrite Hr; repeat split; assumption].
  destruct (Z.ltb_spec 0 trimCount) as [Htrim|Htrim];
    [|exists cl, w6; rewrite Hr; repeat split; assumption].
  rewrite bind_run in Hr.
  destruct (sort_holding (heap w5) cl kept w6 Hpre6 Hc ltac:(unfold k in Hk; lia))
    as (w7 & Hsort & Hc7 & Hpre7 & Henv7 & Harr7).
  rewrite Hsort in Hr. rewrite bind_run in Hr. unfold reslice in Hr.
  replace (trimCount <? 0) with false in Hr by (symmetry; apply Z.ltb_ge; lia).
  cbn [orb] in Hr.
  destruct (Z.ltb_spec (k - trimCount) trimCount) as [Hover|Hfits]; cbn [orb] in Hr.
  { exists w7. rewrite Hr. reflexivity. }
  replace (Z.of_nat (s_cap cl) <? k - trimCount) with false in Hr
    by (symmetry; apply Z.ltb_ge; unfold k; lia).
  eexists _, w7. rewrite Hr. split; [reflexivity|].
  split.
  { unfold slice_elems. cbn [s_off s_len s_ptr]. rewrite Hoff. cbn [Nat.add].
    change (default [] (heap w7 !! s_ptr cl)) with (array_of (heap w7) cl).
    rewrite <- Harr7. rewrite skipn_firstn_comm, take_take.
    f_equal. unfold k in *. lia. }
  split.
  { rewrite length_take, length_drop, sortedFloat64s_length. unfold k in *. cbn [s_len]. lia. }
  split; [|congruence].
  etransitivity; [|exact Hpre7]. unfold w5. cbn [heap].
  rewrite <- app_assoc. apply prefix_app_r. reflexivity.
Qed.

(** X21: outlier removal is a function of the elements of its input:
    whatever the heap, removeOutliers returns a slice that holds the values
    cleanedOf selects and the count cleanedOf gives, having called no
    collaborator and changed no array that existed before; it panics
    exactly when the trimming slice expression is out of bounds. *)
Theorem removeOutliers_elements (c : CalculatorConfig.t T) (times : Slice) (w : World E T) :
  length (slice_elems (heap w) times) = s_len times ->
  match cleanedOf c (slice_elems (heap w) times) with
  | Some (l, outlierCount) =>
      exists cleaned w',
        removeOutliers c times w = (Ok (cleaned, outlierCount), w')
        /\ slice_elems (heap w') cleaned = l /\ length l = s_len cleaned
        /\ heap w `prefix_of` heap w' /\ env w' = env w
  | None => exists w', removeOutliers c times w = (Panic "slice bounds out of range", w')
  end.
Proof. apply removeOutliers_run. Qed.

Lemma filter_sublist (f : T -> bool) (l : list T) : sublist (List.filter f l) l.
Proof.
  induction l as [|x l IH]; cbn [List.filter]; [constructor|].
  destruct (f x); [apply sublist_skip|apply sublist_cons]; exact IH.
Qed.

Lemma cleanedOf_submseteq (c : CalculatorConfig.t T) (xs l : list T) (outlierCount : Z) :
  cleanedOf c xs = Some (l, outlierCount) -> l ⊆+ xs.
Proof.
  unfold cleanedOf. intros Hc.
  assert (Hiqr : List.filter (withinFences c (sortedFloat64s xs)) (sortedFloat64s xs) ⊆+ xs).
  { etransitivity; [apply sublist_submseteq, filter_sublist|].
    apply Permutation_submseteq, sortedFloat64s_perm. }
  destruct (_ <=? 3); [injection Hc as <- _; reflexivity|].
  destruct (negb _); [injection Hc as <- _; exact Hiqr|].
  destruct (f_eqb _ _); [injection Hc as <- _; exact Hiqr|].
  destruct (_ && _).
  - destruct (_ <? _); [discriminate|]. injection Hc as <- _.
    etransitivity; [apply sublist_submseteq, sublist_take|].
    etransitivity; [apply sublist_submseteq, sublist_drop|].
    etransitivity; [apply Permutation_submseteq, sortedFloat64s_perm|].
    apply sublist_submseteq, filter_sublist.
  - injection Hc as <- _. apply sublist_submseteq, filter_sublist.
Qed.

(** X22: outlier removal invents no value: the values of the cleaned slice
    are values of the input, each at most as often as the input has it. *)
Theorem cleaned_values_from_input (c : CalculatorConfig.t T) (times cleaned : Slice)
    (outlierCount : Z) (w w' : World E T) :
  length (slice_elems (heap w) times) = s_len times ->
  removeOutliers c times w = (Ok (cleaned, outlierCount), w') ->
  slice_elems (heap w') cleaned ⊆+ slice_elems (heap w) times.
Proof.
  intros Hlen Hrun. pose proof (removeOutliers_run c times w Hlen) as Hspec.
  destruct (cleanedOf c (slice_elems (heap w) times)) as [[l oc]|] eqn:Hc.
  - destruct Hspec as (cl & w1 & Hrun1 & Hl & _).
    rewrite Hrun in Hrun1. injection Hrun1 as -> -> ->.
    rewrite Hl. apply (cleanedOf_submseteq c _ _ _ Hc).
  - destruct Hspec as (w1 & Hrun1). rewrite Hrun in Hrun1. discriminate.
Qed.

End OutlierRuns.

(** ** Exact arithmetic: what outlier removal keeps *)

Section ExactOutliers.

Context {E : Type}.
Variable rt : Q -> Q.
#[local] Instance exact_outliers : Float64 Q := Exact rt.

Lemma sorted_input_ascending (xs : list Q) : ascending (sortedFloat64s xs).
Proof. apply sorted_ascending, (sortedFloat64s_sorted rt). Qed.

Lemma In_sortedFloat64s (xs : list Q) (v : Q) : In v (sortedFloat64s xs) <-> In v xs.
Proof.
  split; intros Hv.
  - apply (Permutation_in _ (sortedFloat64s_perm xs)), Hv.
  - apply (Permutation_in _ (Permutation_sym (sortedFloat64s_perm xs))), Hv.
Qed.

(** Some element lies between the quartiles of an ascending sequence of
    three elements or more. *)
Lemma quartiles_enclose (s : list Q) :
  ascending s -> (3 <= length s)%nat -> Z.of_nat (length s) <= max_int64 ->
  exists v, In v s /\ (percentile s 0.25 <= v)%Q /\ (v <= percentile s 0.75)%Q.
Proof.
  intros Hasc Hn Hmax.
  assert (Hne : s <> []) by (intros ->; cbn in Hn; lia).
  assert (Hp1 : (percentile s 0.25 == rank_value s (0.25 * inject_Z (Z.of_nat (length s) - 1)))%Q)
    by (apply (percentile_rank rt s 0.25 Hne Hmax); reflexivity).
  assert (Hp3 : (percentile s 0.75 == rank_value s (0.75 * inject_Z (Z.of_nat (length s) - 1)))%Q)
    by (apply (percentile_rank rt s 0.75 Hne Hmax); reflexivity).
  assert (Hm : (2 <= inject_Z (Z.of_nat (length s) - 1))%Q).
  { change 2%Q with (inject_Z 2). rewrite <- Zle_Qle. lia. }
  set (m := inject_Z (Z.of_nat (length s) - 1)) in *.
  destruct (rank_value_bounds s (0.25 * m)%Q Hasc) as [_ Hq1]; [lra|fold m; lra|].
  destruct (rank_value_bounds s (0.75 * m)%Q Hasc) as [Hq3 _]; [lra|fold m; lra|].
  pose proof (Qceiling_lt (0.25 * m)) as Hc.
  pose proof (Qlt_floor (0.75 * m)) as Hf.
  assert (Hcf : Qceiling (0.25 * m) <= Qfloor (0.75 * m)).
  { unfold Zminus in Hc. rewrite inject_Z_plus in Hc, Hf.
    change (inject_Z (- (1))) with (- (1))%Q in Hc. change (inject_Z 1) with 1%Q in Hf.
    assert (Hlt : (inject_Z (Qceiling (0.25 * m)) < inject_Z (Qfloor (0.75 * m) + 1))%Q)
      by (rewrite inject_Z_plus; change (inject_Z 1) with 1%Q; lra).
    rewrite <- Zlt_Qlt in Hlt. lia. }
  assert (Hc0 : 0 <= Qceiling (0.25 * m)).
  { change 0 with (Qceiling 0). apply Qceiling_resp_le. lra. }
  assert (Hf1 : Qfloor (0.75 * m) <= Z.of_nat (length s) - 1).
  { rewrite <- (Qfloor_Z (Z.of_nat (length s) - 1)). apply Qfloor_resp_le. fold m. lra. }
  exists (nth (Z.to_nat (Qceiling (0.25 * m))) s 0%Q).
  split; [apply nth_In; lia|]. rewrite Hp1, Hp3. split; [exact Hq1|].
  apply Qle_trans with (nth (Z.to_nat (Qfloor (0.75 * m))) s 0%Q); [|exact Hq3].
  apply Hasc. lia.
Qed.

(** The test of the IQR method, read as two inequalities. *)
Lemma withinFences_spec (c : CalculatorConfig.t Q) (sv : list Q) (v : Q) :
  withinFences c sv v = true
  <-> (percentile sv 0.25
       - CalculatorConfig.OutlierThreshold c * (percentile sv 0.75 - percentile sv 0.25) <= v
       /\ v <= percentile sv 0.75
               + CalculatorConfig.OutlierThreshold c
                 * (percentile sv 0.75 - percentile sv 0.25))%Q.
Proof.
  unfold withinFences, iqrFences. cbn [fst snd f_leb f_sub f_add f_mul f_lit exact_outliers Exact].
  rewrite andb_true_iff, !Qle_bool_iff. reflexivity.
Qed.

(** The test of the MAD method, for a positive MAD. *)
Lemma score_spec (v median mad : Q) :
  (0 < mad)%Q ->
  f_leb (f_abs (modifiedZScore v median mad)) (f_lit 3.5) = true
  <-> (0.6745 * Qabs (v - median) <= 3.5 * mad)%Q.
Proof.
  intros Hmad. unfold modifiedZScore.
  cbn [f_leb f_abs f_div f_mul f_sub f_lit exact_outliers Exact].
  rewrite Qle_bool_iff.
  assert (Habs : (Qabs (0.6745 * (v - median) / mad) == 0.6745 * Qabs (v - median) / mad)%Q).
  { unfold Qdiv. rewrite !Qabs_Qmult.
    rewrite (Qabs_pos 0.6745) by (vm_compute; discriminate).
    rewrite (Qabs_pos (/ mad)) by (apply Qlt_le_weak, Qinv_lt_0_compat, Hmad).
    reflexivity. }
  rewrite Habs. split; intros Hle.
  - apply (Qmult_le_compat_r _ _ mad) in Hle; [|lra].
    assert (Hx : (0.6745 * Qabs (v - median) / mad * mad == 0.6745 * Qabs (v - median))%Q)
      by (field; lra).
    rewrite Hx in Hle. exact Hle.
  - apply Qle_shift_div_r; assumption.
Qed.

(** The MAD of a non-empty sorted series is not negative and is at least
    the deviation of one of its values. *)
Lemma madOf_bounds (sv : list Q) :
  sv <> [] -> Z.of_nat (length sv) <= max_int64 ->
  exists v, In v sv /\ (Qabs (v - medianOf sv) <= madOf sv)%Q.
Proof.
  intros Hne Hmax. unfold madOf.
  cbn [f_abs f_sub f_lit exact_outliers Exact].
  set (devs := map (fun v => Qabs (v - medianOf sv)) sv).
  assert (Hlen : length (sortedFloat64s devs) = length sv).
  { rewrite sortedFloat64s_length. unfold devs. apply length_map. }
  assert (Hdne : sortedFloat64s devs <> []).
  { intros H0. rewrite H0 in Hlen. destruct sv; [congruence|discriminate]. }
  destruct (percentile_between rt (sortedFloat64s devs) 0.5 (sorted_input_ascending devs) Hdne)
    as [Hlo _]; [rewrite Hlen; exact Hmax|].
  assert (Hin : In (nth 0 (sortedFloat64s devs) 0%Q) devs).
  { apply In_sortedFloat64s, nth_In. rewrite Hlen. destruct sv; [congruence|cbn; lia]. }
  unfold devs in Hin at 2. apply in_map_iff in Hin as (v & Hv & Hvin).
  exists v. split; [exact Hvin|]. rewrite Hv. exact Hlo.
Qed.

Lemma madOf_positive (sv : list Q) :
  sv <> [] -> Z.of_nat (length sv) <= max_int64 -> ~ (madOf sv == 0)%Q -> (0 < madOf sv)%Q.
Proof.
  intros Hne Hmax Hnz. destruct (madOf_bounds sv Hne Hmax) as (v & _ & Hv).
  pose proof (Qabs_nonneg (v - medianOf sv)) as H0.
  destruct (Qlt_le_dec 0 (madOf sv)) as [Hpos|Hle]; [exact Hpos|].
  exfalso. apply Hnz. lra.
Qed.

Lemma withinScore_spec (sv : list Q) (v : Q) :
  (0 < madOf sv)%Q ->
  withinScore sv v = true <-> (0.6745 * Qabs (v - medianOf sv) <= 3.5 * madOf sv)%Q.
Proof. intros Hmad. unfold withinScore. apply score_spec, Hmad. Qed.

(** The IQR method, and the MAD method when the MAD is zero. *)
Lemma cleanedOf_iqr (c : CalculatorConfig.t Q) (xs : list Q) :
  (3 < length xs)%nat ->
  (CalculatorConfig.UseMedianAbsolute c = true -> (madOf (sortedFloat64s xs) == 0)%Q) ->
  cleanedOf c xs
  = Some (List.filter (withinFences c (sortedFloat64s xs)) (sortedFloat64s xs),
          Z.of_nat (length xs)
          - Z.of_nat (length (List.filter (withinFences c (sortedFloat64s xs))
                                (sortedFloat64s xs)))).
Proof.
  intros Hn Hmad. unfold cleanedOf.
  destruct (Z.leb_spec (Z.of_nat (length xs)) 3); [lia|].
  destruct (CalculatorConfig.UseMedianAbsolute c); cbn [negb]; [|reflexivity].
  cbn [f_eqb f_lit exact_outliers Exact].
  replace (Qeq_bool (madOf (sortedFloat64s xs)) 0) with true
    by (symmetry; apply Qeq_bool_iff, Hmad; reflexivity).
  reflexivity.
Qed.

(** The MAD method when the MAD is not zero: the values kept by their
    score, then trimmed at both ends when more than ten are kept. *)
Lemma cleanedOf_mad (c : CalculatorConfig.t Q) (xs : list Q) :
  (3 < length xs)%nat -> Z.of_nat (length xs) <= max_int64 ->
  CalculatorConfig.UseMedianAbsolute c = true ->
  ~ (madOf (sortedFloat64s xs) == 0)%Q ->
  (CalculatorConfig.TrimPercent c < 0.5)%Q ->
  let kept := List.filter (withinScore (sortedFloat64s xs)) xs in
  let k := Z.of_nat (length kept) in
  let trimCount :=
    if Qle_bool (CalculatorConfig.TrimPercent c) 0 || (k <=? 10) then 0
    else Qfloor (inject_Z k * CalculatorConfig.TrimPercent c) in
  0 <= trimCount /\ (0 < k -> 2 * trimCount < k)
  /\ cleanedOf c xs
     = Some (if 0 <? trimCount
             then take (Z.to_nat (k - trimCount - trimCount))
                    (drop (Z.to_nat trimCount) (sortedFloat64s kept))
             else kept,
             Z.of_nat (length xs) - k + trimCount * 2).
Proof.
  intros Hn Hmax Hmad Hnz Htrim kept k trimCount.
  assert (Hk : k <= Z.of_nat (length xs)).
  { unfold k, kept. pose proof (sublist_length _ _ (filter_sublist (withinScore (sortedFloat64s xs)) xs)).
    lia. }
  assert (Hk0 : 0 <= k) by (unfold k; lia).
  unfold cleanedOf.
  destruct (Z.leb_spec (Z.of_nat (length xs)) 3); [lia|].
  rewrite Hmad. cbn [negb f_eqb f_ltb f_toInt f_mul f_ofInt f_lit exact_outliers Exact].
  replace (Qeq_bool (madOf (sortedFloat64s xs)) 0) with false
    by (symmetry; apply not_true_is_false; intros Heq; apply Qeq_bool_iff in Heq; contradiction).
  fold kept. fold k. unfold ExactQ.ltb.
  subst trimCount.
  destruct (Qle_bool (CalculatorConfig.TrimPercent c) 0) eqn:Ht; cbn [negb andb orb].
  { split; [lia|]. split; [lia|]. f_equal. f_equal. lia. }
  apply Qle_bool_false in Ht.
  destruct (Z.leb_spec k 10) as [Hle|Hgt].
  { replace (10 <? k) with false by (symmetry; apply Z.ltb_ge; lia). cbn [andb].
    split; [lia|]. split; [lia|]. f_equal. f_equal. lia. }
  replace (10 <? k) with true by (symmetry; apply Z.ltb_lt; lia). cbn [andb].
  set (x := (inject_Z k * CalculatorConfig.TrimPercent c)%Q).
  assert (Hkq : (0 < inject_Z k)%Q).
  { change 0%Q with (inject_Z 0). rewrite <- Zlt_Qlt. lia. }
  assert (Hx0 : (0 <= x)%Q) by (unfold x; apply Qmult_le_0_compat; lra).
  assert (Hx1 : (2 * x < inject_Z k)%Q).
  { unfold x.
    assert (Hh : (inject_Z k * CalculatorConfig.TrimPercent c < inject_Z k * 0.5)%Q)
      by (apply Qmult_lt_l; assumption).
    lra. }
  assert (Hf0 : 0 <= Qfloor x) by (change 0 with (Qfloor 0); apply Qfloor_resp_le; exact Hx0).
  assert (Hf1 : 2 * Qfloor x < k).
  { pose proof (Qfloor_le x) as Hfl.
    assert (Hlt : (inject_Z (2 * Qfloor x) < inject_Z k)%Q).
    { rewrite inject_Z_mult. change (inject_Z 2) with 2%Q. lra. }
    rewrite <- Zlt_Qlt in Hlt. exact Hlt. }
  assert (Hto : ExactQ.toInt x = Qfloor x).
  { unfold ExactQ.toInt.
    replace (Qle_bool 0 x) with true by (symmetry; apply Qle_bool_iff; exact Hx0).
    unfold in_int64.
    assert (Hmin : min_int64 <= 0) by (vm_compute; discriminate).
    destruct (Z.leb_spec min_int64 (Qfloor x)); [|lia].
    destruct (Z.leb_spec (Qfloor x) max_int64); [reflexivity|lia]. }
  rewrite Hto.
  split; [exact Hf0|]. split; [intros _; exact Hf1|].
  destruct (Z.ltb_spec 0 (Qfloor x)) as [Hpos|Hzero].
  - destruct (Z.ltb_spec (k - Qfloor x) (Qfloor x)); [lia|]. reflexivity.
  - f_equal. f_equal. lia.
Qed.

Lemma sorted_sublist (l1 l2 : list Q) :
  sublist l1 l2 -> StronglySorted Qle l2 -> StronglySorted Qle l1.
Proof.
  induction 1 as [|x l1 l2 Hsub IH|x l1 l2 Hsub IH]; intros Hs.
  - constructor.
  - apply StronglySorted_inv in Hs as [Hs Hall]. constructor; [apply IH, Hs|].
    rewrite List.Forall_forall in *. intros y Hy. apply Hall.
    apply list_elem_of_In. eapply elem_of_sublist; [|exact Hsub]. apply list_elem_of_In, Hy.
  - apply StronglySorted_inv in Hs as [Hs _]. apply IH, Hs.
Qed.

(** X23: in exact arithmetic the IQR method, which the MAD method falls
    back to when the MAD is zero, returns for more than three values the
    input values between the fences q1 - t*(q3 - q1) and q3 + t*(q3 - q1),
    in ascending order, and counts the others. *)
Theorem iqr_keeps_within_fences (c : CalculatorConfig.t Q) (times : Slice) (w : World E Q) :
  length (slice_elems (heap w) times) = s_len times -> (3 < s_len times)%nat ->
  (CalculatorConfig.UseMedianAbsolute c = true ->
   (madOf (sortedFloat64s (slice_elems (heap w) times)) == 0)%Q) ->
  let xs := slice_elems (heap w) times in
  let q1 := percentile (sortedFloat64s xs) 0.25%Q in
  let q3 := percentile (sortedFloat64s xs) 0.75%Q in
  let t := CalculatorConfig.OutlierThreshold c in
  exists cleaned outlierCount w',
    removeOutliers c times w = (Ok (cleaned, outlierCount), w')
    /\ StronglySorted Qle (slice_elems (heap w') cleaned)
    /\ (forall v, In v (slice_elems (heap w') cleaned)
                  <-> In v xs /\ (q1 - t * (q3 - q1) <= v /\ v <= q3 + t * (q3 - q1))%Q)
    /\ outlierCount = len times - len cleaned.
Proof.
  intros Hlen Hn Hmad xs q1 q3 t.
  pose proof (removeOutliers_run c times w Hlen) as Hrun. fold xs in Hrun.
  rewrite (cleanedOf_iqr c xs) in Hrun by (unfold xs; rewrite ?Hlen; assumption).
  destruct Hrun as (cleaned & w' & Hrun & Hl & Hlk & _).
  eexists cleaned, _, w'. split; [exact Hrun|]. rewrite Hl.
  split; [|split].
  - apply (sorted_sublist _ _ (filter_sublist _ _)), (sortedFloat64s_sorted rt).
  - intros v. rewrite filter_In, In_sortedFloat64s, withinFences_spec. reflexivity.
  - unfold len. rewrite <- Hlk, <- Hlen. reflexivity.
Qed.

(** X24: in exact arithmetic the MAD method with a MAD that is not zero
    keeps, in the order of the input, the values v with
    0.6745 * |v - median| <= 3.5 * MAD; when more than ten are kept and the
    trim fraction is positive it sorts them and drops floor(k * fraction)
    values at each end, counting them as outliers; for a trim fraction
    below one half it never goes out of bounds. *)
Theorem mad_keeps_by_score (c : CalculatorConfig.t Q) (times : Slice) (w : World E Q) :
  length (slice_elems (heap w) times) = s_len times -> (3 < s_len times)%nat ->
  Z.of_nat (s_len times) <= max_int64 ->
  CalculatorConfig.UseMedianAbsolute c = true ->
  ~ (madOf (sortedFloat64s (slice_elems (heap w) times)) == 0)%Q ->
  (CalculatorConfig.TrimPercent c < 0.5)%Q ->
  let xs := slice_elems (heap w) times in
  let median := medianOf (sortedFloat64s xs) in
  let mad := madOf (sortedFloat64s xs) in
  exists cleaned outlierCount w' kept,
    removeOutliers c times w = (Ok (cleaned, outlierCount), w')
    /\ sublist kept xs
    /\ (forall v, In v kept <-> In v xs /\ (0.6745 * Qabs (v - median) <= 3.5 * mad)%Q)
    /\ let k := Z.of_nat (length kept) in
       let trimCount :=
         if Qle_bool (CalculatorConfig.TrimPercent c) 0 || (k <=? 10) then 0
         else Qfloor (inject_Z k * CalculatorConfig.TrimPercent c) in
       slice_elems (heap w') cleaned
       = (if 0 <? trimCount
          then take (Z.to_nat (k - trimCount - trimCount))
                 (drop (Z.to_nat trimCount) (sortedFloat64s kept))
          else kept)
       /\ outlierCount = len times - k + trimCount * 2.
Proof.
  intros Hlen Hn Hmax Huse Hnz Htrim xs median mad.
  pose proof (removeOutliers_run c times w Hlen) as Hrun. fold xs in Hrun.
  destruct (cleanedOf_mad c xs) as (_ & _ & Hc);
    [unfold xs; rewrite Hlen; exact Hn|unfold xs; rewrite Hlen; exact Hmax
    |exact Huse|exact Hnz|exact Htrim|].
  rewrite Hc in Hrun. destruct Hrun as (cleaned & w' & Hrun & Hl & _).
  eexists cleaned, _, w', (List.filter (withinScore (sortedFloat64s xs)) xs).
  split; [exact Hrun|]. split; [apply filter_sublist|]. split.
  - intros v. rewrite filter_In, withinScore_spec; [reflexivity|].
    apply madOf_positive; [|rewrite sortedFloat64s_length; unfold xs; rewrite Hlen; exact Hmax
                           |exact Hnz].
    intros H0. apply (f_equal (@length Q)) in H0.
    rewrite sortedFloat64s_length in H0. unfold xs in H0. rewrite Hlen in H0. cbn in H0. lia.
  - cbv zeta. split; [exact Hl|]. unfold len, xs. rewrite Hlen. reflexivity.
Qed.

(** With a threshold that is not negative and a trim fraction below one
    half, what is kept of a non-empty series is not empty. *)
Lemma cleanedOf_leaves_values (c : CalculatorConfig.t Q) (xs : list Q) :
  xs <> [] -> Z.of_nat (length xs) <= max_int64 ->
  (0 <= CalculatorConfig.OutlierThreshold c)%Q ->
  (CalculatorConfig.TrimPercent c < 0.5)%Q ->
  exists l outlierCount,
    cleanedOf c xs = Some (l, outlierCount)
    /\ (0 < length l)%nat /\ outlierCount = Z.of_nat (length xs) - Z.of_nat (length l).
Proof.
  intros Hne Hmax Ht Htrim.
  assert (Hpos : (0 < length xs)%nat) by (destruct xs; [congruence|cbn; lia]).
  destruct (Nat.le_gt_cases (length xs) 3) as [Hsmall|Hbig].
  { exists xs, 0. split; [|split; [exact Hpos|lia]].
    unfold cleanedOf. destruct (Z.leb_spec (Z.of_nat (length xs)) 3); [reflexivity|lia]. }
  set (sv := sortedFloat64s xs).
  assert (Hsvlen : length sv = length xs) by apply sortedFloat64s_length.
  assert (Hsvne : sv <> []) by (intros H0; rewrite H0 in Hsvlen; cbn in Hsvlen; lia).
  assert (Hiqr : (0 < length (List.filter (withinFences c sv) sv))%nat).
  { destruct (quartiles_enclose sv (sorted_input_ascending xs)) as (v & Hv & Hq1 & Hq3);
      [lia|rewrite Hsvlen; exact Hmax|].
    assert (Hin : In v (List.filter (withinFences c sv) sv)).
    { apply filter_In. split; [exact Hv|]. apply withinFences_spec.
      assert (Hd : (0 <= CalculatorConfig.OutlierThreshold c
                         * (percentile sv 0.75 - percentile sv 0.25))%Q)
        by (apply Qmult_le_0_compat; lra).
      split; lra. }
    destruct (List.filter (withinFences c sv) sv); [contradiction|cbn; lia]. }
  destruct (Qeq_dec (madOf sv) 0) as [Hz|Hnz];
    [|destruct (CalculatorConfig.UseMedianAbsolute c) eqn:Huse].
  - eexists _, _. split; [apply cleanedOf_iqr; [lia|intros _; exact Hz]|].
    fold sv. split; [exact Hiqr|reflexivity].
  - destruct (cleanedOf_mad c xs) as (Htc0 & Htc & Hc);
      [lia|exact Hmax|exact Huse|exact Hnz|exact Htrim|].
    fold sv in Hc, Htc, Htc0.
    set (kept := List.filter (withinScore sv) xs) in *.
    set (k := Z.of_nat (length kept)) in *.
    set (trimCount := if Qle_bool (CalculatorConfig.TrimPercent c) 0 || (k <=? 10) then 0
                      else Qfloor (inject_Z k * CalculatorConfig.TrimPercent c)) in *.
    assert (Hmadpos : (0 < madOf sv)%Q)
      by (apply madOf_positive; [exact Hsvne|rewrite Hsvlen; exact Hmax|exact Hnz]).
    assert (Hk : 0 < k).
    { destruct (madOf_bounds sv Hsvne) as (v & Hv & Hdev); [rewrite Hsvlen; exact Hmax|].
      assert (Hin : In v kept).
      { apply filter_In. split; [apply In_sortedFloat64s, Hv|].
        apply withinScore_spec; [exact Hmadpos|]. lra. }
      unfold k. destruct kept; [contradiction|cbn; lia]. }
    specialize (Htc Hk).
    eexists _, _. split; [exact Hc|].
    destruct (Z.ltb_spec 0 trimCount).
    + rewrite length_take, length_drop, sortedFloat64s_length. unfold k in *. lia.
    + unfold k in *. lia.
  - eexists _, _.
    split; [apply cleanedOf_iqr; [lia|intros Hu; rewrite Huse in Hu; discriminate]|].
    fold sv. split; [exact Hiqr|reflexivity].
Qed.

(** X25: in exact arithmetic, with an outlier threshold that is not
    negative and a trim fraction below one half, as NewBlockTimeCalculator
    leaves them, outlier removal of a non-empty series never panics and
    never removes every value. *)
Theorem removal_leaves_values (c : CalculatorConfig.t Q) (times : Slice) (w : World E Q) :
  length (slice_elems (heap w) times) = s_len times -> (0 < s_len times)%nat ->
  Z.of_nat (s_len times) <= max_int64 ->
  (0 <= CalculatorConfig.OutlierThreshold c)%Q ->
  (CalculatorConfig.TrimPercent c < 0.5)%Q ->
  exists cleaned outlierCount w',
    removeOutliers c times w = (Ok (cleaned, outlierCount), w')
    /\ (0 < s_len cleaned)%nat /\ 0 <= outlierCount < len times.
Proof.
  intros Hlen Hpos Hmax Ht Htrim.
  pose proof (removeOutliers_run c times w Hlen) as Hrun.
  destruct (cleanedOf_leaves_values c (slice_elems (heap w) times))
    as (l & oc & Hc & Hl & Hoc); [|rewrite Hlen; exact Hmax|exact Ht|exact Htrim|].
  { intros H0. rewrite H0 in Hlen. cbn in Hlen. lia. }
  rewrite Hc in Hrun. destruct Hrun as (cleaned & w' & Hrun & _ & Hlk & _).
  exists cleaned, oc, w'. split; [exact Hrun|]. split; [lia|].
  pose proof (submseteq_length _ _ (cleanedOf_submseteq c _ l oc Hc)) as Hsub.
  unfold len. lia.
Qed.

Lemma all_equal_replicate (l : list Q) (v : Q) :
  (forall x, In x l -> x = v) -> l = replicate (length l) v.
Proof.
  induction l as [|y l IH]; intros Hall; cbn; [reflexivity|].
  rewrite (Hall y (or_introl eq_refl)). f_equal. apply IH.
  intros x Hx. apply Hall. right. exact Hx.
Qed.

Lemma filter_all (f : Q -> bool) (l : list Q) :
  (forall x, In x l -> f x = true) -> List.filter f l = l.
Proof.
  induction l as [|y l IH]; intros Hall; cbn; [reflexivity|].
  rewrite (Hall y (or_introl eq_refl)). f_equal. apply IH.
  intros x Hx. apply Hall. right. exact Hx.
Qed.

(** Every percentile of a sequence of equal values is that value. *)
Lemma percentile_constant (s : list Q) (v p : Q) :
  s <> [] -> Z.of_nat (length s) <= max_int64 -> ascending s ->
  (forall x, In x s -> (x == v)%Q) -> (percentile s p == v)%Q.
Proof.
  intros Hne Hmax Hasc Hall.
  assert (Hn : (0 < length s)%nat) by (destruct s; [congruence|cbn; lia]).
  destruct (percentile_between rt s p Hasc Hne Hmax) as [Hlo Hhi].
  pose proof (Hall _ (nth_In s 0%Q Hn)) as H1.
  pose proof (Hall _ (nth_In s 0%Q (n:=length s - 1) ltac:(lia))) as H2.
  change (@percentile Q (exact_sums rt)) with (@percentile Q exact_outliers) in *.
  lra.
Qed.

(** X26: in exact arithmetic a series of equal values loses nothing to
    outlier removal, whatever the strategy, the threshold and the trim
    fraction: the values come back and the outlier count is 0. *)
Theorem constant_series_kept (c : CalculatorConfig.t Q) (times : Slice) (w : World E Q)
    (v : Q) :
  length (slice_elems (heap w) times) = s_len times ->
  Z.of_nat (s_len times) <= max_int64 ->
  (forall x, In x (slice_elems (heap w) times) -> x = v) ->
  exists cleaned w',
    removeOutliers c times w = (Ok (cleaned, 0), w')
    /\ slice_elems (heap w') cleaned = slice_elems (heap w) times.
Proof.
  intros Hlen Hmax Hall.
  pose proof (removeOutliers_run c times w Hlen) as Hrun.
  set (xs := slice_elems (heap w) times) in *.
  assert (Hgoal : cleanedOf c xs = Some (xs, 0) ->
            exists cleaned w',
              removeOutliers c times w = (Ok (cleaned, 0), w')
              /\ slice_elems (heap w') cleaned = xs).
  { intros Hc. rewrite Hc in Hrun. destruct Hrun as (cleaned & w' & Hrun & Hl & _).
    exists cleaned, w'. split; assumption. }
  apply Hgoal.
  destruct (Nat.le_gt_cases (s_len times) 3) as [Hsmall|Hbig].
  { unfold cleanedOf. rewrite Hlen.
    destruct (Z.leb_spec (Z.of_nat (s_len times)) 3); [reflexivity|lia]. }
  set (sv := sortedFloat64s xs).
  assert (Hsvall : forall x, In x sv -> x = v).
  { intros x Hx. apply Hall, In_sortedFloat64s, Hx. }
  assert (Hsvlen : length sv = length xs) by apply sortedFloat64s_length.
  assert (Hsv : sv = xs).
  { rewrite (all_equal_replicate sv v Hsvall), (all_equal_replicate xs v Hall), Hsvlen.
    reflexivity. }
  assert (Hsvne : sv <> []).
  { intros H0. rewrite H0 in Hsvlen. cbn in Hsvlen. lia. }
  assert (Hsvmax : Z.of_nat (length sv) <= max_int64) by (rewrite Hsvlen, Hlen; exact Hmax).
  assert (Hp : forall p, (percentile sv p == v)%Q).
  { intros p. apply percentile_constant; [exact Hsvne|exact Hsvmax|apply sorted_input_ascending|].
    intros x Hx. rewrite (Hsvall x Hx). reflexivity. }
  assert (Hmad : (madOf sv == 0)%Q).
  { unfold madOf. cbn [f_abs f_sub f_lit exact_outliers Exact].
    set (devs := map (fun x => Qabs (x - medianOf sv)) sv).
    assert (Hdl : length (sortedFloat64s devs) = length sv)
      by (rewrite sortedFloat64s_length; unfold devs; apply length_map).
    apply percentile_constant.
    - intros H0. rewrite H0 in Hdl. cbn in Hdl. lia.
    - rewrite Hdl. exact Hsvmax.
    - apply sorted_input_ascending.
    - intros d Hd. apply (proj1 (In_sortedFloat64s _ _)) in Hd. unfold devs in Hd.
      apply in_map_iff in Hd as (x & <- & Hx). rewrite (Hsvall x Hx).
      unfold medianOf. cbn [f_lit exact_outliers Exact].
      assert (Hz : (v - percentile sv 0.5 == 0)%Q) by (rewrite (Hp 0.5%Q); ring).
      rewrite Hz. reflexivity. }
  rewrite (cleanedOf_iqr c xs) by (try lia; intros _; exact Hmad).
  fold sv. rewrite filter_all.
  - rewrite Hsv. f_equal. f_equal. lia.
  - intros x Hx. apply withinFences_spec. rewrite (Hsvall x Hx).
    assert (Hd : (percentile sv 0.75 - percentile sv 0.25 == 0)%Q)
      by (rewrite (Hp 0.75%Q), (Hp 0.25%Q); ring).
    rewrite Hd, Qmult_0_r, (Hp 0.75%Q), (Hp 0.25%Q). split; lra.
Qed.

End ExactOutliers.

(** ** The calculator: the summary as a function of the fetched blocks *)

Section PipelineRuns.

Context {E T : Type} `{F : Float64 T}.

Lemma length_timeDeltas (rest : list (BlockInfo.t T)) :
  forall prev, length (timeDeltas prev rest) = positiveDeltas prev rest.
Proof.
  induction rest as [|b rest IH]; intros prev; cbn [timeDeltas positiveDeltas]; [reflexivity|].
  rewrite length_app, IH. destruct (f_ltb _ _); reflexivity.
Qed.

Lemma collectBlockTimes_holding (h0 : list (list T)) (rest : list (BlockInfo.t T)) :
  forall (prev : BlockInfo.t T) (blockTimes : Slice) (l : list T) (w : World E T),
    h0 `prefix_of` heap w -> holding h0 w blockTimes l ->
    exists blockTimes' w',
      collectBlockTimes prev rest blockTimes w = (Ok blockTimes', w')
      /\ holding h0 w' blockTimes' (l ++ timeDeltas prev rest)
      /\ h0 `prefix_of` heap w' /\ env w' = env w.
Proof.
  induction rest as [|b rest IH]; intros prev blockTimes l w Hpre Hb;
    cbn [collectBlockTimes timeDeltas].
  - exists blockTimes, w. rewrite app_nil_r. auto.
  - rewrite bind_run. destruct (f_ltb _ _).
    + destruct (append_holding h0 blockTimes l
                  (durationSeconds (timeSub (BlockInfo.Time b) (BlockInfo.Time prev))) w
                  Hpre Hb) as (s1 & w1 & Happ & Hb1 & Hpre1 & Henv1).
      rewrite Happ.
      destruct (IH b s1 _ w1 Hpre1 Hb1) as (s' & w' & Hrun & Hb' & Hpre' & Henv').
      exists s', w'. rewrite <- app_assoc in Hb'.
      split; [exact Hrun|]. split; [exact Hb'|]. split; [exact Hpre'|congruence].
    + destruct (IH b blockTimes l w Hpre Hb) as (s' & w' & Hrun & Hb' & Hpre' & Henv').
      exists s', w'. auto.
Qed.

Lemma last_default {A} (l : list A) :
  forall a d d', List.last (a :: l) d = List.last (a :: l) d'.
Proof.
  induction l as [|b l IH]; intros a d d'; [reflexivity|].
  change (List.last (b :: l) d = List.last (b :: l) d'). apply IH.
Qed.

Lemma lookup_last {A} (rest : list A) :
  forall first, (first :: rest) !! length rest = Some (List.last rest first).
Proof.
  induction rest as [|b rest IH]; intros first; [reflexivity|].
  cbn [length lookup list_lookup]. rewrite IH.
  destruct rest as [|t rest]; [reflexivity|]. f_equal.
  change (List.last (t :: rest) b = List.last (t :: rest) first). apply last_default.
Qed.

(** The summary of a series that may be empty. *)
Lemma calculateStatistics_value (times : Slice) (w : World E T) :
  length (slice_elems (heap w) times) = s_len times ->
  exists w',
    calculateStatistics times w
    = (Ok (match slice_elems (heap w) times with
           | [] => zeroStats
           | _ :: _ => summaryOf (slice_elems (heap w) times)
           end), w')
    /\ env w' = env w.
Proof.
  intros Hlen. destruct (Nat.eq_dec (s_len times) 0%nat) as [Hz|Hnz].
  - exists w. unfold calculateStatistics, len. rewrite Hz.
    change (Z.of_nat 0 =? 0) with true. cbv iota.
    destruct (slice_elems (heap w) times); [split; reflexivity|].
    cbn in Hlen. lia.
  - rewrite calculateStatistics_run by (assumption || lia).
    exists {| env := env w;
              heap := heap w ++ [sortedFloat64s (slice_elems (heap w) times)] |}.
    split; [|reflexivity].
    destruct (slice_elems (heap w) times); [cbn in Hlen; lia|reflexivity].
Qed.

(** The run of the calculator on a fetched range, when the range is large
    enough, enough deltas are valid and the trimming stays in bounds. *)
Lemma CalculateStatsForRange_run (c : BlockTimeCalculator E T) (startHeight endHeight : Z)
    (w : World E T) (first : BlockInfo.t T) (rest : list (BlockInfo.t T)) (env1 : E)
    (l : list T) (outlierCount : Z) :
  startHeight <= endHeight ->
  CalculatorConfig.MinSampleSize (calc_config c) <= wrap64 (endHeight - startHeight + 1) ->
  GetBlockRange (calc_client c) startHeight endHeight (env w) = (Ok (first :: rest), env1) ->
  CalculatorConfig.MinSampleSize (calc_config c)
  <= Z.of_nat (length (timeDeltas first rest)) ->
  cleanedOf (calc_config c) (timeDeltas first rest) = Some (l, outlierCount) ->
  exists cleaned w',
    let summary := match l with [] => zeroStats | _ :: _ => summaryOf l end in
    CalculateStatsForRange c startHeight endHeight w
    = (Ok (BlockTimeStats.mk (Z.of_nat (length (timeDeltas first rest)))
             startHeight endHeight (BlockInfo.Time first)
             (BlockInfo.Time (List.last rest first))
             (BlockTimeStats.Mean summary) (BlockTimeStats.Median summary)
             (BlockTimeStats.StdDev summary) (BlockTimeStats.Min summary)
             (BlockTimeStats.Max summary) (BlockTimeStats.P25 summary)
             (BlockTimeStats.P75 summary) (BlockTimeStats.P95 summary)
             (BlockTimeStats.P99 summary) outlierCount
             (calculateRange (calc_config c) cleaned summary)
             (CalculatorConfig.ConfidenceLevel (calc_config c))), w')
    /\ s_len cleaned = length l /\ env w' = env1.
Proof.
  intros Hrange Hsize Hfetch Hvalid Hclean.
  remember (CalculateStatsForRange c startHeight endHeight w) as run eqn:Hr.
  unfold CalculateStatsForRange in Hr.
  destruct (Z.ltb_spec endHeight startHeight); [lia|].
  destruct (Z.ltb_spec (wrap64 (endHeight - startHeight + 1))
              (CalculatorConfig.MinSampleSize (calc_config c))); [lia|].
  rewrite bind_run in Hr. unfold wrapErr, liftCall in Hr. rewrite Hfetch in Hr.
  rewrite bind_run in Hr. unfold make in Hr.
  replace ((0 <? 0) || (Z.of_nat (length (first :: rest)) - 1 <? 0)) with false in Hr
    by (symmetry; apply orb_false_iff; split; apply Z.ltb_ge; cbn [length]; lia).
  rewrite bind_run in Hr. change (Z.to_nat 0) with 0%nat in Hr. cbn [heap env] in Hr.
  set (w1 := {| env := env1;
                heap := heap w ++ [replicate (Z.to_nat (Z.of_nat (length (first :: rest)) - 1))
                                     (f_lit 0)] |}) in *.
  set (bt0 := {| s_ptr := length (heap w); s_off := 0; s_len := 0;
                 s_cap := Z.to_nat (Z.of_nat (length (first :: rest)) - 1) |}) in *.
  destruct (collectBlockTimes_holding (heap w) rest first bt0 [] w1)
    as (bt & w2 & Hcollect & Hbt & Hpre2 & Henv2).
  { apply prefix_app_r. reflexivity. }
  { unfold holding, bt0, w1. cbn [s_off s_len s_cap s_ptr heap].
    split; [reflexivity|]. split; [reflexivity|]. split; [reflexivity|]. split; [lia|].
    intros _. split; [unfold fresh; cbn; lia|]. rewrite length_app. cbn. lia. }
  cbn [app] in Hbt. rewrite Hcollect in Hr.
  destruct Hbt as (_ & Hel & Hlen & _).
  unfold len at 1 in Hr. rewrite <- Hlen in Hr.
  destruct (Z.ltb_spec (Z.of_nat (length (timeDeltas first rest)))
              (CalculatorConfig.MinSampleSize (calc_config c))); [lia|].
  rewrite bind_run in Hr.
  pose proof (removeOutliers_run (calc_config c) bt w2) as Hremove.
  rewrite Hel in Hremove. specialize (Hremove Hlen). rewrite Hclean in Hremove.
  destruct Hremove as (cleaned & w3 & Hremove & Hcl & Hcllen & _ & Henv3).
  rewrite Hremove in Hr. rewrite bind_run in Hr.
  destruct (calculateStatistics_value cleaned w3) as (w4 & Hstats & Henv4);
    [rewrite Hcl; exact Hcllen|].
  rewrite Hstats, Hcl in Hr. rewrite bind_run in Hr.
  assert (Hfirst : blockAt (E:=E) (first :: rest) 0 = mret first) by reflexivity.
  rewrite Hfirst in Hr. cbv beta iota delta [mret M_ret] in Hr.
  rewrite bind_run in Hr. unfold blockAt in Hr.
  replace (Z.of_nat (length (first :: rest)) - 1 <? 0) with false in Hr
    by (symmetry; apply Z.ltb_ge; cbn [length]; lia).
  assert (Hlast : (first :: rest) !! Z.to_nat (Z.of_nat (length (first :: rest)) - 1)
                  = Some (List.last rest first)).
  { replace (Z.to_nat (Z.of_nat (length (first :: rest)) - 1)) with (length rest)
      by (cbn [length]; lia).
    apply lookup_last. }
  rewrite Hlast in Hr. cbv beta iota delta [mret M_ret] in Hr.
  exists cleaned, w4. cbv zeta. rewrite Hr. unfold len. rewrite <- Hlen.
  split; [reflexivity|]. split; [symmetry; exact Hcllen|].
  rewrite Henv4, Henv3, Henv2. reflexivity.
Qed.

(** X27: the summary CalculateStatsForRange returns is a function of the
    fetched blocks: its sample size is the count of positive time
    differences, its statistics are those of the differences outlier
    removal keeps, its outlier count the count removal gives, and the
    client, called once for the range, is not called again. *)
Theorem range_summary_of_blocks (c : BlockTimeCalculator E T) (startHeight endHeight : Z)
    (w : World E T) (first : BlockInfo.t T) (rest : list (BlockInfo.t T)) (env1 : E)
    (l : list T) (outlierCount : Z) :
  startHeight <= endHeight ->
  CalculatorConfig.MinSampleSize (calc_config c) <= wrap64 (endHeight - startHeight + 1) ->
  GetBlockRange (calc_client c) startHeight endHeight (env w) = (Ok (first :: rest), env1) ->
  CalculatorConfig.MinSampleSize (calc_config c)
  <= Z.of_nat (length (timeDeltas first rest)) ->
  cleanedOf (calc_config c) (timeDeltas first rest) = Some (l, outlierCount) ->
  exists cleaned w',
    let summary := match l with [] => zeroStats | _ :: _ => summaryOf l end in
    CalculateStatsForRange c startHeight endHeight w
    = (Ok (BlockTimeStats.mk (Z.of_nat (length (timeDeltas first rest)))
             startHeight endHeight (BlockInfo.Time first)
             (BlockInfo.Time (List.last rest first))
             (BlockTimeStats.Mean summary) (BlockTimeStats.Median summary)
             (BlockTimeStats.StdDev summary) (BlockTimeStats.Min summary)
             (BlockTimeStats.Max summary) (BlockTimeStats.P25 summary)
             (BlockTimeStats.P75 summary) (BlockTimeStats.P95 summary)
             (BlockTimeStats.P99 summary) outlierCount
             (calculateRange (calc_config c) cleaned summary)
             (CalculatorConfig.ConfidenceLevel (calc_config c))), w')
    /\ s_len cleaned = length l /\ env w' = env1.
Proof. apply CalculateStatsForRange_run. Qed.

End PipelineRuns.

(** ** Exact arithmetic: the summary a calculator returns *)

Section ExactPipeline.

Context {E : Type}.
Variable rt : Q -> Q.
#[local] Instance exact_pipeline : Float64 Q := Exact rt.

Lemma timeDeltas_positive (rest : list (BlockInfo.t Q)) :
  forall prev d, In d (timeDeltas prev rest) -> (0 < d)%Q.
Proof.
  induction rest as [|b rest IH]; intros prev d Hd; cbn [timeDeltas] in Hd; [contradiction|].
  apply in_app_or in Hd as [Hd|Hd]; [|apply (IH b d Hd)].
  destruct (f_ltb _ _) eqn:Hlt; [|contradiction].
  destruct Hd as [<-|[]].
  cbn [f_ltb f_lit exact_pipeline Exact] in Hlt. unfold ExactQ.ltb in Hlt.
  apply negb_true_iff, Qle_bool_false in Hlt. exact Hlt.
Qed.

(** X28: in exact arithmetic, for a configuration with MinSampleSize >= 1,
    a threshold and a confidence level that are not negative and a trim
    fraction below one half, as NewBlockTimeCalculator leaves them, every
    summary CalculateStatsForRange returns is well formed:
    0 < Min <= P25 <= Median <= P75 <= P95 <= P99 <= Max, Min <= Mean <= Max,
    Min <= Lower <= Upper <= P95 with the median as typical value, and
    0 <= OutlierCount < SampleSize. *)
Theorem returned_summary_well_formed (c : BlockTimeCalculator E Q)
    (startHeight endHeight : Z) (w w' : World E Q) (stats : BlockTimeStats.t Q) :
  CalculateStatsForRange c startHeight endHeight w = (Ok stats, w') ->
  1 <= CalculatorConfig.MinSampleSize (calc_config c) ->
  (0 <= CalculatorConfig.OutlierThreshold (calc_config c))%Q ->
  (CalculatorConfig.TrimPercent (calc_config c) < 0.5)%Q ->
  (0 <= CalculatorConfig.ConfidenceLevel (calc_config c))%Q ->
  BlockTimeStats.SampleSize stats <= max_int64 ->
  ((0 < BlockTimeStats.Min stats
    /\ BlockTimeStats.Min stats <= BlockTimeStats.P25 stats
    /\ BlockTimeStats.P25 stats <= BlockTimeStats.Median stats
    /\ BlockTimeStats.Median stats <= BlockTimeStats.P75 stats
    /\ BlockTimeStats.P75 stats <= BlockTimeStats.P95 stats
    /\ BlockTimeStats.P95 stats <= BlockTimeStats.P99 stats
    /\ BlockTimeStats.P99 stats <= BlockTimeStats.Max stats)
   /\ (BlockTimeStats.Min stats <= BlockTimeStats.Mean stats
       /\ BlockTimeStats.Mean stats <= BlockTimeStats.Max stats)
   /\ (BlockTimeStats.Min stats <= Range.Lower (BlockTimeStats.EstimatedRange stats)
       /\ Range.Lower (BlockTimeStats.EstimatedRange stats)
          <= Range.Upper (BlockTimeStats.EstimatedRange stats)
       /\ Range.Upper (BlockTimeStats.EstimatedRange stats) <= BlockTimeStats.P95 stats))%Q
  /\ Range.Typical (BlockTimeStats.EstimatedRange stats) = BlockTimeStats.Median stats
  /\ 0 <= BlockTimeStats.OutlierCount stats < BlockTimeStats.SampleSize stats.
Proof.
  intros Hrun Hmin Ht Htrim Hconf Hmax.
  assert (Hsize : CalculatorConfig.MinSampleSize (calc_config c)
                  <= wrap64 (endHeight - startHeight + 1)).
  { destruct (Z.lt_ge_cases (wrap64 (endHeight - startHeight + 1))
                (CalculatorConfig.MinSampleSize (calc_config c))) as [Hlt|Hge]; [|exact Hge].
    exfalso. unfold CalculateStatsForRange in Hrun.
    destruct (endHeight <? startHeight); [discriminate|].
    destruct (Z.ltb_spec (wrap64 (endHeight - startHeight + 1))
                (CalculatorConfig.MinSampleSize (calc_config c))); [discriminate|lia]. }
  destruct (CalculateStatsForRange_returns c startHeight endHeight w w' stats Hrun)
    as (blocks & first & final & Hfetch & Hhead & _ & Hrange & _ & _ & _ & _
        & Hsamples & Hminimum & _ & _).
  destruct blocks as [|b rest]; [discriminate|]. injection Hhead as ->.
  assert (Hcount : BlockTimeStats.SampleSize stats = Z.of_nat (length (timeDeltas first rest))).
  { rewrite Hsamples. unfold validDeltas. rewrite length_timeDeltas. reflexivity. }
  assert (Hvalid : CalculatorConfig.MinSampleSize (calc_config c)
                   <= Z.of_nat (length (timeDeltas first rest))) by lia.
  set (deltas := timeDeltas first rest) in *.
  destruct (cleanedOf_leaves_values rt (calc_config c) deltas) as (l & oc & Hc & Hl & Hoc);
    [intros H0; rewrite H0 in Hcount; cbn in Hcount; lia|lia|exact Ht|exact Htrim|].
  destruct (CalculateStatsForRange_run c startHeight endHeight w first rest (env w') l oc
              Hrange Hsize Hfetch Hvalid Hc)
    as (cleaned & w1 & Hrun1 & Hcl & _).
  cbv zeta in Hrun1. rewrite Hrun in Hrun1. injection Hrun1 as -> _.
  destruct l as [|x l]; [cbn in Hl; lia|].
  set (xs := x :: l) in *.
  pose proof (cleanedOf_submseteq (calc_config c) deltas xs oc Hc) as Hsub.
  destruct (summaryOf_chain rt xs) as ((H1 & H2 & H3 & H4 & H5 & H6 & H7 & H8) & _ & Hin & _);
    [discriminate|apply submseteq_length in Hsub; fold deltas in Hsub; lia|].
  change (@summaryOf Q (exact_sums rt)) with (@summaryOf Q exact_pipeline) in *.
  set (st := summaryOf xs) in *.
  assert (H0 : (0 < BlockTimeStats.Min st)%Q).
  { apply (timeDeltas_positive rest first). fold deltas.
    apply list_elem_of_In. eapply elem_of_submseteq; [|exact Hsub].
    apply list_elem_of_In, Hin. }
  cbn [BlockTimeStats.Min BlockTimeStats.P25 BlockTimeStats.Median BlockTimeStats.P75
       BlockTimeStats.P95 BlockTimeStats.P99 BlockTimeStats.Max BlockTimeStats.Mean
       BlockTimeStats.EstimatedRange BlockTimeStats.OutlierCount BlockTimeStats.SampleSize].
  destruct (calculateRange_within rt (calc_config c) cleaned st) as (R1 & R2 & R3 & _);
    [lia|lra|exact H1|lra|exact H4|exact Hconf|].
  change (@calculateRange Q (exact_sums rt)) with (@calculateRange Q exact_pipeline) in *.
  split; [repeat split; assumption|]. split.
  - unfold calculateRange, len.
    replace (Z.of_nat (s_len cleaned) =? 0) with false by (symmetry; apply Z.eqb_neq; lia).
    destruct (f_ltb _ _); reflexivity.
  - apply submseteq_length in Hsub. fold deltas. lia.
Qed.

End ExactPipeline.

(** ** Concrete runs of the properties of outlier removal and the summary *)

(** X21 at a concrete input: the deltas of scenario A; the delta of 100
    seconds is removed and the others come back in their order. *)
Lemma removeOutliers_elements_witness :
  length (slice_elems (heap (scenarioA_world (T:=float))) scenarioA_times)
  = s_len scenarioA_times
  /\ exists cleaned w',
       removeOutliers DefaultConfig scenarioA_times (scenarioA_world (T:=float))
       = (Ok (cleaned, 1), w')
       /\ slice_elems (heap w') cleaned = map f_ofInt [5; 5; 6; 6; 6; 7; 7]
       /\ env w' = ().
Proof.
  split; [reflexivity|].
  pose proof (removeOutliers_elements DefaultConfig scenarioA_times
                (scenarioA_world (T:=float)) eq_refl) as Hrun.
  replace (cleanedOf DefaultConfig
             (slice_elems (heap (scenarioA_world (T:=float))) scenarioA_times))
    with (Some (map f_ofInt [5; 5; 6; 6; 6; 7; 7], 1)) in Hrun by by_evaluation.
  destruct Hrun as (cleaned & w' & Hrun & Hl & _ & _ & Henv).
  exists cleaned, w'. split; [exact Hrun|]. split; [exact Hl|exact Henv].
Defined.

(** X22 at a concrete input: the deltas of scenario A. *)
Lemma cleaned_values_from_input_witness :
  length (slice_elems (heap (scenarioA_world (T:=float))) scenarioA_times)
  = s_len scenarioA_times
  /\ exists cleaned outlierCount w',
       removeOutliers DefaultConfig scenarioA_times (scenarioA_world (T:=float))
       = (Ok (cleaned, outlierCount), w')
       /\ slice_elems (heap w') cleaned
          ⊆+ slice_elems (heap (scenarioA_world (T:=float))) scenarioA_times.
Proof.
  split; [reflexivity|].
  destruct (removeOutliers DefaultConfig scenarioA_times (scenarioA_world (T:=float)))
    as [[[cleaned outlierCount]|e|msg] w'] eqn:Hrun;
    [|vm_compute in Hrun; discriminate|vm_compute in Hrun; discriminate].
  exists cleaned, outlierCount, w'. split; [reflexivity|].
  exact (cleaned_values_from_input DefaultConfig scenarioA_times cleaned outlierCount
           (scenarioA_world (T:=float)) w' eq_refl Hrun).
Defined.

(** X23 at a concrete input: the four deltas with the IQR method. *)
Lemma iqr_keeps_within_fences_witness :
  (length (slice_elems (heap quartet_world) quartet_times) = s_len quartet_times
   /\ (3 < s_len quartet_times)%nat
   /\ CalculatorConfig.UseMedianAbsolute iqrConfig <> true)
  /\ exists cleaned outlierCount w',
       @removeOutliers () Q exactly iqrConfig quartet_times quartet_world
       = (Ok (cleaned, outlierCount), w')
       /\ StronglySorted Qle (slice_elems (heap w') cleaned)
       /\ outlierCount = len quartet_times - len cleaned.
Proof.
  split; [split; [reflexivity|split; [cbn; lia|discriminate]]|].
  destruct (iqr_keeps_within_fences (E:=()) (fun q => q) iqrConfig quartet_times quartet_world
              eq_refl ltac:(cbn; lia) ltac:(discriminate))
    as (cleaned & outlierCount & w' & Hrun & Hsorted & _ & Hcount).
  exists cleaned, outlierCount, w'. split; [exact Hrun|]. split; [exact Hsorted|exact Hcount].
Defined.

(** X24 at a concrete input: the deltas of scenario A in exact arithmetic;
    the MAD is 1. *)
Lemma mad_keeps_by_score_witness :
  (length (slice_elems (heap (@scenarioA_world Q exactly)) scenarioA_times)
   = s_len scenarioA_times
   /\ (3 < s_len scenarioA_times)%nat
   /\ ~ (@madOf Q exactly
           (@sortedFloat64s Q exactly
              (slice_elems (heap (@scenarioA_world Q exactly)) scenarioA_times)) == 0)%Q)
  /\ exists cleaned outlierCount w' kept,
       @removeOutliers () Q exactly (@DefaultConfig Q exactly) scenarioA_times
         (@scenarioA_world Q exactly) = (Ok (cleaned, outlierCount), w')
       /\ sublist kept (slice_elems (heap (@scenarioA_world Q exactly)) scenarioA_times).
Proof.
  assert (Hmad : ~ (@madOf Q exactly
                      (@sortedFloat64s Q exactly
                         (slice_elems (heap (@scenarioA_world Q exactly)) scenarioA_times))
                    == 0)%Q) by (vm_compute; discriminate).
  split; [split; [reflexivity|split; [cbn; lia|exact Hmad]]|].
  destruct (mad_keeps_by_score (E:=()) (fun q => q) (@DefaultConfig Q exactly) scenarioA_times
              (@scenarioA_world Q exactly) eq_refl ltac:(cbn; lia)
              ltac:(vm_compute; discriminate) eq_refl Hmad ltac:(reflexivity))
    as (cleaned & outlierCount & w' & kept & Hrun & Hsub & _).
  exists cleaned, outlierCount, w', kept. split; [exact Hrun|exact Hsub].
Defined.

(** X25 at a concrete input: the deltas of scenario A in exact arithmetic. *)
Lemma removal_leaves_values_witness :
  ((0 < s_len scenarioA_times)%nat
   /\ (0 <= CalculatorConfig.OutlierThreshold (@DefaultConfig Q exactly))%Q
   /\ (CalculatorConfig.TrimPercent (@DefaultConfig Q exactly) < 0.5)%Q)
  /\ exists cleaned outlierCount w',
       @removeOutliers () Q exactly (@DefaultConfig Q exactly) scenarioA_times
         (@scenarioA_world Q exactly) = (Ok (cleaned, outlierCount), w')
       /\ (0 < s_len cleaned)%nat /\ 0 <= outlierCount < len scenarioA_times.
Proof.
  assert (Ht : (0 <= CalculatorConfig.OutlierThreshold (@DefaultConfig Q exactly))%Q)
    by (vm_compute; discriminate).
  assert (Htrim : (CalculatorConfig.TrimPercent (@DefaultConfig Q exactly) < 0.5)%Q)
    by reflexivity.
  split; [split; [cbn; lia|split; assumption]|].
  exact (removal_leaves_values (E:=()) (fun q => q) (@DefaultConfig Q exactly) scenarioA_times
           (@scenarioA_world Q exactly) eq_refl ltac:(cbn; lia)
           ltac:(vm_compute; discriminate) Ht Htrim).
Defined.

(** X26 at a concrete input: five deltas of 6 seconds. *)
Lemma constant_series_kept_witness :
  (forall x, In x (slice_elems (heap constant_world) constant_times) -> x = 6%Q)
  /\ exists cleaned w',
       @removeOutliers () Q exactly (@DefaultConfig Q exactly) constant_times constant_world
       = (Ok (cleaned, 0), w')
       /\ slice_elems (heap w') cleaned = slice_elems (heap constant_world) constant_times.
Proof.
  assert (Hall : forall x, In x (slice_elems (heap constant_world) constant_times) -> x = 6%Q).
  { intros x Hx. cbn in Hx. intuition congruence. }
  split; [exact Hall|].
  exact (constant_series_kept (E:=()) (fun q => q) (@DefaultConfig Q exactly) constant_times
           constant_world 6%Q eq_refl ltac:(vm_compute; discriminate) Hall).
Defined.

(** X27 at a concrete input: the eleven blocks of the skewed chain. *)
Lemma range_summary_of_blocks_witness :
  exists first rest env1 l outlierCount stats w',
    GetBlockRange (calc_client (cosmosCalculator (T:=float) 11 10 0.5)) 1 11
      (env (chainWorld (T:=float) skewed_deltas)) = (Ok (first :: rest), env1)
    /\ cleanedOf (calc_config (cosmosCalculator (T:=float) 11 10 0.5)) (timeDeltas first rest)
       = Some (l, outlierCount)
    /\ CalculateStatsForRange (cosmosCalculator (T:=float) 11 10 0.5) 1 11
         (chainWorld skewed_deltas) = (Ok stats, w')
    /\ BlockTimeStats.SampleSize stats = Z.of_nat (length (timeDeltas first rest))
    /\ BlockTimeStats.OutlierCount stats = outlierCount
    /\ env w' = env1.
Proof.
  destruct (GetBlockRange (calc_client (cosmosCalculator (T:=float) 11 10 0.5)) 1 11
              (env (chainWorld (T:=float) skewed_deltas)))
    as [[[|first rest]|e|msg] env1] eqn:Hget;
    [vm_compute in Hget; discriminate| |vm_compute in Hget; discriminate
    |vm_compute in Hget; discriminate].
  assert (Hdeltas : timeDeltas first rest = map f_ofInt skewed_deltas).
  { pose proof Hget as Hv. vm_compute in Hv. injection Hv as <- <- _. by_evaluation. }
  destruct (cleanedOf (calc_config (cosmosCalculator (T:=float) 11 10 0.5))
              (timeDeltas first rest)) as [[l outlierCount]|] eqn:Hc;
    [|rewrite Hdeltas in Hc; vm_compute in Hc; discriminate].
  destruct (range_summary_of_blocks (cosmosCalculator (T:=float) 11 10 0.5) 1 11
              (chainWorld skewed_deltas) first rest env1 l outlierCount)
    as (cleaned & w' & Hrun & _ & Henv);
    [lia|vm_compute; discriminate|exact Hget
    |rewrite Hdeltas; vm_compute; discriminate|exact Hc|].
  exists first, rest, env1, l, outlierCount. eexists. exists w'.
  split; [reflexivity|]. split; [exact Hc|]. split; [exact Hrun|].
  split; [reflexivity|]. split; [reflexivity|exact Henv].
Defined.

(** X28 at a concrete input: the eleven blocks of the skewed chain in exact
    arithmetic. *)
Lemma returned_summary_well_formed_witness :
  exists stats w',
    @CalculateStatsForRange Node Q exactly (@cosmosCalculator Q exactly 11 10 0.5) 1 11
      (chainWorld skewed_deltas) = (Ok stats, w')
    /\ (0 < BlockTimeStats.Min stats)%Q
    /\ (Range.Lower (BlockTimeStats.EstimatedRange stats)
        <= Range.Upper (BlockTimeStats.EstimatedRange stats))%Q
    /\ 0 <= BlockTimeStats.OutlierCount stats < BlockTimeStats.SampleSize stats.
Proof.
  destruct (@CalculateStatsForRange Node Q exactly (@cosmosCalculator Q exactly 11 10 0.5) 1 11
              (chainWorld skewed_deltas)) as [[stats|e|msg] w'] eqn:Hrun;
    [|vm_compute in Hrun; discriminate|vm_compute in Hrun; discriminate].
  exists stats, w'. split; [reflexivity|].
  assert (Hsize : BlockTimeStats.SampleSize stats <= max_int64).
  { pose proof Hrun as Hv. vm_compute in Hv. injection Hv as <- _. vm_compute. discriminate. }
  destruct (returned_summary_well_formed (E:=Node) (fun q => q)
              (@cosmosCalculator Q exactly 11 10 0.5) 1 11 (chainWorld skewed_deltas) w' stats
              Hrun ltac:(vm_compute; discriminate) ltac:(vm_compute; discriminate)
              ltac:(reflexivity) ltac:(vm_compute; discriminate) Hsize)
    as (((Hmin & _) & _ & (_ & Hrange & _)) & _ & Hcount).
  split; [exact Hmin|]. split; [exact Hrange|exact Hcount].
Defined.
